(** * Capability-coordination framework: the scoring calculators

    A shallow embedding of [assets/js/atcf-calculator.js] (class
    [ATCFCalculator]) and [assets/js/coordination.js] (class
    [CoordinationAssessment]), with the properties the specification
    states about them.

    Modelling conventions.
    - A JavaScript number is a real number ([R]): the arithmetic of the
      source is read as exact arithmetic, so rounding and overflow of
      IEEE doubles are not part of the model.  [NaN] is modelled where the
      source can produce it from absent fields ([JS.num], used by
      coordination.js).  Division is real division; the one denominator
      the source does not guard (the renormalisation of
      [adaptForCulture]) is assumed non-zero by the theorems using it.
      Where rounding decides which branch the source takes, the theorems
      name the inputs on which it does not: [Range.weighable] (the decay
      weights neither overflow nor all underflow to 0) and [Range.varied]
      (no constant vector of several values is correlated).
    - An optional property is an [option]; [None] is [undefined].
    - A plain object used as a dictionary is an association list in
      insertion order ([JS.obj]); only own properties are looked up.  The
      source's index expressions also find the members inherited from
      [Object.prototype]: theorems about tags that index a table assume
      plain keys ([Range.plain_key]), and [Prototype] gives the lookup on
      the prototype chain for [adaptForCulture].
    - An exception is the [Throw] case of [JS.result]; methods that assign
      to [this] return the new receiver next to their result. *)

From Stdlib Require Import Reals Lra Lia Ascii String Sorted.
From stdpp Require Import gmap strings list.

Local Open Scope R_scope.
Local Open Scope string_scope.

(** ** The fragment of JavaScript the two classes rely on *)

Module JS.

Inductive exn : Type :=
| TypeError
| Error (message : string).

Inductive result (A : Type) : Type :=
| Ok (a : A)
| Throw (e : exn).
Arguments Ok {A} a.
Arguments Throw {A} e.

Definition bind {A B} (m : result A) (k : A -> result B) : result B :=
  match m with
  | Ok a => k a
  | Throw e => Throw e
  end.

(** [x || d] for an optional numeric property: 0 and undefined are falsy. *)
Definition or_default (x : option R) (d : R) : R :=
  match x with
  | Some v => if Req_dec_T v 0 then d else v
  | None => d
  end.

(** Plain objects: own enumerable properties, in insertion order. *)
Definition obj (V : Type) : Type := list (string * V).

Definition Object_keys {V} (o : obj V) : list string := map fst o.
Definition Object_values {V} (o : obj V) : list V := map snd o.

Fixpoint get {V} (o : obj V) (k : string) : option V :=
  match o with
  | [] => None
  | (k', v) :: o' => if String.eqb k k' then Some v else get o' k
  end.

(** [k in o] *)
Definition has_key {V} (k : string) (o : obj V) : bool :=
  match get o k with Some _ => true | None => false end.

(** The key under which an absent (undefined) index is looked up. *)
Definition property_key (k : option string) : string :=
  match k with Some s => s | None => "undefined" end.

(** [arr.reduce((a, b) => a + b)]: without an initial value the call
    throws a TypeError on an empty array. *)
Definition reduce_sum (arr : list R) : result R :=
  match arr with
  | [] => Throw TypeError
  | a :: rest => Ok (fold_left Rplus rest a)
  end.

(** [new Set(arr)]: the distinct elements in order of first insertion. *)
Definition Set_has (s : list string) (x : string) : bool :=
  existsb (String.eqb x) s.

Definition Set_add (s : list string) (x : string) : list string :=
  if Set_has s x then s else s ++ [x].

Definition new_Set (arr : list string) : list string :=
  fold_left Set_add arr [].

Definition Set_size (s : list string) : R := INR (length s).

(** Strings (ASCII letters only for the case mapping). *)
Definition lower_ascii (c : ascii) : ascii :=
  let n := nat_of_ascii c in
  if (Nat.leb 65 n && Nat.leb n 90)%bool then ascii_of_nat (n + 32) else c.

Fixpoint toLowerCase (s : string) : string :=
  match s with
  | EmptyString => EmptyString
  | String c s' => String (lower_ascii c) (toLowerCase s')
  end.

(** [s.includes(sub)] *)
Fixpoint includes (s sub : string) : bool :=
  if String.prefix sub s then true
  else match s with
       | EmptyString => false
       | String _ s' => includes s' sub
       end.

(** [s.split('_')[0]] *)
Fixpoint split_first (s : string) : string :=
  match s with
  | EmptyString => EmptyString
  | String c s' =>
      if Ascii.eqb c "_"%char then EmptyString else String c (split_first s')
  end.

(** Truthiness of an optional string property. *)
Definition truthy_string (s : option string) : bool :=
  match s with
  | Some EmptyString | None => false
  | Some _ => true
  end.

(** Numbers that may be NaN. *)
Inductive num : Type :=
| Num (x : R)
| NaN.

Definition of_property (x : option R) : num :=
  match x with Some v => Num v | None => NaN end.

Definition lift1 (f : R -> R) (a : num) : num :=
  match a with Num x => Num (f x) | NaN => NaN end.

Definition lift2 (f : R -> R -> R) (a b : num) : num :=
  match a, b with
  | Num x, Num y => Num (f x y)
  | _, _ => NaN
  end.

Definition add := lift2 Rplus.
Definition sub := lift2 Rminus.
Definition mul := lift2 Rmult.
Definition div := lift2 Rdiv.
Definition abs := lift1 Rabs.
Definition min := lift2 Rmin.
Definition max := lift2 Rmax.

(** [a < b]: false as soon as one side is NaN. *)
Definition lt (a b : num) : bool :=
  match a, b with
  | Num x, Num y => if Rlt_dec x y then true else false
  | _, _ => false
  end.

Definition ge (a b : num) : bool :=
  match a, b with
  | Num x, Num y => if Rge_dec x y then true else false
  | _, _ => false
  end.

(** [arr.sort(cmp)]: the sort is stable, so for a consistent comparator
    the result is the stable insertion of every element; an element goes
    before the first later-sorted element it does not compare greater
    than.  A comparator result of NaN counts as 0. *)
Fixpoint sort_insert {A} (cmp : A -> A -> option Z) (x : A) (l : list A)
  : list A :=
  match l with
  | [] => [x]
  | y :: l' =>
      match cmp x y with
      | Some c => if (0 <? c)%Z then y :: sort_insert cmp x l' else x :: l
      | None => x :: l
      end
  end.

Definition sort {A} (cmp : A -> A -> option Z) (arr : list A) : list A :=
  foldr (sort_insert cmp) [] arr.

End JS.

#[global] Instance result_ret : MRet JS.result := @JS.Ok.
#[global] Instance result_bind : MBind JS.result :=
  fun A B k m => JS.bind m k.

(** ** The data the calculators read *)

Record HistoryPoint : Type := {
  timestamp : R;
  snapshot_kernel : option (list string)   (* historyPoint.identity_kernel *)
}.

(** The present-state bundle [uev_data]: four objects of numeric scores. *)
Record UEV : Type := {
  global_feeling_tone : JS.obj R;
  emotional_motivation : JS.obj R;
  rational_deliberation : JS.obj R;
  action_readiness : JS.obj R
}.

Record Authenticity : Type := {
  auth_identity_kernel : option (list string);  (* authenticity.identity_kernel *)
  value_alignment : option R;
  self_consistency : option R
}.

Record BROA : Type := {
  beliefs : option (JS.obj R);
  rules : option (JS.obj string);
  ontology : option (JS.obj string);
  authenticity : option Authenticity
}.

Record FutureProjections : Type := {
  goals : option (list string);
  timeline : option string;
  alignment_with_identity : option R
}.

Record SelfModification : Type := {
  modification_history : option (list string);
  coherence_maintenance_capacity : option R
}.

Record AgentData : Type := {
  cultural_background : option string;
  identity_history : option (list HistoryPoint);
  identity_kernel : option (list string);
  uev_data : UEV;
  broa_data : BROA;
  future_projections : FutureProjections;
  self_modification_data : SelfModification;
  capabilities : option (list string)
}.

(** [Object.values(uevData)] *)
Definition UEV_values (u : UEV) : list (JS.obj R) :=
  [global_feeling_tone u; emotional_motivation u;
   rational_deliberation u; action_readiness u].

Record Weights : Type := {
  alpha : R;
  beta : R;
  gamma : R;
  delta : R
}.

(** [Object.values(weights)] *)
Definition Weights_values (w : Weights) : list R :=
  [alpha w; beta w; gamma w; delta w].

Module Interpretation.
Record t : Type := {
  level : string;
  description : string;
  recommendation : string
}.
End Interpretation.

Record Components : Type := {
  HC : R;
  PI : R;
  PC : R;
  MCC : R
}.

Record CulturalAdaptation : Type := {
  original_weights : Weights;
  adapted_weights : Weights;
  cultural_context : option string
}.

Record ATCFResult : Type := {
  total_score : R;
  components : Components;
  result_weights : Weights;                 (* result.weights *)
  assessment_timestamp : R;
  interpretation : Interpretation.t;
  cultural_adaptation : option CulturalAdaptation
}.

(** ** atcf-calculator.js: class ATCFCalculator *)

(** The receiver: the two fields the constructor sets. *)
Record ATCFCalculator : Type := {
  weights : Weights;
  temporalDecayConstant : R
}.

Definition set_weights (this : ATCFCalculator) (w : Weights) : ATCFCalculator :=
  {| weights := w; temporalDecayConstant := temporalDecayConstant this |}.

Definition default_weights : Weights :=
  {| alpha := 0.25; beta := 0.25; gamma := 0.25; delta := 0.25 |}.

Definition validateWeights (w : Weights) : JS.result unit :=
  let sum := fold_left Rplus (Weights_values w) 0 in
  if Rgt_dec (Rabs (sum - 1.0)) 0.001
  then JS.Throw (JS.Error "ATCF weights must sum to 1.0")
  else JS.Ok tt.

(** [new ATCFCalculator(weights)] *)
Definition constructor (w : Weights) : JS.result ATCFCalculator :=
  _ ← validateWeights w;
  mret {| weights := w; temporalDecayConstant := 30 |}.

Definition calculateIdentitySimilarity (kernel1 kernel2 : option (list string)) : R :=
  match kernel1, kernel2 with
  | Some k1, Some k2 =>
      if (Nat.eqb (length k1) 0 || Nat.eqb (length k2) 0)%bool then 0
      else
        let set1 := JS.new_Set k1 in
        let set2 := JS.new_Set k2 in
        let intersection := JS.new_Set (List.filter (JS.Set_has set2) set1) in
        let union := JS.new_Set (set1 ++ set2) in
        JS.Set_size intersection / JS.Set_size union
  | _, _ => 0
  end.

(** One turn of the loop of [calculateHistoricalContinuity]; the state is
    (totalScore, totalWeight). *)
Definition historyStep (this : ATCFCalculator) (currentTime : R)
    (first : HistoryPoint) (acc : R * R) (historyPoint : HistoryPoint) : R * R :=
  let timeDiff := (currentTime - timestamp historyPoint) / (1000 * 60 * 60 * 24) in
  let temporalWeight := exp (- timeDiff / temporalDecayConstant this) in
  let identityPreservation :=
    calculateIdentitySimilarity (snapshot_kernel first) (snapshot_kernel historyPoint) in
  (fst acc + temporalWeight * identityPreservation, snd acc + temporalWeight).

Definition calculateHistoricalContinuity (this : ATCFCalculator)
    (identityHistory : option (list HistoryPoint)) (currentTime : R) : R :=
  match identityHistory with
  | None | Some [] => 0
  | Some ((first :: _) as history) =>
      let '(totalScore, totalWeight) :=
        fold_left (historyStep this currentTime first) history (0, 0) in
      if Rgt_dec totalWeight 0 then totalScore / totalWeight else 0
  end.

Definition calculateCorrelation (arr1 arr2 : list R) : JS.result R :=
  if (negb (Nat.eqb (length arr1) (length arr2)) || Nat.eqb (length arr1) 0)%bool
  then mret 0
  else
    sum1 ← JS.reduce_sum arr1;
    sum2 ← JS.reduce_sum arr2;
    let mean1 := sum1 / INR (length arr1) in
    let mean2 := sum2 / INR (length arr2) in
    let '(numerator, sumSq1, sumSq2) :=
      fold_left (fun '(numerator, sumSq1, sumSq2) '(a1, a2) =>
                   let diff1 := a1 - mean1 in
                   let diff2 := a2 - mean2 in
                   (numerator + diff1 * diff2, sumSq1 + diff1 * diff1, sumSq2 + diff2 * diff2))
                (combine arr1 arr2) (0, 0, 0) in
    let denominator := sqrt (sumSq1 * sumSq2) in
    mret (if Req_dec_T denominator 0 then 0 else numerator / denominator).

(** The index pairs [i < j] in the order the two nested loops visit them. *)
Fixpoint loop_pairs {A} (l : list A) : list (A * A) :=
  match l with
  | [] => []
  | x :: l' => map (pair x) l' ++ loop_pairs l'
  end.

Definition checkComponentCompatibility (components : list (JS.obj R)) : JS.result R :=
  '(totalCompatibility, comparisons) ←
    foldl (fun acc '(ci, cj) =>
             '(totalCompatibility, comparisons) ← acc;
             correlation ← calculateCorrelation (JS.Object_values ci) (JS.Object_values cj);
             mret (totalCompatibility + Rabs correlation, S comparisons))
          (mret (0, O)) (loop_pairs components);
  mret (if Nat.ltb 0 comparisons then totalCompatibility / INR comparisons else 0.5).

Definition checkTemporalContinuity (uevData : UEV) : JS.result R :=
  let allValues := flat_map JS.Object_values (UEV_values uevData) in
  sum ← JS.reduce_sum allValues;
  let mean := sum / INR (length allValues) in
  let variance :=
    fold_left (fun sum val => sum + (val - mean) ^ 2) allValues 0 / INR (length allValues) in
  mret (Rmax 0 (1 - variance)).

Definition calculateTCF (uevData : UEV) : JS.result R :=
  let components :=
    [global_feeling_tone uevData; emotional_motivation uevData;
     rational_deliberation uevData; action_readiness uevData] in
  compatibilityScore ← checkComponentCompatibility components;
  temporalContinuity ← checkTemporalContinuity uevData;
  mret (0.7 * compatibilityScore + 0.3 * temporalContinuity).

Definition calculateBeliefConsistency (beliefs : option (JS.obj R)) : JS.result R :=
  match beliefs with
  | None => mret 0.5
  | Some beliefs =>
      let values := JS.Object_values beliefs in
      sum ← JS.reduce_sum values;
      let mean := sum / INR (length values) in
      let variance :=
        fold_left (fun sum val => sum + (val - mean) ^ 2) values 0 / INR (length values) in
      let optimalVariance := 0.1 in
      let varianceScore := 1 - Rabs (variance - optimalVariance) in
      mret (Rmax 0 (Rmin 1 varianceScore))
  end.

Definition calculateRuleCoherence (rules : option (JS.obj string)) : R :=
  match rules with
  | None => 0.5
  | Some rules =>
      let ruleCount := INR (length (JS.Object_keys rules)) in
      Rmin 1 (ruleCount / 5)
  end.

Definition calculateOntologyAlignment (ontology : option (JS.obj string)) : R :=
  match ontology with
  | None => 0.5
  | Some ontology =>
      let expectedCategories := ["agency_conception"; "time_orientation"; "relationship_model"] in
      let presentCategories :=
        List.filter (fun cat => JS.truthy_string (JS.get ontology cat)) expectedCategories in
      INR (length presentCategories) / INR (length expectedCategories)
  end.

Definition calculateInternalCoherence (broaData : BROA) : JS.result R :=
  beliefConsistency ← calculateBeliefConsistency (beliefs broaData);
  let ruleCoherence := calculateRuleCoherence (rules broaData) in
  let ontologyAlignment := calculateOntologyAlignment (ontology broaData) in
  match authenticity broaData with
  | None => JS.Throw JS.TypeError
  | Some auth =>
      let authenticityAlignment := JS.or_default (value_alignment auth) 0.75 in
      mret ((beliefConsistency + ruleCoherence + ontologyAlignment + authenticityAlignment) / 4)
  end.

Definition calculatePresentIntegration (uevData : UEV) (broaData : BROA) : JS.result R :=
  tcfScore ← calculateTCF uevData;
  internalCoherence ← calculateInternalCoherence broaData;
  mret (0.6 * tcfScore + 0.4 * internalCoherence).

(** [goal => identityKernel.some(...)] of [calculateProjectionAlignment] *)
Definition goalMatchesKernel (identityKernel : list string) (goal : string) : bool :=
  existsb (fun kernelElement =>
             (JS.includes (JS.toLowerCase goal) (JS.toLowerCase kernelElement)
              || JS.includes (JS.toLowerCase kernelElement) (JS.toLowerCase goal))%bool)
          identityKernel.

Definition calculateProjectionAlignment (projections : FutureProjections)
    (identityKernel : option (list string)) : R :=
  match goals projections, identityKernel with
  | Some goals, Some identityKernel =>
      let goalKernelOverlap :=
        INR (length (List.filter (goalMatchesKernel identityKernel) goals)) in
      let alignmentScore := goalKernelOverlap / Rmax (INR (length goals)) 1 in
      let explicitAlignment :=
        JS.or_default (alignment_with_identity projections) alignmentScore in
      (alignmentScore + explicitAlignment) / 2
  | _, _ => 0.5
  end.

Definition calculateGoalDiversity (goals : option (list string)) : R :=
  match goals with
  | None | Some [] => 0
  | Some goals =>
      let uniqueGoalTypes := JS.Set_size (JS.new_Set (map JS.split_first goals)) in
      let diversityScore := Rmin 1 (uniqueGoalTypes / 5) in
      diversityScore
  end.

Definition timelineMap : JS.obj R :=
  [("1_year", 0.7); ("3_years", 0.8); ("5_years", 0.9);
   ("10_years", 0.8); ("20_years", 0.6)].

Definition assessTimelineRealism (timeline : option string) : R :=
  JS.or_default (JS.get timelineMap (JS.property_key timeline)) 0.5.

Definition calculateAdaptiveCapacity (projections : FutureProjections) : R :=
  let goalDiversity := calculateGoalDiversity (goals projections) in
  let timelineRealism := assessTimelineRealism (timeline projections) in
  (goalDiversity + timelineRealism) / 2.

Definition calculateProspectiveCoherence (futureProjections : FutureProjections)
    (identityKernel : option (list string)) : R :=
  let projectionAlignment := calculateProjectionAlignment futureProjections identityKernel in
  let adaptiveCapacity := calculateAdaptiveCapacity futureProjections in
  0.6 * projectionAlignment + 0.4 * adaptiveCapacity.

Definition assessModificationAbility (modData : SelfModification) : R :=
  match modification_history modData with
  | None => 0.3
  | Some history =>
      let historyLength := INR (length history) in
      let diversityScore := JS.Set_size (JS.new_Set (map JS.split_first history)) in
      Rmin 1 (historyLength * 0.2 + diversityScore * 0.1)
  end.

Definition assessCoherenceMaintenance (modData : SelfModification) : R :=
  JS.or_default (coherence_maintenance_capacity modData) 0.5.

Definition calculateMetaConstructorCapacity (selfModificationData : SelfModification) : R :=
  let modificationAbility := assessModificationAbility selfModificationData in
  let coherenceMaintenance := assessCoherenceMaintenance selfModificationData in
  0.5 * modificationAbility + 0.5 * coherenceMaintenance.

Definition interpretATCFScore (score : R) : Interpretation.t :=
  if Rge_dec score 0.8 then
    {| Interpretation.level := "excellent";
       Interpretation.description := "Excellent temporal coherence";
       Interpretation.recommendation := "Maintain current practices and consider mentoring others" |}
  else if Rge_dec score 0.7 then
    {| Interpretation.level := "good";
       Interpretation.description := "Good temporal coherence";
       Interpretation.recommendation := "Continue current development with minor optimizations" |}
  else if Rge_dec score 0.5 then
    {| Interpretation.level := "moderate";
       Interpretation.description := "Moderate temporal coherence";
       Interpretation.recommendation := "Focus on strengthening weak components through targeted interventions" |}
  else if Rge_dec score 0.3 then
    {| Interpretation.level := "low";
       Interpretation.description := "Low temporal coherence";
       Interpretation.recommendation := "Comprehensive intervention recommended - consider temporal coherence therapy" |}
  else
    {| Interpretation.level := "very_low";
       Interpretation.description := "Very low temporal coherence";
       Interpretation.recommendation := "Immediate intervention required - consult with trained practitioner" |}.

(** [Math.max(0, Math.min(1, x))] *)
Definition clamp (x : R) : R := Rmax 0 (Rmin 1 x).

Definition calculateATCF (this : ATCFCalculator) (agentData : AgentData)
    (current : R) : JS.result ATCFResult :=
  let hc := calculateHistoricalContinuity this (identity_history agentData) current in
  pi ← calculatePresentIntegration (uev_data agentData) (broa_data agentData);
  let pc := calculateProspectiveCoherence (future_projections agentData)
                                          (identity_kernel agentData) in
  let mcc := calculateMetaConstructorCapacity (self_modification_data agentData) in
  let totalScore :=
    alpha (weights this) * hc + beta (weights this) * pi
    + gamma (weights this) * pc + delta (weights this) * mcc in
  mret {| total_score := clamp totalScore;
          components := {| HC := clamp hc; PI := clamp pi; PC := clamp pc; MCC := clamp mcc |};
          result_weights := weights this;
          assessment_timestamp := current;
          interpretation := interpretATCFScore totalScore;
          cultural_adaptation := None |}.

Section CulturalFrameworks.

(** [window.FrameworkData.culturalFrameworks], reduced to what the
    calculator reads of it: the [atcf_modifiers] of each culture.  The
    table is defined outside the two classes; a missing [FrameworkData]
    is the empty table. *)
Context (culturalFrameworks : gmap string Weights).

Definition adaptForCulture (culturalContext : option string)
    (baseWeights : Weights) : Weights :=
  match culturalFrameworks !! JS.property_key culturalContext with
  | None => baseWeights
  | Some modifiers =>
      let adaptedWeights :=
        {| alpha := alpha baseWeights * alpha modifiers;
           beta := beta baseWeights * beta modifiers;
           gamma := gamma baseWeights * gamma modifiers;
           delta := delta baseWeights * delta modifiers |} in
      let total := fold_left Rplus (Weights_values adaptedWeights) 0 in
      {| alpha := alpha adaptedWeights / total;
         beta := beta adaptedWeights / total;
         gamma := gamma adaptedWeights / total;
         delta := delta adaptedWeights / total |}
  end.

(** The method assigns to [this.weights] twice; the receiver after the
    call is returned with the outcome.  When [calculateATCF] throws, the
    second assignment is not reached. *)
Definition calculateCulturallyAdaptedATCF (this : ATCFCalculator)
    (agentData : AgentData) (current : R) : JS.result ATCFResult * ATCFCalculator :=
  let culturalContext := cultural_background agentData in
  let adaptedWeights := adaptForCulture culturalContext (weights this) in
  let originalWeights := weights this in
  let this1 := set_weights this adaptedWeights in
  match calculateATCF this1 agentData current with
  | JS.Throw e => (JS.Throw e, this1)
  | JS.Ok result =>
      let result' :=
        {| total_score := total_score result;
           components := components result;
           result_weights := result_weights result;
           assessment_timestamp := assessment_timestamp result;
           interpretation := interpretation result;
           cultural_adaptation :=
             Some {| original_weights := originalWeights;
                     adapted_weights := adaptedWeights;
                     cultural_context := culturalContext |} |} in
      (JS.Ok result', set_weights this1 originalWeights)
  end.

End CulturalFrameworks.

(** ** coordination.js: class CoordinationAssessment *)

Module Recommendation.
Record t : Type := {
  level : string;
  description : string;
  action : string;
  confidence : string
}.
End Recommendation.

Module Strategy.
Record t : Type := {
  type : string;
  priority : string;
  strategy : string;
  timeline : string;
  expected_improvement : R
}.
End Strategy.

Record CoordinationResult : Type := {
  coordination_potential : JS.num;
  individual_atcf : ATCFResult * ATCFResult;      (* { agent1, agent2 } *)
  prf_compatibility : JS.num;
  capability_overlap : R;
  cultural_coordination : R;
  recommendation : Recommendation.t;
  intervention_strategies : list Strategy.t
}.

Record CoordinationAssessment : Type := {
  coordinationThreshold : R;
  atcfCalculator : ATCFCalculator
}.

(** [new CoordinationAssessment()]; the default weights pass validation. *)
Definition new_CoordinationAssessment : JS.result CoordinationAssessment :=
  calculator ← constructor default_weights;
  mret {| coordinationThreshold := 0.7; atcfCalculator := calculator |}.

(** [compatibilityMatrix[a]?.[b] || 0.5] *)
Definition matrix_lookup (compatibilityMatrix : JS.obj (JS.obj R))
    (a b : option string) : R :=
  match JS.get compatibilityMatrix (JS.property_key a) with
  | Some row => JS.or_default (JS.get row (JS.property_key b)) 0.5
  | None => 0.5
  end.

Definition calculateBeliefCompatibility (beliefs1 beliefs2 : option (JS.obj R)) : JS.num :=
  match beliefs1, beliefs2 with
  | Some beliefs1, Some beliefs2 =>
      let commonBeliefs :=
        List.filter (fun key => JS.has_key key beliefs2) (JS.Object_keys beliefs1) in
      if Nat.eqb (length commonBeliefs) 0 then JS.Num 0.3
      else
        let totalCompatibility :=
          fold_left (fun totalCompatibility belief =>
                       let diff :=
                         JS.abs (JS.sub (JS.of_property (JS.get beliefs1 belief))
                                        (JS.of_property (JS.get beliefs2 belief))) in
                       let compatibility := JS.sub (JS.Num 1) diff in
                       JS.add totalCompatibility compatibility)
                    commonBeliefs (JS.Num 0) in
        JS.div totalCompatibility (JS.Num (INR (length commonBeliefs)))
  | _, _ => JS.Num 0.5
  end.

Definition assessDecisionCompatibility (style1 style2 : option string) : R :=
  let compatibilityMatrix :=
    [("individual_focused",
      [("individual_focused", 0.9); ("consensus_based", 0.4);
       ("hierarchical", 0.3); ("collaborative", 0.6)]);
     ("consensus_based",
      [("individual_focused", 0.4); ("consensus_based", 0.9);
       ("hierarchical", 0.5); ("collaborative", 0.8)])] in
  matrix_lookup compatibilityMatrix style1 style2.

Definition assessConflictCompatibility (style1 style2 : option string) : R :=
  let compatibilityMatrix :=
    [("direct_communication",
      [("direct_communication", 0.9); ("harmony_preservation", 0.3);
       ("authority_based", 0.4); ("mediated_discussion", 0.7)]);
     ("harmony_preservation",
      [("direct_communication", 0.3); ("harmony_preservation", 0.9);
       ("authority_based", 0.6); ("mediated_discussion", 0.8)])] in
  matrix_lookup compatibilityMatrix style1 style2.

Definition assessGoalCompatibility (style1 style2 : option string) : R :=
  let compatibilityMatrix :=
    [("personal_achievement",
      [("personal_achievement", 0.8); ("collective_benefit", 0.4);
       ("hierarchical_alignment", 0.3); ("collaborative_outcome", 0.6)]);
     ("collective_benefit",
      [("personal_achievement", 0.4); ("collective_benefit", 0.9);
       ("hierarchical_alignment", 0.7); ("collaborative_outcome", 0.8)])] in
  matrix_lookup compatibilityMatrix style1 style2.

Definition calculateRuleCompatibility (rules1 rules2 : option (JS.obj string)) : R :=
  match rules1, rules2 with
  | Some rules1, Some rules2 =>
      let decisionCompatibility :=
        assessDecisionCompatibility (JS.get rules1 "decision_making")
                                    (JS.get rules2 "decision_making") in
      let conflictCompatibility :=
        assessConflictCompatibility (JS.get rules1 "conflict_resolution")
                                    (JS.get rules2 "conflict_resolution") in
      let goalCompatibility :=
        assessGoalCompatibility (JS.get rules1 "goal_setting")
                                (JS.get rules2 "goal_setting") in
      (decisionCompatibility + conflictCompatibility + goalCompatibility) / 3
  | _, _ => 0.5
  end.

Definition assessAgencyCompatibility (agency1 agency2 : option string) : R :=
  let compatibilityMatrix :=
    [("independent",
      [("independent", 0.9); ("interdependent", 0.4);
       ("hierarchical", 0.3); ("collective", 0.5)]);
     ("interdependent",
      [("independent", 0.4); ("interdependent", 0.9);
       ("hierarchical", 0.6); ("collective", 0.8)])] in
  matrix_lookup compatibilityMatrix agency1 agency2.

Definition assessTimeCompatibility (time1 time2 : option string) : R :=
  let compatibilityMatrix :=
    [("future_focused",
      [("future_focused", 0.9); ("present_focused", 0.6);
       ("past_honoring", 0.4); ("cyclical_continuity", 0.5)]);
     ("cyclical_continuity",
      [("future_focused", 0.5); ("present_focused", 0.8);
       ("past_honoring", 0.8); ("cyclical_continuity", 0.9)])] in
  matrix_lookup compatibilityMatrix time1 time2.

Definition assessRelationshipCompatibility (model1 model2 : option string) : R :=
  let compatibilityMatrix :=
    [("voluntary_association",
      [("voluntary_association", 0.9); ("embedded_obligation", 0.3);
       ("hierarchical_structure", 0.2); ("reciprocal_exchange", 0.7)]);
     ("embedded_obligation",
      [("voluntary_association", 0.3); ("embedded_obligation", 0.9);
       ("hierarchical_structure", 0.7); ("reciprocal_exchange", 0.6)])] in
  matrix_lookup compatibilityMatrix model1 model2.

Definition calculateOntologyCompatibility (ontology1 ontology2 : option (JS.obj string)) : R :=
  match ontology1, ontology2 with
  | Some ontology1, Some ontology2 =>
      let agencyCompatibility :=
        assessAgencyCompatibility (JS.get ontology1 "agency_conception")
                                  (JS.get ontology2 "agency_conception") in
      let timeCompatibility :=
        assessTimeCompatibility (JS.get ontology1 "time_orientation")
                                (JS.get ontology2 "time_orientation") in
      let relationshipCompatibility :=
        assessRelationshipCompatibility (JS.get ontology1 "relationship_model")
                                        (JS.get ontology2 "relationship_model") in
      (agencyCompatibility + timeCompatibility + relationshipCompatibility) / 3
  | _, _ => 0.5
  end.

Definition calculateIdentityKernelOverlap (kernel1 kernel2 : option (list string)) : R :=
  match kernel1, kernel2 with
  | Some k1, Some k2 =>
      if (Nat.eqb (length k1) 0 || Nat.eqb (length k2) 0)%bool then 0
      else
        let set1 := JS.new_Set k1 in
        let set2 := JS.new_Set k2 in
        let intersection := JS.new_Set (List.filter (JS.Set_has set2) set1) in
        let union := JS.new_Set (set1 ++ set2) in
        JS.Set_size intersection / JS.Set_size union
  | _, _ => 0
  end.

Definition calculateAuthenticityCompatibility (auth1 auth2 : option Authenticity) : JS.num :=
  match auth1, auth2 with
  | Some auth1, Some auth2 =>
      let kernelOverlap :=
        calculateIdentityKernelOverlap (auth_identity_kernel auth1)
                                       (auth_identity_kernel auth2) in
      let alignmentSimilarity :=
        JS.abs (JS.sub (JS.of_property (value_alignment auth1))
                       (JS.of_property (value_alignment auth2))) in
      let alignmentCompatibility := JS.sub (JS.Num 1) alignmentSimilarity in
      let consistencySimilarity :=
        JS.abs (JS.sub (JS.of_property (self_consistency auth1))
                       (JS.of_property (self_consistency auth2))) in
      let consistencyCompatibility := JS.sub (JS.Num 1) consistencySimilarity in
      JS.div (JS.add (JS.add (JS.Num kernelOverlap) alignmentCompatibility)
                     consistencyCompatibility)
             (JS.Num 3)
  | _, _ => JS.Num 0.5
  end.

Definition calculatePRFCompatibility (broa1 broa2 : BROA) : JS.num :=
  let beliefCompatibility := calculateBeliefCompatibility (beliefs broa1) (beliefs broa2) in
  let ruleCompatibility := calculateRuleCompatibility (rules broa1) (rules broa2) in
  let ontologyCompatibility :=
    calculateOntologyCompatibility (ontology broa1) (ontology broa2) in
  let authenticityCompatibility :=
    calculateAuthenticityCompatibility (authenticity broa1) (authenticity broa2) in
  JS.div (JS.add (JS.add (JS.add beliefCompatibility (JS.Num ruleCompatibility))
                         (JS.Num ontologyCompatibility))
                 authenticityCompatibility)
         (JS.Num 4).

Definition calculateCapabilityOverlap (capabilities1 capabilities2 : option (list string)) : R :=
  match capabilities1, capabilities2 with
  | Some c1, Some c2 =>
      if (Nat.eqb (length c1) 0 || Nat.eqb (length c2) 0)%bool then 0.3
      else
        let set1 := JS.new_Set c1 in
        let set2 := JS.new_Set c2 in
        let intersection := JS.new_Set (List.filter (JS.Set_has set2) set1) in
        let union := JS.new_Set (set1 ++ set2) in
        let overlapRatio := JS.Set_size intersection / JS.Set_size union in
        let complementarityRatio :=
          (JS.Set_size union - JS.Set_size intersection) / JS.Set_size union in
        0.4 * overlapRatio + 0.6 * Rmin 1 (complementarityRatio * 2)
  | _, _ => 0.3
  end.

Definition culturalCompatibilityMatrix : JS.obj (JS.obj R) :=
  [("individualistic",
    [("collectivistic", 0.6); ("indigenous", 0.5); ("traditional", 0.4)]);
   ("collectivistic",
    [("individualistic", 0.6); ("indigenous", 0.7); ("traditional", 0.8)]);
   ("indigenous",
    [("individualistic", 0.5); ("collectivistic", 0.7); ("traditional", 0.6)]);
   ("traditional",
    [("individualistic", 0.4); ("collectivistic", 0.8); ("indigenous", 0.6)])].

Definition calculateCulturalCoordination (culture1 culture2 : option string) : R :=
  if (negb (JS.truthy_string culture1) || negb (JS.truthy_string culture2))%bool then 0.5
  else if bool_decide (culture1 = culture2) then 0.8
  else matrix_lookup culturalCompatibilityMatrix culture1 culture2.

Definition generateCoordinationRecommendation (coordinationPotential : JS.num)
  : Recommendation.t :=
  if JS.ge coordinationPotential (JS.Num 0.8) then
    {| Recommendation.level := "excellent";
       Recommendation.description := "Excellent coordination potential";
       Recommendation.action := "Proceed with standard coordination protocols";
       Recommendation.confidence := "high" |}
  else if JS.ge coordinationPotential (JS.Num 0.7) then
    {| Recommendation.level := "good";
       Recommendation.description := "Good coordination potential";
       Recommendation.action := "Focus on capability-based coordination protocols";
       Recommendation.confidence := "high" |}
  else if JS.ge coordinationPotential (JS.Num 0.5) then
    {| Recommendation.level := "moderate";
       Recommendation.description := "Moderate coordination potential";
       Recommendation.action := "Implement cultural adaptation strategies and ATCF enhancement";
       Recommendation.confidence := "medium" |}
  else if JS.ge coordinationPotential (JS.Num 0.3) then
    {| Recommendation.level := "low";
       Recommendation.description := "Low coordination potential";
       Recommendation.action :=
         "Intensive capability development and cultural bridge-building recommended";
       Recommendation.confidence := "medium" |}
  else
    {| Recommendation.level := "very_low";
       Recommendation.description := "Very low coordination potential";
       Recommendation.action :=
         "Consider alternative partnerships or extensive preparatory work";
       Recommendation.confidence := "low" |}.

Definition prf_alignment : Strategy.t :=
  {| Strategy.type := "prf_alignment";
     Strategy.priority := "high";
     Strategy.strategy :=
       "Implement belief-bridging exercises and rule harmonization protocols";
     Strategy.timeline := "2-4 weeks";
     Strategy.expected_improvement := 0.2 |}.

Definition capability_development : Strategy.t :=
  {| Strategy.type := "capability_development";
     Strategy.priority := "medium";
     Strategy.strategy :=
       "Focus on complementary capability training and cross-skilling";
     Strategy.timeline := "4-8 weeks";
     Strategy.expected_improvement := 0.25 |}.

Definition cultural_bridging : Strategy.t :=
  {| Strategy.type := "cultural_bridging";
     Strategy.priority := "high";
     Strategy.strategy :=
       "Implement cultural competency training and adaptation protocols";
     Strategy.timeline := "3-6 weeks";
     Strategy.expected_improvement := 0.3 |}.

Definition comprehensive_coordination : Strategy.t :=
  {| Strategy.type := "comprehensive_coordination";
     Strategy.priority := "critical";
     Strategy.strategy :=
       "Multi-modal coordination enhancement program including ATCF therapy";
     Strategy.timeline := "8-12 weeks";
     Strategy.expected_improvement := 0.4 |}.

(** [if (c) strategies.push(s)] *)
Definition push_if {A} (c : bool) (s : A) (strategies : list A) : list A :=
  if c then strategies ++ [s] else strategies.

(** The array [strategies] as it stands before the final [sort]. *)
Definition pushedStrategies (coordinationPotential prfCompatibility : JS.num)
    (capabilityOverlap culturalCoordination : R) : list Strategy.t :=
  let strategies := [] in
  let strategies :=
    push_if (JS.lt prfCompatibility (JS.Num 0.6)) prf_alignment strategies in
  let strategies :=
    push_if (if Rlt_dec capabilityOverlap 0.5 then true else false)
            capability_development strategies in
  let strategies :=
    push_if (if Rlt_dec culturalCoordination 0.6 then true else false)
            cultural_bridging strategies in
  let strategies :=
    push_if (JS.lt coordinationPotential (JS.Num 0.5))
            comprehensive_coordination strategies in
  strategies.

Definition priorityOrder : JS.obj Z :=
  [("critical", 4); ("high", 3); ("medium", 2); ("low", 1)]%Z.

(** [(a, b) => priorityOrder[b.priority] - priorityOrder[a.priority]] *)
Definition comparePriority (a b : Strategy.t) : option Z :=
  match JS.get priorityOrder (Strategy.priority b),
        JS.get priorityOrder (Strategy.priority a) with
  | Some pb, Some pa => Some (pb - pa)%Z
  | _, _ => None
  end.

Definition identifyInterventionStrategies (coordinationPotential prfCompatibility : JS.num)
    (capabilityOverlap culturalCoordination : R) : list Strategy.t :=
  JS.sort comparePriority
          (pushedStrategies coordinationPotential prfCompatibility
                            capabilityOverlap culturalCoordination).

Section Assessment.

Context (culturalFrameworks : gmap string Weights).

(** [now1] and [now2] are the two readings of [Date.now()] taken by the
    default [timeWindow] argument of the two calculator calls. *)
Definition assessCrossAgentCoordination (this : CoordinationAssessment)
    (agent1Data agent2Data : AgentData) (now1 now2 : R)
  : JS.result CoordinationResult * CoordinationAssessment :=
  let with_calculator c :=
    {| coordinationThreshold := coordinationThreshold this; atcfCalculator := c |} in
  match calculateCulturallyAdaptedATCF culturalFrameworks
          (atcfCalculator this) agent1Data now1 with
  | (JS.Throw e, calc1) => (JS.Throw e, with_calculator calc1)
  | (JS.Ok atcf1, calc1) =>
      match calculateCulturallyAdaptedATCF culturalFrameworks calc1 agent2Data now2 with
      | (JS.Throw e, calc2) => (JS.Throw e, with_calculator calc2)
      | (JS.Ok atcf2, calc2) =>
          let prfCompatibility :=
            calculatePRFCompatibility (broa_data agent1Data) (broa_data agent2Data) in
          let capabilityOverlap :=
            calculateCapabilityOverlap
              (Some (default [] (capabilities agent1Data)))
              (Some (default [] (capabilities agent2Data))) in
          let culturalCoordination :=
            calculateCulturalCoordination (cultural_background agent1Data)
                                          (cultural_background agent2Data) in
          let coordinationPotential :=
            JS.add
              (JS.add
                 (JS.add (JS.Num (0.3 * Rmin (total_score atcf1) (total_score atcf2)))
                         (JS.mul (JS.Num 0.25) prfCompatibility))
                 (JS.Num (0.25 * capabilityOverlap)))
              (JS.Num (0.2 * culturalCoordination)) in
          (JS.Ok {| coordination_potential :=
                      JS.max (JS.Num 0) (JS.min (JS.Num 1) coordinationPotential);
                    individual_atcf := (atcf1, atcf2);
                    prf_compatibility := prfCompatibility;
                    capability_overlap := capabilityOverlap;
                    cultural_coordination := culturalCoordination;
                    recommendation :=
                      generateCoordinationRecommendation coordinationPotential;
                    intervention_strategies :=
                      identifyInterventionStrategies coordinationPotential
                        prfCompatibility capabilityOverlap culturalCoordination |},
           with_calculator calc2)
      end
  end.

End Assessment.

(** ** The quantities the specification names *)

Module Spec.

Definition sum (l : list R) : R := foldr Rplus 0 l.

Definition mean (l : list R) : R := sum l / INR (length l).

(** A kernel or capability array read as a finite set of tags. *)
Definition tags (l : list string) : gset string := list_to_set l.

(** Jaccard similarity, 0 when one of the sets is empty. *)
Definition jaccard (A B : gset string) : R :=
  if decide (A = ∅ ∨ B = ∅) then 0
  else INR (size (A ∩ B)) / INR (size (A ∪ B)).

(** The fraction of the union that is not in the intersection. *)
Definition complementarity (A B : gset string) : R :=
  INR (size ((A ∪ B) ∖ (A ∩ B))) / INR (size (A ∪ B)).

Definition capabilityOverlap (A B : gset string) : R :=
  0.4 * jaccard A B + 0.6 * Rmin 1 (2 * complementarity A B).

(** [exp(-Δdays/30)] *)
Definition decay (now : R) (p : HistoryPoint) : R :=
  exp (- ((now - timestamp p) / 86400000) / 30).

Definition weightedAverage (ws xs : list R) : R :=
  sum (zip_with Rmult ws xs) / sum ws.

(** The historical-continuity score against a reference kernel. *)
Definition continuityAgainst (reference : option (list string))
    (history : list HistoryPoint) (now : R) : R :=
  match history with
  | [] => 0
  | _ =>
      weightedAverage
        (map (decay now) history)
        (map (fun p => jaccard (tags (default [] reference))
                               (tags (default [] (snapshot_kernel p)))) history)
  end.

(** The sub-score as the specification words it: the reference is the
    agent's current identity kernel. *)
Definition historicalContinuity (agent : AgentData) (now : R) : R :=
  continuityAgainst (identity_kernel agent)
                    (default [] (identity_history agent)) now.

(** Pearson correlation of two equally long, non-empty vectors; 0 when
    they differ in length, are empty, or one of them is constant. *)
Definition covariation (xs ys : list R) : R :=
  sum (zip_with (fun x y => (x - mean xs) * (y - mean ys)) xs ys).

Definition pearson (xs ys : list R) : R :=
  if decide (length xs = length ys ∧ length xs ≠ O) then
    let d := sqrt (covariation xs xs * covariation ys ys) in
    if Req_dec_T d 0 then 0 else covariation xs ys / d
  else 0.

(** Mean absolute pairwise correlation of the four present-state
    components. *)
Definition compatibilityScore (u : UEV) : R :=
  let v1 := JS.Object_values (global_feeling_tone u) in
  let v2 := JS.Object_values (emotional_motivation u) in
  let v3 := JS.Object_values (rational_deliberation u) in
  let v4 := JS.Object_values (action_readiness u) in
  (Rabs (pearson v1 v2) + Rabs (pearson v1 v3) + Rabs (pearson v1 v4)
   + Rabs (pearson v2 v3) + Rabs (pearson v2 v4) + Rabs (pearson v3 v4)) / 6.

Definition variance (l : list R) : R :=
  sum (map (fun x => (x - mean l) ^ 2) l) / INR (length l).

(** One minus the variance of all present-state values, floored at 0. *)
Definition temporalContinuity (u : UEV) : R :=
  Rmax 0 (1 - variance (flat_map JS.Object_values (UEV_values u))).

Definition unit_interval (x : R) : Prop := 0 <= x <= 1.

(** A possibly-NaN number that is a number of the unit interval. *)
Definition unit_num (x : JS.num) : Prop :=
  match x with JS.Num v => unit_interval v | JS.NaN => False end.

Definition sum4 (w : Weights) : R := alpha w + beta w + gamma w + delta w.

Definition positive (w : Weights) : Prop :=
  0 < alpha w ∧ 0 < beta w ∧ 0 < gamma w ∧ 0 < delta w.

(** Every belief value of the agent lies in the unit interval. *)
Definition unit_beliefs (agent : AgentData) : Prop :=
  ∀ b, beliefs (broa_data agent) = Some b → Forall unit_interval (JS.Object_values b).

(** The authenticity record states both of its numeric fields, in the
    unit interval. *)
Definition stated_authenticity (agent : AgentData) : Prop :=
  ∀ auth, authenticity (broa_data agent) = Some auth →
    ∃ v s, value_alignment auth = Some v ∧ self_consistency auth = Some s
           ∧ unit_interval v ∧ unit_interval s.

(** The renormalisation of [adaptForCulture] divides by a non-zero sum. *)
Definition renormalisable (culturalFrameworks : gmap string Weights)
    (w : Weights) (culture : option string) : Prop :=
  ∀ m, culturalFrameworks !! JS.property_key culture = Some m →
    alpha w * alpha m + beta w * beta m + gamma w * gamma m + delta w * delta m ≠ 0.

(** Rank of a priority tag: critical > high > medium > low. *)
Definition rank (s : Strategy.t) : Z :=
  default 0%Z (JS.get priorityOrder (Strategy.priority s)).

Definition with_priority (p : string) (l : list Strategy.t) : list Strategy.t :=
  List.filter (fun s => String.eqb (Strategy.priority s) p) l.



End Spec.

(** ** Sample inputs *)

Module Sample.

Definition calculator : ATCFCalculator :=
  {| weights := default_weights; temporalDecayConstant := 30 |}.

Definition uev : UEV :=
  {| global_feeling_tone := [("valence", 0.5)];
     emotional_motivation := [("drive", 0.5)];
     rational_deliberation := [("clarity", 0.5)];
     action_readiness := [("energy", 0.5)] |}.

Definition bare_authenticity : Authenticity :=
  {| auth_identity_kernel := None; value_alignment := None; self_consistency := None |}.

Definition broa : BROA :=
  {| beliefs := None; rules := None; ontology := None;
     authenticity := Some bare_authenticity |}.

Definition no_projections : FutureProjections :=
  {| goals := None; timeline := None; alignment_with_identity := None |}.

Definition no_modifications : SelfModification :=
  {| modification_history := None; coherence_maintenance_capacity := None |}.

(** An agent whose kernel was ["b"] a day ago and is ["a"] now, both in
    its latest snapshot and in its current kernel. *)
Definition day : R := 86400000.

Definition agent : AgentData :=
  {| cultural_background := None;
     identity_history :=
       Some [{| timestamp := 0; snapshot_kernel := Some ["b"] |};
             {| timestamp := day; snapshot_kernel := Some ["a"] |}];
     identity_kernel := Some ["a"];
     uev_data := uev;
     broa_data := broa;
     future_projections := no_projections;
     self_modification_data := no_modifications;
     capabilities := None |}.

Definition stated_authenticity : Authenticity :=
  {| auth_identity_kernel := None; value_alignment := Some 0.5;
     self_consistency := Some 0.5 |}.

(** An agent that states one belief, with the given strength. *)
Definition believer (strength : R) : AgentData :=
  {| cultural_background := None;
     identity_history := None;
     identity_kernel := None;
     uev_data := uev;
     broa_data := {| beliefs := Some [("trust", strength)]; rules := None;
                     ontology := None; authenticity := Some stated_authenticity |};
     future_projections := no_projections;
     self_modification_data := no_modifications;
     capabilities := None |}.

Definition assessment : CoordinationAssessment :=
  {| coordinationThreshold := 0.7; atcfCalculator := calculator |}.

(** A modifier table with one culture. *)
Definition frameworks : gmap string Weights :=
  {[ "collectivistic" := {| alpha := 1.2; beta := 0.9; gamma := 0.8; delta := 1.1 |} ]}.

(** Weights that are off by 0.0005. *)
Definition loose_weights : Weights :=
  {| alpha := 0.25; beta := 0.25; gamma := 0.25; delta := 0.2505 |}.

End Sample.

(** ** app.js: the interpretation line of the calculator demo *)

(** What [updateATCFInterpretation] writes of a DOM element. *)
Module Element.
Record t : Type := {
  textContent : string;
  color : string                            (* style.color *)
}.
End Element.

(** [document] maps element ids to elements ([document.getElementById]);
    the method returns the document after its two assignments. *)
Definition updateATCFInterpretation (document : gmap string Element.t)
    (score : JS.num) : gmap string Element.t :=
  match document !! "interpretation" with
  | None => document
  | Some interpretationElement =>
      let '(interpretation, color) :=
        if JS.ge score (JS.Num 0.8) then
          ("Excellent temporal coherence", "#10b981")
        else if JS.ge score (JS.Num 0.7) then
          ("Good temporal coherence", "#059669")
        else if JS.ge score (JS.Num 0.5) then
          ("Moderate temporal coherence", "#d97706")
        else if JS.ge score (JS.Num 0.3) then
          ("Low temporal coherence - intervention recommended", "#dc2626")
        else
          ("Very low temporal coherence - immediate intervention required", "#991b1b") in
      <["interpretation" :=
          {| Element.textContent := interpretation; Element.color := color |}]> document
  end.

(** ** Notions used by the further properties *)

Module Range.

(** An optional numeric field that lies in [0,1] when it is stated. *)
Definition stated_unit (x : option R) : Prop := ∀ v, x = Some v → 0 <= v <= 1.

(** The optional self-assessments the calculator reads (value alignment,
    alignment with identity, coherence-maintenance capacity) lie in [0,1]
    when they are stated. *)
Definition self_assessments_unit (agent : AgentData) : Prop :=
  (∀ auth, authenticity (broa_data agent) = Some auth →
           stated_unit (value_alignment auth))
  ∧ stated_unit (alignment_with_identity (future_projections agent))
  ∧ stated_unit (coherence_maintenance_capacity (self_modification_data agent)).

(** Non-negative coefficients that sum to at most 1. *)
Definition subconvex (w : Weights) : Prop :=
  0 <= alpha w ∧ 0 <= beta w ∧ 0 <= gamma w ∧ 0 <= delta w ∧ Spec.sum4 w <= 1.

(** The data [calculateATCF] needs in order to return: a present-state
    bundle with at least one value, a beliefs object that is absent or
    non-empty, and an authenticity record. *)
Definition scorable (agent : AgentData) : Prop :=
  flat_map JS.Object_values (UEV_values (uev_data agent)) ≠ []
  ∧ beliefs (broa_data agent) ≠ Some []
  ∧ authenticity (broa_data agent) ≠ None.

(** The names every object literal inherits from [Object.prototype].  An
    index expression or an [in] test with one of them finds the inherited
    member; for every other key it sees the own properties only, which is
    what [JS.get] and [JS.has_key] look up. *)
Definition inherited_names : list string :=
  ["constructor"; "__proto__"; "hasOwnProperty"; "isPrototypeOf";
   "propertyIsEnumerable"; "toLocaleString"; "toString"; "valueOf";
   "__defineGetter__"; "__defineSetter__"; "__lookupGetter__"; "__lookupSetter__"].

(** A tag that, used as an index of a table, is none of the inherited names. *)
Definition plain_key (k : option string) : Prop :=
  JS.property_key k ∉ inherited_names.

(** The named style fields of an optional rules or ontology object are
    plain keys. *)
Definition plain_styles (o : option (JS.obj string)) (fields : list string) : Prop :=
  ∀ styles, o = Some styles →
    Forall (fun field => plain_key (JS.get styles field)) fields.

(** Every key of an optional beliefs object is a plain key. *)
Definition plain_beliefs (o : option (JS.obj R)) : Prop :=
  ∀ b, o = Some b → Forall (fun key => plain_key (Some key)) (JS.Object_keys b).

(** Every tag of the agent that indexes a table of the two classes is a
    plain key: culture, timeline, the three rule styles, the three ontology
    categories, and the belief names. *)
Definition plain_tags (agent : AgentData) : Prop :=
  plain_key (cultural_background agent)
  ∧ plain_key (timeline (future_projections agent))
  ∧ plain_styles (rules (broa_data agent))
      ["decision_making"; "conflict_resolution"; "goal_setting"]
  ∧ plain_styles (ontology (broa_data agent))
      ["agency_conception"; "time_orientation"; "relationship_model"]
  ∧ plain_beliefs (beliefs (broa_data agent)).

(** The age of a snapshot at [now] in units of the decay constant: the
    negated argument of [Math.exp] in [calculateHistoricalContinuity]. *)
Definition age (this : ATCFCalculator) (now : R) (p : HistoryPoint) : R :=
  (now - timestamp p) / (1000 * 60 * 60 * 24) / temporalDecayConstant this.

(** [Math.exp] yields a positive finite double only on a bounded range: its
    value is 0 below about -745 and infinite above about 709.  The weights
    of a history can be averaged when no snapshot is dated more than 700
    decay constants after [now] (no weight is infinite) and at least one
    snapshot is no older than 700 decay constants (the sum of the weights is
    positive, so the guard [totalWeight > 0] holds). *)
Definition weighable (this : ATCFCalculator) (history : list HistoryPoint)
    (now : R) : Prop :=
  Forall (fun p => -700 <= age this now p) history
  ∧ Exists (fun p => age this now p <= 700) history.

(** A value vector with at most one value or with two different values.
    For a constant vector of several values the rounding of its mean
    decides whether the guard [denominator === 0] of [calculateCorrelation]
    is reached. *)
Definition varied (values : list R) : Prop :=
  (length values <= 1)%nat ∨ ∃ x y, x ∈ values ∧ y ∈ values ∧ x ≠ y.

(** None of the four present-state components is a constant vector of
    several values. *)
Definition varied_components (uevData : UEV) : Prop :=
  Forall (fun component => varied (JS.Object_values component)) (UEV_values uevData).

End Range.

(** ** Index expressions on ordinary objects *)

Module Prototype.

(** What [table[key]] evaluates to on an ordinary object whose own
    properties are [table]: the own property; else, for one of the names of
    [Range.inherited_names], the member inherited from [Object.prototype]
    (a function, or the prototype object itself for "__proto__": a truthy
    value without an [atcf_modifiers] property); else [undefined]. *)
Inductive member (V : Type) : Type :=
| own (v : V)
| inherited
| undefined.
Arguments own {V} v.
Arguments inherited {V}.
Arguments undefined {V}.

Definition index {V : Type} (table : gmap string V) (key : string) : member V :=
  match table !! key with
  | Some v => own v
  | None =>
      if existsb (String.eqb key) Range.inherited_names then inherited else undefined
  end.

(** [adaptForCulture] with its index expression read on the prototype
    chain, for a [FrameworkData] that has a modifier table.  The guard
    returns [baseWeights] only for [undefined]; on an inherited member
    [cultural.atcf_modifiers] is [undefined], and reading [modifiers.alpha]
    throws a TypeError. *)
Definition adaptForCulture (culturalFrameworks : gmap string Weights)
    (culturalContext : option string) (baseWeights : Weights) : JS.result Weights :=
  match index culturalFrameworks (JS.property_key culturalContext) with
  | undefined => JS.Ok baseWeights
  | inherited => JS.Throw JS.TypeError
  | own modifiers =>
      let adaptedWeights :=
        {| alpha := alpha baseWeights * alpha modifiers;
           beta := beta baseWeights * beta modifiers;
           gamma := gamma baseWeights * gamma modifiers;
           delta := delta baseWeights * delta modifiers |} in
      let total := fold_left Rplus (Weights_values adaptedWeights) 0 in
      JS.Ok {| alpha := alpha adaptedWeights / total;
               beta := beta adaptedWeights / total;
               gamma := gamma adaptedWeights / total;
               delta := delta adaptedWeights / total |}
  end.

End Prototype.

(** ** Further sample inputs *)

Module Fixture.

(** An agent of a known culture whose beliefs object is empty. *)
Definition unscorable : AgentData :=
  {| cultural_background := Some "collectivistic";
     identity_history := None;
     identity_kernel := None;
     uev_data := Sample.uev;
     broa_data := {| beliefs := Some []; rules := None; ontology := None;
                     authenticity := Some Sample.stated_authenticity |};
     future_projections := Sample.no_projections;
     self_modification_data := Sample.no_modifications;
     capabilities := None |}.

(** The sample believer with a culture tag. *)
Definition member (culture : string) : AgentData :=
  {| cultural_background := Some culture;
     identity_history := None;
     identity_kernel := None;
     uev_data := Sample.uev;
     broa_data := broa_data (Sample.believer 0.5);
     future_projections := Sample.no_projections;
     self_modification_data := Sample.no_modifications;
     capabilities := Some ["plan"] |}.

(** A present-state bundle whose components vary: the second runs against
    the first, the fourth runs with it, and the third is uncorrelated with
    the other three. *)
Definition uev : UEV :=
  {| global_feeling_tone := [("valence", 0); ("arousal", 0.5); ("dominance", 1)];
     emotional_motivation := [("drive", 1); ("urgency", 0.5); ("persistence", 0)];
     rational_deliberation := [("clarity", 0.25); ("depth", 1); ("breadth", 0.25)];
     action_readiness := [("energy", 0.5); ("focus", 0.75); ("resolve", 1)] |}.

(** Weights whose products with the collectivistic modifiers sum to 1.02. *)
Definition skewed_weights : Weights :=
  {| alpha := 0.4; beta := 0.3; gamma := 0.2; delta := 0.1 |}.

End Fixture.

(** ** Plain keys *)

Ltac plain_name :=
  unfold Range.plain_key, Range.inherited_names; cbn [JS.property_key JS.get];
  let H := fresh "H" in
  intros H; repeat (apply elem_of_cons in H as [H|H]; [discriminate H|]);
  by apply elem_of_nil in H.

Lemma undefined_plain : Range.plain_key None.
Proof. plain_name. Qed.

Lemma believer_plain_tags (strength : R) : Range.plain_tags (Sample.believer strength).
Proof.
  unfold Range.plain_tags, Range.plain_styles, Range.plain_beliefs.
  cbn [Sample.believer cultural_background future_projections broa_data
       Sample.no_projections timeline rules ontology beliefs].
  split; [apply undefined_plain|]. split; [apply undefined_plain|].
  split; [intros ? [=]|]. split; [intros ? [=]|].
  intros ? [= <-]. unfold JS.Object_keys; cbn [map fst].
  apply Forall_cons_2; [plain_name | apply Forall_nil_2].
Qed.

Lemma agent_plain_tags : Range.plain_tags Sample.agent.
Proof.
  unfold Range.plain_tags, Range.plain_styles, Range.plain_beliefs.
  cbn [Sample.agent cultural_background future_projections broa_data Sample.broa
       Sample.no_projections timeline rules ontology beliefs].
  split; [apply undefined_plain|]. split; [apply undefined_plain|].
  split; [intros ? [=]|]. split; intros ? [=].
Qed.

(** ** JavaScript sets as finite sets *)

Lemma Set_has_spec (s : list string) (x : string) :
  JS.Set_has s x = true ↔ x ∈ s.
Proof.
  unfold JS.Set_has. rewrite existsb_exists. split.
  - intros (y & Hy & Heq). apply String.eqb_eq in Heq. subst y.
    by apply list_elem_of_In.
  - intros Hx. exists x. split; [by apply list_elem_of_In | apply String.eqb_refl].
Qed.

Lemma Set_add_spec (s : list string) (x y : string) :
  y ∈ JS.Set_add s x ↔ y ∈ s ∨ y = x.
Proof.
  unfold JS.Set_add. destruct (JS.Set_has s x) eqn:E.
  - apply Set_has_spec in E. set_solver.
  - set_solver.
Qed.

Lemma Set_add_NoDup (s : list string) (x : string) :
  NoDup s → NoDup (JS.Set_add s x).
Proof.
  intros Hs. unfold JS.Set_add. destruct (JS.Set_has s x) eqn:E; [done|].
  apply NoDup_app. split_and!; [done | | apply NoDup_singleton].
  intros y Hy Hyx. apply list_elem_of_singleton in Hyx. subst y.
  apply Set_has_spec in Hy. congruence.
Qed.

Lemma fold_Set_add_spec (l acc : list string) (y : string) :
  y ∈ fold_left JS.Set_add l acc ↔ y ∈ acc ∨ y ∈ l.
Proof.
  revert acc. induction l as [|x l IH]; intros acc; simpl.
  - set_solver.
  - rewrite IH, Set_add_spec. set_solver.
Qed.

Lemma fold_Set_add_NoDup (l acc : list string) :
  NoDup acc → NoDup (fold_left JS.Set_add l acc).
Proof.
  revert acc. induction l as [|x l IH]; intros acc Hacc; simpl; [done|].
  by apply IH, Set_add_NoDup.
Qed.

Lemma new_Set_spec (l : list string) (y : string) : y ∈ JS.new_Set l ↔ y ∈ l.
Proof. unfold JS.new_Set. rewrite fold_Set_add_spec. set_solver. Qed.

Lemma new_Set_NoDup (l : list string) : NoDup (JS.new_Set l).
Proof. apply fold_Set_add_NoDup, NoDup_nil_2. Qed.

Lemma new_Set_tags (l : list string) : Spec.tags (JS.new_Set l) = Spec.tags l.
Proof.
  unfold Spec.tags. apply set_eq. intros y.
  by rewrite !elem_of_list_to_set, new_Set_spec.
Qed.

Lemma Set_size_tags (l : list string) :
  JS.Set_size (JS.new_Set l) = INR (size (Spec.tags l)).
Proof.
  unfold JS.Set_size. f_equal. rewrite <- new_Set_tags. unfold Spec.tags.
  symmetry. apply size_list_to_set, new_Set_NoDup.
Qed.

Lemma intersection_tags (k1 k2 : list string) :
  Spec.tags (List.filter (JS.Set_has (JS.new_Set k2)) (JS.new_Set k1))
  = Spec.tags k1 ∩ Spec.tags k2.
Proof.
  unfold Spec.tags. apply set_eq. intros y.
  rewrite elem_of_intersection, !elem_of_list_to_set.
  rewrite list_elem_of_In, filter_In, <- list_elem_of_In.
  by rewrite Set_has_spec, !new_Set_spec.
Qed.

Lemma union_tags (k1 k2 : list string) :
  Spec.tags (JS.new_Set k1 ++ JS.new_Set k2) = Spec.tags k1 ∪ Spec.tags k2.
Proof.
  unfold Spec.tags. rewrite list_to_set_app_L.
  by rewrite !(new_Set_tags _ : list_to_set (JS.new_Set _) = _).
Qed.

Lemma tags_empty_iff (l : list string) : Spec.tags l = ∅ ↔ l = [].
Proof.
  unfold Spec.tags. split; [|by intros ->].
  destruct l as [|x l]; [done|]. intros H. exfalso.
  assert (x ∈ (∅ : gset string)) as Hx by (rewrite <- H; set_solver).
  set_solver.
Qed.

Lemma length_eqb_0 {A} (l : list A) : Nat.eqb (length l) 0 = true ↔ l = [].
Proof. destruct l; simpl; split; congruence. Qed.

Lemma set_ratio_spec (k1 k2 : list string) :
  k1 ≠ [] → k2 ≠ [] →
  JS.Set_size (JS.new_Set (List.filter (JS.Set_has (JS.new_Set k2)) (JS.new_Set k1)))
  / JS.Set_size (JS.new_Set (JS.new_Set k1 ++ JS.new_Set k2))
  = Spec.jaccard (Spec.tags k1) (Spec.tags k2).
Proof.
  intros H1 H2. rewrite !Set_size_tags, intersection_tags, union_tags.
  unfold Spec.jaccard. case_decide as Hempty; [|done].
  destruct Hempty as [H%tags_empty_iff | H%tags_empty_iff]; congruence.
Qed.

Lemma jaccard_empty_l (B : gset string) : Spec.jaccard ∅ B = 0.
Proof. unfold Spec.jaccard. case_decide as H; [done|]. exfalso. apply H. by left. Qed.

Lemma jaccard_empty_r (A : gset string) : Spec.jaccard A ∅ = 0.
Proof. unfold Spec.jaccard. case_decide as H; [done|]. exfalso. apply H. by right. Qed.

(** [calculateIdentitySimilarity] is the Jaccard similarity of the two
    kernels read as sets, an absent kernel counting as empty. *)
Lemma calculateIdentitySimilarity_jaccard (kernel1 kernel2 : option (list string)) :
  calculateIdentitySimilarity kernel1 kernel2
  = Spec.jaccard (Spec.tags (default [] kernel1)) (Spec.tags (default [] kernel2)).
Proof.
  unfold calculateIdentitySimilarity.
  destruct kernel1 as [k1|], kernel2 as [k2|]; simpl;
    rewrite ?jaccard_empty_l, ?jaccard_empty_r; try done.
  destruct k1 as [|x1 k1]; [by rewrite jaccard_empty_l|].
  destruct k2 as [|x2 k2]; [by rewrite jaccard_empty_r|].
  simpl orb. cbv iota. by apply set_ratio_spec.
Qed.

Lemma jaccard_unit (A B : gset string) : Spec.unit_interval (Spec.jaccard A B).
Proof.
  unfold Spec.unit_interval, Spec.jaccard. case_decide as H; [lra|].
  assert (size (A ∩ B) ≤ size (A ∪ B))%nat as Hle
    by (apply subseteq_size; set_solver).
  assert (size (A ∪ B) ≠ 0%nat) as Hne.
  { intros Hz. apply size_empty_inv in Hz. apply H. left. set_solver. }
  assert (0 < INR (size (A ∪ B))) as Hpos by (apply lt_0_INR; lia).
  apply le_INR in Hle. pose proof (pos_INR (size (A ∩ B))) as Hnn.
  split.
  - apply Rmult_le_pos; [done|]. left. by apply Rinv_0_lt_compat.
  - apply (Rmult_le_reg_r (INR (size (A ∪ B)))); [done|].
    unfold Rdiv. rewrite Rmult_assoc, Rinv_l by lra. lra.
Qed.

Lemma complementarity_spec (A B : gset string) :
  (INR (size (A ∪ B)) - INR (size (A ∩ B))) / INR (size (A ∪ B))
  = Spec.complementarity A B.
Proof.
  unfold Spec.complementarity. f_equal.
  assert (A ∩ B ⊆ A ∪ B) as Hsub by set_solver.
  rewrite (size_difference _ _ Hsub), minus_INR; [done|].
  by apply subseteq_size.
Qed.

Lemma calculateCapabilityOverlap_nonempty (c1 c2 : list string) :
  c1 ≠ [] → c2 ≠ [] →
  calculateCapabilityOverlap (Some c1) (Some c2)
  = 0.4 * Spec.jaccard (Spec.tags c1) (Spec.tags c2)
    + 0.6 * Rmin 1 (2 * Spec.complementarity (Spec.tags c1) (Spec.tags c2)).
Proof.
  intros H1 H2. unfold calculateCapabilityOverlap.
  destruct c1 as [|x1 c1]; [done|]. destruct c2 as [|x2 c2]; [done|].
  simpl orb. cbv iota zeta.
  rewrite set_ratio_spec by done.
  rewrite !Set_size_tags, intersection_tags, union_tags, complementarity_spec.
  by rewrite (Rmult_comm _ 2).
Qed.

(** C7. For two non-empty capability arrays the score is
    0.4 * Jaccard-overlap + 0.6 * min(1, 2 * complementarity) of the two
    capability sets, complementarity being the fraction of the union that is
    not in the intersection; for {"a","b"} and {"a","c"} this is
    0.4 * (1/3) + 0.6 * 1; when either array is empty or missing the score
    is 0.3. *)
Theorem calculateCapabilityOverlap_spec :
  (∀ c1 c2 : list string, c1 ≠ [] → c2 ≠ [] →
     calculateCapabilityOverlap (Some c1) (Some c2)
     = 0.4 * Spec.jaccard (Spec.tags c1) (Spec.tags c2)
       + 0.6 * Rmin 1 (2 * Spec.complementarity (Spec.tags c1) (Spec.tags c2)))
  ∧ (Spec.jaccard (Spec.tags ["a"; "b"]) (Spec.tags ["a"; "c"]) = 1 / 3
     ∧ Spec.complementarity (Spec.tags ["a"; "b"]) (Spec.tags ["a"; "c"]) = 2 / 3
     ∧ calculateCapabilityOverlap (Some ["a"; "b"]) (Some ["a"; "c"])
       = 0.4 * (1 / 3) + 0.6 * 1)
  ∧ (∀ c1 c2 : option (list string),
       c1 = None ∨ c1 = Some [] ∨ c2 = None ∨ c2 = Some [] →
       calculateCapabilityOverlap c1 c2 = 0.3).
Proof.
  pose proof calculateCapabilityOverlap_nonempty as Hgeneral.
  assert (Spec.jaccard (Spec.tags ["a"; "b"]) (Spec.tags ["a"; "c"]) = 1 / 3) as HJ.
  { rewrite <- set_ratio_spec by done. unfold JS.Set_size. simpl. lra. }
  assert (Spec.complementarity (Spec.tags ["a"; "b"]) (Spec.tags ["a"; "c"]) = 2 / 3)
    as HC.
  { rewrite <- complementarity_spec, <- union_tags, <- intersection_tags.
    rewrite <- !Set_size_tags. unfold JS.Set_size. simpl. lra. }
  split_and!; try done.
  - rewrite Hgeneral, HJ, HC by done.
    unfold Rmin. destruct (Rle_dec _ _); lra.
  - intros c1 c2 H. unfold calculateCapabilityOverlap.
    destruct c1 as [[|x1 c1]|], c2 as [[|x2 c2]|]; try done.
    by destruct H as [H | [H | [H | H]]].
Qed.

Lemma calculateCapabilityOverlap_spec_witness :
  calculateCapabilityOverlap (Some ["x"]) (Some ["y"; "x"])
  = 0.4 * Spec.jaccard (Spec.tags ["x"]) (Spec.tags ["y"; "x"])
    + 0.6 * Rmin 1 (2 * Spec.complementarity (Spec.tags ["x"]) (Spec.tags ["y"; "x"]))
  ∧ calculateCapabilityOverlap None (Some ["x"]) = 0.3.
Proof.
  split.
  - apply (proj1 calculateCapabilityOverlap_spec ["x"] ["y"; "x"]); discriminate.
  - apply (proj2 (proj2 calculateCapabilityOverlap_spec) None (Some ["x"])).
    left. reflexivity.
Defined.

(** ** Historical continuity *)

Lemma constructor_fields (w : Weights) (this : ATCFCalculator) :
  constructor w = JS.Ok this → weights this = w ∧ temporalDecayConstant this = 30.
Proof.
  unfold constructor. destruct (validateWeights w); simpl; [|done].
  intros [= <-]. done.
Qed.

Lemma constructor_default :
  constructor default_weights
  = JS.Ok {| weights := default_weights; temporalDecayConstant := 30 |}.
Proof.
  unfold constructor, validateWeights. simpl fold_left.
  destruct (Rgt_dec _ _) as [Hgt|_]; [|done].
  exfalso. revert Hgt. unfold Rabs. destruct (Rcase_abs _); lra.
Qed.

Lemma historyStep_decay (this : ATCFCalculator) (now : R) (first p : HistoryPoint)
    (acc : R * R) :
  temporalDecayConstant this = 30 →
  historyStep this now first acc p
  = (fst acc + Spec.decay now p
                * Spec.jaccard (Spec.tags (default [] (snapshot_kernel first)))
                               (Spec.tags (default [] (snapshot_kernel p))),
     snd acc + Spec.decay now p).
Proof.
  intros Htdc. unfold historyStep, Spec.decay.
  rewrite Htdc, calculateIdentitySimilarity_jaccard.
  replace (1000 * 60 * 60 * 24) with 86400000 by lra. done.
Qed.

Lemma history_loop (this : ATCFCalculator) (now : R) (first : HistoryPoint)
    (history : list HistoryPoint) (acc : R * R) :
  temporalDecayConstant this = 30 →
  let ws := map (Spec.decay now) history in
  let xs := map (fun p => Spec.jaccard (Spec.tags (default [] (snapshot_kernel first)))
                                       (Spec.tags (default [] (snapshot_kernel p))))
                history in
  fold_left (historyStep this now first) history acc
  = (fst acc + Spec.sum (zip_with Rmult ws xs), snd acc + Spec.sum ws).
Proof.
  intros Htdc. revert acc. induction history as [|p history IH]; intros [a b]; simpl.
  - f_equal; lra.
  - rewrite historyStep_decay by done. simpl in IH. rewrite IH. simpl.
    f_equal; lra.
Qed.

Lemma decay_sum_pos (now : R) (history : list HistoryPoint) :
  history ≠ [] → 0 < Spec.sum (map (Spec.decay now) history).
Proof.
  destruct history as [|p history]; [done|]. intros _. simpl.
  assert (∀ l, 0 <= Spec.sum (map (Spec.decay now) l)) as Hnn.
  { induction l as [|q l IH]; simpl; [lra|].
    pose proof (exp_pos (- ((now - timestamp q) / 86400000) / 30)).
    unfold Spec.decay at 1. lra. }
  pose proof (exp_pos (- ((now - timestamp p) / 86400000) / 30)).
  specialize (Hnn history). unfold Spec.decay at 1. lra.
Qed.

(** The loop of [calculateHistoricalContinuity] computes the decay-weighted
    average of the similarities to the kernel of the first snapshot. *)
Lemma calculateHistoricalContinuity_first (this : ATCFCalculator)
    (first : HistoryPoint) (rest : list HistoryPoint) (now : R) :
  temporalDecayConstant this = 30 →
  calculateHistoricalContinuity this (Some (first :: rest)) now
  = Spec.continuityAgainst (snapshot_kernel first) (first :: rest) now.
Proof.
  intros Htdc. unfold calculateHistoricalContinuity.
  rewrite history_loop by done. cbv zeta.
  unfold Spec.continuityAgainst, Spec.weightedAverage.
  pose proof (decay_sum_pos now (first :: rest) ltac:(done)) as Hpos.
  simpl fst. simpl snd. rewrite !Rplus_0_l.
  destruct (Rgt_dec _ _) as [_|Hn]; [done|]. exfalso. apply Hn. lra.
Qed.

Lemma sample_jaccard (x y : string) :
  Spec.jaccard (Spec.tags [x]) (Spec.tags [y]) = if String.eqb x y then 1 else 0.
Proof.
  rewrite <- set_ratio_spec by done. unfold JS.Set_size, JS.new_Set.
  destruct (String.eqb_spec x y) as [->|Hne].
  - unfold JS.Set_add, JS.Set_has. cbn.
    do 3 (rewrite ?String.eqb_refl; cbn). lra.
  - assert (String.eqb x y = false) as Hxy by by apply String.eqb_neq.
    assert (String.eqb y x = false) as Hyx by (apply String.eqb_neq; congruence).
    unfold JS.Set_add, JS.Set_has. cbn.
    do 3 (rewrite ?Hxy, ?Hyx; cbn). lra.
Qed.

Lemma sample_decay :
  Spec.decay Sample.day {| timestamp := 0; snapshot_kernel := Some ["b"] |}
  = exp (- (1 / 30))
  ∧ Spec.decay Sample.day {| timestamp := Sample.day; snapshot_kernel := Some ["a"] |}
    = 1
  ∧ 0 < exp (- (1 / 30)) < 1.
Proof.
  unfold Spec.decay, Sample.day. cbn [timestamp]. split_and!.
  - apply (f_equal exp). lra.
  - rewrite <- exp_0. apply (f_equal exp). lra.
  - apply exp_pos.
  - pose proof (exp_increasing (- (1 / 30)) 0 ltac:(lra)) as H.
    by rewrite exp_0 in H.
Qed.

(** The formula of the specification, which takes the agent's current
    kernel as the reference, differs from the code on the sample agent: the
    code compares every snapshot with the kernel ["b"] of the first
    snapshot, not with the current kernel ["a"]. *)
Lemma historicalContinuity_counterexample :
  constructor default_weights = JS.Ok Sample.calculator
  ∧ calculateHistoricalContinuity Sample.calculator
      (identity_history Sample.agent) Sample.day
    = exp (- (1 / 30)) / (exp (- (1 / 30)) + 1)
  ∧ Spec.historicalContinuity Sample.agent Sample.day
    = 1 / (exp (- (1 / 30)) + 1)
  ∧ calculateHistoricalContinuity Sample.calculator
      (identity_history Sample.agent) Sample.day
    ≠ Spec.historicalContinuity Sample.agent Sample.day.
Proof.
  destruct sample_decay as (Hd0 & Hd1 & Hpos & Hlt).
  assert (calculateHistoricalContinuity Sample.calculator
            (identity_history Sample.agent) Sample.day
          = exp (- (1 / 30)) / (exp (- (1 / 30)) + 1)) as Hcode.
  { cbn [identity_history Sample.agent].
    rewrite calculateHistoricalContinuity_first by done.
    unfold Spec.continuityAgainst, Spec.weightedAverage, Spec.sum.
    cbn [map zip_with foldr snapshot_kernel from_option Datatypes.id].
    rewrite !sample_jaccard, Hd0, Hd1. cbn. field. lra. }
  assert (Spec.historicalContinuity Sample.agent Sample.day
          = 1 / (exp (- (1 / 30)) + 1)) as Hspec.
  { unfold Spec.historicalContinuity, Spec.continuityAgainst, Spec.weightedAverage,
      Spec.sum.
    cbn [identity_history identity_kernel Sample.agent map zip_with foldr
         snapshot_kernel from_option Datatypes.id].
    rewrite !sample_jaccard, Hd0, Hd1. cbn. field. lra. }
  split_and!; [apply constructor_default | done | done |].
  rewrite Hcode, Hspec. intros Heq.
  apply (Rmult_eq_compat_r (exp (- (1 / 30)) + 1)) in Heq.
  unfold Rdiv in Heq. rewrite !Rmult_assoc, Rinv_l in Heq by lra. lra.
Qed.

(** C2 (amended). For a constructed calculator and a non-empty identity
    history whose weights can be averaged (no snapshot dated more than 700
    decay constants after the current time, at least one no older than 700
    decay constants) the historical-continuity sub-score is the
    exp(-Δdays/30)-weighted average, over all snapshots, of the Jaccard
    similarity between the kernel of the first snapshot of the history and
    each snapshot's kernel; for an empty or absent history it is 0. *)
Theorem calculateHistoricalContinuity_spec (w : Weights) (this : ATCFCalculator) :
  constructor w = JS.Ok this →
  (∀ (first : HistoryPoint) (rest : list HistoryPoint) (now : R),
     Range.weighable this (first :: rest) now →
     calculateHistoricalContinuity this (Some (first :: rest)) now
     = Spec.weightedAverage
         (map (Spec.decay now) (first :: rest))
         (map (fun p => Spec.jaccard (Spec.tags (default [] (snapshot_kernel first)))
                                     (Spec.tags (default [] (snapshot_kernel p))))
              (first :: rest)))
  ∧ (∀ now : R,
       calculateHistoricalContinuity this None now = 0
       ∧ calculateHistoricalContinuity this (Some []) now = 0).
Proof.
  intros [_ Htdc]%constructor_fields. split; [|done].
  intros first rest now _. by rewrite calculateHistoricalContinuity_first.
Qed.

Lemma calculateHistoricalContinuity_spec_witness :
  constructor default_weights = JS.Ok Sample.calculator
  ∧ Range.weighable Sample.calculator
      [{| timestamp := 0; snapshot_kernel := Some ["b"] |};
       {| timestamp := Sample.day; snapshot_kernel := Some ["a"] |}] Sample.day
  ∧ calculateHistoricalContinuity Sample.calculator
      (Some [{| timestamp := 0; snapshot_kernel := Some ["b"] |};
             {| timestamp := Sample.day; snapshot_kernel := Some ["a"] |}]) Sample.day
    = exp (- (1 / 30)) / (exp (- (1 / 30)) + 1)
  ∧ calculateHistoricalContinuity Sample.calculator None Sample.day = 0.
Proof.
  assert (Range.weighable Sample.calculator
            [{| timestamp := 0; snapshot_kernel := Some ["b"] |};
             {| timestamp := Sample.day; snapshot_kernel := Some ["a"] |}] Sample.day)
    as Hweighable.
  { unfold Range.weighable, Range.age, Sample.day.
    cbn [timestamp temporalDecayConstant Sample.calculator]. split.
    - repeat (apply Forall_cons_2; [cbn [timestamp]; lra|]). apply Forall_nil_2.
    - apply Exists_cons_hd. cbn [timestamp]. lra. }
  pose proof (calculateHistoricalContinuity_spec
                default_weights Sample.calculator constructor_default) as [H1 H2].
  destruct sample_decay as (Hd0 & Hd1 & Hpos & Hlt).
  split; [exact constructor_default|]. split; [exact Hweighable|].
  split; [|exact (proj1 (H2 Sample.day))].
  rewrite (H1 _ _ Sample.day Hweighable).
  unfold Spec.weightedAverage, Spec.sum.
  cbn [map zip_with foldr snapshot_kernel from_option Datatypes.id].
  rewrite !sample_jaccard, Hd0, Hd1. cbn [String.eqb Ascii.eqb Bool.eqb].
  field. lra.
Defined.

(** ** Present integration *)

(** Run the binds whose first computation is already a value. *)
Ltac js_bind :=
  unfold mbind, mret, result_bind, result_ret, JS.bind; cbv beta iota.

Lemma fold_left_Rplus (l : list R) (a : R) : fold_left Rplus l a = a + Spec.sum l.
Proof.
  revert a. induction l as [|x l IH]; intros a; simpl; [lra|]. rewrite IH. lra.
Qed.

Lemma reduce_sum_nonempty (l : list R) : l ≠ [] → JS.reduce_sum l = JS.Ok (Spec.sum l).
Proof.
  destruct l as [|x l]; [done|]. intros _. simpl. by rewrite fold_left_Rplus.
Qed.

Lemma squares_loop (m : R) (l : list R) (a : R) :
  fold_left (fun sum val => sum + (val - m) ^ 2) l a
  = a + Spec.sum (map (fun x => (x - m) ^ 2) l).
Proof.
  revert a. induction l as [|x l IH]; intros a.
  - unfold Spec.sum. cbn [fold_left map foldr]. lra.
  - cbn [fold_left map]. rewrite IH. unfold Spec.sum. cbn [foldr]. lra.
Qed.

Lemma correlation_loop (m1 m2 : R) (xs ys : list R) (n s1 s2 : R) :
  length xs = length ys →
  fold_left (fun '(numerator, sumSq1, sumSq2) '(a1, a2) =>
               let diff1 := a1 - m1 in
               let diff2 := a2 - m2 in
               (numerator + diff1 * diff2, sumSq1 + diff1 * diff1, sumSq2 + diff2 * diff2))
            (combine xs ys) (n, s1, s2)
  = (n + Spec.sum (zip_with (fun x y => (x - m1) * (y - m2)) xs ys),
     s1 + Spec.sum (zip_with (fun x y => (x - m1) * (y - m1)) xs xs),
     s2 + Spec.sum (zip_with (fun x y => (x - m2) * (y - m2)) ys ys)).
Proof.
  revert ys n s1 s2. induction xs as [|x xs IH]; intros [|y ys] n s1 s2 Hlen;
    try done.
  - unfold Spec.sum. cbn. by rewrite !Rplus_0_r.
  - injection Hlen as Hlen. cbn [combine fold_left]. rewrite IH by done.
    unfold Spec.sum. cbn [zip_with foldr]. f_equal; [f_equal|]; lra.
Qed.

(** [calculateCorrelation] never throws and is the Pearson correlation. *)
Lemma calculateCorrelation_pearson (arr1 arr2 : list R) :
  calculateCorrelation arr1 arr2 = JS.Ok (Spec.pearson arr1 arr2).
Proof.
  unfold calculateCorrelation, Spec.pearson.
  destruct (decide (length arr1 = length arr2 ∧ length arr1 ≠ O)) as [[Hlen Hne]|Hn].
  - apply Nat.eqb_eq in Hlen as Hlenb. rewrite Hlenb. simpl negb.
    apply Nat.eqb_neq in Hne as Hneb. rewrite Hneb. simpl orb. cbv iota.
    rewrite !reduce_sum_nonempty by (intros ->; simpl in *; congruence).
    js_bind. rewrite correlation_loop by done. rewrite !Rplus_0_l. done.
  - destruct (Nat.eqb (length arr1) (length arr2)) eqn:E1; simpl; [|done].
    destruct (Nat.eqb (length arr1) 0) eqn:E2; simpl; [done|].
    exfalso. apply Hn. split; [by apply Nat.eqb_eq | by apply Nat.eqb_neq].
Qed.

Lemma checkComponentCompatibility_spec (u : UEV) :
  checkComponentCompatibility (UEV_values u) = JS.Ok (Spec.compatibilityScore u).
Proof.
  unfold checkComponentCompatibility, UEV_values, Spec.compatibilityScore.
  cbn [loop_pairs map app foldl]. rewrite !calculateCorrelation_pearson.
  js_bind. cbn [Nat.ltb Nat.leb INR]. f_equal. lra.
Qed.

Lemma checkTemporalContinuity_spec (u : UEV) :
  flat_map JS.Object_values (UEV_values u) ≠ [] →
  checkTemporalContinuity u = JS.Ok (Spec.temporalContinuity u).
Proof.
  intros Hne. unfold checkTemporalContinuity, Spec.temporalContinuity, Spec.variance.
  rewrite reduce_sum_nonempty by done. js_bind.
  rewrite squares_loop, Rplus_0_l. done.
Qed.

Lemma checkTemporalContinuity_empty (u : UEV) :
  flat_map JS.Object_values (UEV_values u) = [] →
  checkTemporalContinuity u = JS.Throw JS.TypeError.
Proof. intros He. unfold checkTemporalContinuity. by rewrite He. Qed.

Lemma calculateTCF_spec (u : UEV) :
  flat_map JS.Object_values (UEV_values u) ≠ [] →
  calculateTCF u
  = JS.Ok (0.7 * Spec.compatibilityScore u + 0.3 * Spec.temporalContinuity u).
Proof.
  intros Hne. unfold calculateTCF.
  change [global_feeling_tone u; emotional_motivation u;
          rational_deliberation u; action_readiness u] with (UEV_values u).
  rewrite checkComponentCompatibility_spec, checkTemporalContinuity_spec by done.
  by js_bind.
Qed.

Lemma calculatePresentIntegration_tcf (u : UEV) (broaData : BROA) (ic : R) :
  flat_map JS.Object_values (UEV_values u) ≠ [] →
  calculateInternalCoherence broaData = JS.Ok ic →
  calculatePresentIntegration u broaData
  = JS.Ok (0.6 * (0.7 * Spec.compatibilityScore u + 0.3 * Spec.temporalContinuity u)
           + 0.4 * ic).
Proof.
  intros Hne Hic. unfold calculatePresentIntegration.
  rewrite calculateTCF_spec, Hic by done. by js_bind.
Qed.

Lemma mean_singleton (x : R) : Spec.mean [x] = x.
Proof. unfold Spec.mean, Spec.sum. simpl. field. Qed.

Lemma pearson_singleton (x y : R) : Spec.pearson [x] [y] = 0.
Proof.
  unfold Spec.pearson. case_decide; [|done]. cbv zeta.
  destruct (Req_dec_T _ _) as [_|Hn]; [done|]. exfalso. apply Hn.
  unfold Spec.covariation. rewrite !mean_singleton. unfold Spec.sum. simpl.
  replace ((x - x) * (x - x) + 0) with 0 by lra.
  rewrite Rmult_0_l. apply sqrt_0.
Qed.

Lemma sample_compatibilityScore : Spec.compatibilityScore Sample.uev = 0.
Proof.
  unfold Spec.compatibilityScore. simpl JS.Object_values.
  rewrite !pearson_singleton, Rabs_R0. lra.
Qed.

Lemma sample_temporalContinuity : Spec.temporalContinuity Sample.uev = 1.
Proof.
  unfold Spec.temporalContinuity, Spec.variance, Spec.mean, Spec.sum. simpl.
  unfold Rmax. destruct (Rle_dec _ _) as [H|H]; [lra|]. exfalso. apply H. lra.
Qed.

Lemma sample_internalCoherence :
  calculateInternalCoherence Sample.broa = JS.Ok 0.5625.
Proof.
  unfold calculateInternalCoherence. simpl. f_equal. lra.
Qed.

(** The correlations and the spread of the varied sample bundle. *)
Lemma pearson_value (xs ys : list R) (c d : R) :
  length xs = length ys → length xs ≠ O → 0 < d →
  Spec.covariation xs xs * Spec.covariation ys ys = d * d →
  Spec.covariation xs ys = c →
  Spec.pearson xs ys = c / d.
Proof.
  intros Hlen Hne Hd Hsq Hc. unfold Spec.pearson.
  rewrite decide_True by done. cbv zeta.
  rewrite Hsq, sqrt_square, Hc by lra.
  destruct (Req_dec_T d 0) as [Hz|_]; [lra | done].
Qed.

Ltac covariation_value :=
  unfold Spec.covariation, Spec.mean, Spec.sum;
  cbn [zip_with foldr length INR]; lra.

Lemma pearson_uncorrelated (xs ys : list R) :
  Spec.covariation xs ys = 0 → Spec.pearson xs ys = 0.
Proof.
  intros Hc. unfold Spec.pearson. case_decide; [|done]. cbv zeta.
  destruct (Req_dec_T _ 0); [done|]. rewrite Hc. lra.
Qed.

Lemma fixture_compatibilityScore : Spec.compatibilityScore Fixture.uev = 0.5.
Proof.
  unfold Spec.compatibilityScore, Fixture.uev, JS.Object_values.
  cbn [global_feeling_tone emotional_motivation rational_deliberation
       action_readiness map snd].
  rewrite (pearson_value [0; 0.5; 1] [1; 0.5; 0] (-0.5) 0.5);
    [| done | done | lra | covariation_value | covariation_value].
  rewrite (pearson_uncorrelated [0; 0.5; 1] [0.25; 1; 0.25]) by covariation_value.
  rewrite (pearson_value [0; 0.5; 1] [0.5; 0.75; 1] 0.25 0.25);
    [| done | done | lra | covariation_value | covariation_value].
  rewrite (pearson_uncorrelated [1; 0.5; 0] [0.25; 1; 0.25]) by covariation_value.
  rewrite (pearson_value [1; 0.5; 0] [0.5; 0.75; 1] (-0.25) 0.25);
    [| done | done | lra | covariation_value | covariation_value].
  rewrite (pearson_uncorrelated [0.25; 1; 0.25] [0.5; 0.75; 1]) by covariation_value.
  replace (-0.5 / 0.5) with (-1) by lra. replace (0.25 / 0.25) with 1 by lra.
  replace (-0.25 / 0.25) with (-1) by lra.
  assert (Rabs (-1) = 1) as -> by (unfold Rabs; destruct (Rcase_abs _); lra).
  rewrite Rabs_R0, Rabs_R1. lra.
Qed.

Lemma fixture_temporalContinuity :
  Spec.temporalContinuity Fixture.uev = 0.86328125.
Proof.
  unfold Spec.temporalContinuity, Spec.variance, Spec.mean, Spec.sum, Fixture.uev,
    UEV_values, JS.Object_values.
  cbn [global_feeling_tone emotional_motivation rational_deliberation
       action_readiness flat_map map snd app foldr length INR pow].
  unfold Rmax. destruct (Rle_dec _ _) as [H|H]; lra.
Qed.

Lemma fixture_varied : Range.varied_components Fixture.uev.
Proof.
  unfold Range.varied_components, Fixture.uev, UEV_values, JS.Object_values.
  cbn [global_feeling_tone emotional_motivation rational_deliberation
       action_readiness map snd].
  repeat (apply Forall_cons_2; [right; cbn [map snd]|]); try apply Forall_nil_2.
  - exists 0, 1. rewrite !elem_of_cons. split_and!; [tauto | tauto | lra].
  - exists 1, 0. rewrite !elem_of_cons. split_and!; [tauto | tauto | lra].
  - exists 0.25, 1. rewrite !elem_of_cons. split_and!; [tauto | tauto | lra].
  - exists 0.5, 1. rewrite !elem_of_cons. split_and!; [tauto | tauto | lra].
Qed.

(** On the sample bundle, whose four components hold one value each, the
    compatibility score is 0 and the internal coherence 0.5625, yet the
    present-integration score is 0.405 and not 0.6 * 0 + 0.4 * 0.5625: the
    temporal-continuity term of [calculateTCF] contributes 0.6 * 0.3 * 1.
    On the varied bundle the compatibility score is 0.5, and the score is
    0.590390625 and not 0.6 * 0.5 + 0.4 * 0.5625 = 0.525. *)
Lemma presentIntegration_counterexample :
  checkComponentCompatibility (UEV_values Sample.uev) = JS.Ok 0
  ∧ Spec.compatibilityScore Sample.uev = 0
  ∧ calculateInternalCoherence Sample.broa = JS.Ok 0.5625
  ∧ calculatePresentIntegration Sample.uev Sample.broa = JS.Ok 0.405
  ∧ 0.405 ≠ 0.6 * 0 + 0.4 * 0.5625
  ∧ Spec.compatibilityScore Fixture.uev = 0.5
  ∧ calculatePresentIntegration Fixture.uev Sample.broa = JS.Ok 0.590390625
  ∧ 0.590390625 ≠ 0.6 * 0.5 + 0.4 * 0.5625.
Proof.
  split_and!.
  - by rewrite checkComponentCompatibility_spec, sample_compatibilityScore.
  - apply sample_compatibilityScore.
  - apply sample_internalCoherence.
  - rewrite (calculatePresentIntegration_tcf _ _ 0.5625);
      [| done | apply sample_internalCoherence].
    rewrite sample_compatibilityScore, sample_temporalContinuity. f_equal. lra.
  - lra.
  - apply fixture_compatibilityScore.
  - rewrite (calculatePresentIntegration_tcf _ _ 0.5625);
      [| done | apply sample_internalCoherence].
    rewrite fixture_compatibilityScore, fixture_temporalContinuity. f_equal. lra.
  - lra.
Qed.

(** C3 (amended). Whenever the present-state bundle holds at least one
    value, none of its four components is a constant vector of several
    values, and the internal-coherence computation returns [ic], the
    present-integration sub-score is 0.6 * tcfScore + 0.4 * ic with
    tcfScore = 0.7 * compatibilityScore + 0.3 * temporalContinuity, where
    compatibilityScore is the mean absolute pairwise Pearson correlation of
    the four components' value vectors and temporalContinuity is
    max(0, 1 - variance of all the values). *)
Theorem calculatePresentIntegration_spec (uevData : UEV) (broaData : BROA) (ic : R) :
  flat_map JS.Object_values (UEV_values uevData) ≠ [] →
  Range.varied_components uevData →
  calculateInternalCoherence broaData = JS.Ok ic →
  calculatePresentIntegration uevData broaData
  = JS.Ok (0.6 * (0.7 * Spec.compatibilityScore uevData
                  + 0.3 * Spec.temporalContinuity uevData)
           + 0.4 * ic).
Proof. intros Hvalues _. by apply calculatePresentIntegration_tcf. Qed.

Lemma calculatePresentIntegration_spec_witness :
  Range.varied_components Fixture.uev
  ∧ calculatePresentIntegration Fixture.uev Sample.broa
    = JS.Ok (0.6 * (0.7 * 0.5 + 0.3 * 0.86328125) + 0.4 * 0.5625).
Proof.
  split; [exact fixture_varied|].
  rewrite (calculatePresentIntegration_spec Fixture.uev Sample.broa 0.5625).
  - by rewrite fixture_compatibilityScore, fixture_temporalContinuity.
  - discriminate.
  - exact fixture_varied.
  - exact sample_internalCoherence.
Defined.

(** ** Missing and empty collections *)

Lemma calculateBeliefConsistency_nonempty (b : JS.obj R) :
  b ≠ [] →
  ∃ v, calculateBeliefConsistency (Some b) = JS.Ok v ∧ Spec.unit_interval v.
Proof.
  intros Hne. unfold calculateBeliefConsistency.
  rewrite reduce_sum_nonempty by (by destruct b).
  js_bind. eexists. split; [done|].
  unfold Spec.unit_interval, Rmax, Rmin.
  repeat destruct (Rle_dec _ _); lra.
Qed.

(** C4 (the code departs from the claim). An empty beliefs object makes
    [calculateBeliefConsistency] throw a TypeError, and with it the whole of
    [calculateATCF], whereas the absent beliefs object and the other empty
    or absent collections yield their default values. *)
Theorem empty_beliefs_throw :
  calculateBeliefConsistency (Some []) = JS.Throw JS.TypeError
  ∧ calculateATCF Sample.calculator
      {| cultural_background := None;
         identity_history := None;
         identity_kernel := None;
         uev_data := Sample.uev;
         broa_data := {| beliefs := Some []; rules := None; ontology := None;
                         authenticity := Some Sample.bare_authenticity |};
         future_projections := Sample.no_projections;
         self_modification_data := Sample.no_modifications;
         capabilities := None |} 0
    = JS.Throw JS.TypeError
  ∧ calculateBeliefConsistency None = JS.Ok 0.5
  ∧ calculateHistoricalContinuity Sample.calculator (Some []) 0 = 0
  ∧ calculateHistoricalContinuity Sample.calculator None 0 = 0
  ∧ calculateRuleCoherence None = 0.5
  ∧ calculateGoalDiversity (Some []) = 0
  ∧ calculateGoalDiversity None = 0
  ∧ calculateCapabilityOverlap (Some []) (Some []) = 0.3.
Proof.
  split_and!; done.
Qed.

(** ** Weights: validation and cultural adaptation *)

Lemma validateWeights_sum (w : Weights) :
  fold_left Rplus (Weights_values w) 0 = Spec.sum4 w.
Proof. unfold Spec.sum4. simpl. lra. Qed.

(** The constructor accepts weights whose sum is 1.0005, which is not
    within 1e-9 of 1. *)
Lemma loose_weights_accepted :
  constructor Sample.loose_weights
  = JS.Ok {| weights := Sample.loose_weights; temporalDecayConstant := 30 |}
  ∧ ¬ (Rabs (Spec.sum4 Sample.loose_weights - 1) <= 0.000000001).
Proof.
  assert (Spec.sum4 Sample.loose_weights - 1 = 0.0005) as Hsum
    by (unfold Spec.sum4; simpl; lra).
  split.
  - unfold constructor, validateWeights. rewrite validateWeights_sum.
    replace (Spec.sum4 Sample.loose_weights - 1.0) with 0.0005 by (rewrite <- Hsum; lra).
    rewrite Rabs_pos_eq by lra.
    destruct (Rgt_dec _ _) as [Hgt|_]; [lra | done].
  - rewrite Hsum, Rabs_pos_eq by lra. lra.
Qed.

(** C6 (amended). Construction throws the validation error whenever the
    four coefficients do not sum to 1 within 0.001, and every weight set the
    constructor accepts is stored unchanged and sums to 1 within 0.001. *)
Theorem constructor_validation (w : Weights) :
  (Rabs (Spec.sum4 w - 1) > 0.001 →
   constructor w = JS.Throw (JS.Error "ATCF weights must sum to 1.0"))
  ∧ (∀ this : ATCFCalculator,
       constructor w = JS.Ok this →
       weights this = w ∧ Rabs (Spec.sum4 w - 1) <= 0.001).
Proof.
  unfold constructor, validateWeights. rewrite validateWeights_sum.
  replace (Spec.sum4 w - 1.0) with (Spec.sum4 w - 1) by lra.
  destruct (Rgt_dec _ _) as [Hgt|Hle]; js_bind; split; try done.
  intros this [= <-]. split; [done | by apply Rnot_gt_le].
Qed.

Lemma constructor_validation_witness :
  constructor {| alpha := 0.5; beta := 0.5; gamma := 0.5; delta := 0.5 |}
  = JS.Throw (JS.Error "ATCF weights must sum to 1.0")
  ∧ weights Sample.calculator = default_weights
  ∧ Rabs (Spec.sum4 default_weights - 1) <= 0.001.
Proof.
  split.
  - apply (proj1 (constructor_validation
                    {| alpha := 0.5; beta := 0.5; gamma := 0.5; delta := 0.5 |})).
    unfold Spec.sum4. simpl. rewrite Rabs_pos_eq; lra.
  - apply (proj2 (constructor_validation default_weights) Sample.calculator).
    exact constructor_default.
Defined.

(** The adapted weights for a listed culture. *)
Lemma adaptForCulture_known (culturalFrameworks : gmap string Weights)
    (culturalContext : option string) (w m : Weights) :
  culturalFrameworks !! JS.property_key culturalContext = Some m →
  let total := alpha w * alpha m + beta w * beta m + gamma w * gamma m
               + delta w * delta m in
  adaptForCulture culturalFrameworks culturalContext w
  = {| alpha := alpha w * alpha m / total; beta := beta w * beta m / total;
       gamma := gamma w * gamma m / total; delta := delta w * delta m / total |}.
Proof.
  intros Hm. unfold adaptForCulture. rewrite Hm.
  cbn [Weights_values fold_left alpha beta gamma delta]. by rewrite Rplus_0_l.
Qed.

(** A plain key is looked up among the own properties only. *)
Lemma plain_key_own (culturalContext : option string) :
  Range.plain_key culturalContext →
  existsb (String.eqb (JS.property_key culturalContext)) Range.inherited_names = false.
Proof.
  intros Hplain. destruct (existsb _ _) eqn:E; [|done].
  apply existsb_exists in E as (name & Hin & Heq).
  apply String.eqb_eq in Heq. subst name.
  exfalso. apply Hplain. by apply list_elem_of_In.
Qed.

(** On plain keys and on listed tags the own-property reading of
    [adaptForCulture] is the source's. *)
Lemma adaptForCulture_own_lookup (culturalFrameworks : gmap string Weights)
    (culturalContext : option string) (baseWeights : Weights) :
  Range.plain_key culturalContext
  ∨ is_Some (culturalFrameworks !! JS.property_key culturalContext) →
  Prototype.adaptForCulture culturalFrameworks culturalContext baseWeights
  = JS.Ok (adaptForCulture culturalFrameworks culturalContext baseWeights).
Proof.
  unfold Prototype.adaptForCulture, Prototype.index, adaptForCulture.
  destruct (culturalFrameworks !! JS.property_key culturalContext) as [m|] eqn:E;
    [done|].
  intros [Hplain | [m Hm]]; [|done]. by rewrite plain_key_own.
Qed.

(** The tag "constructor" is not in the modifier table, yet the weights do
    not come back unchanged: the guard finds the member that every object
    inherits, and reading [modifiers.alpha] throws a TypeError. *)
Lemma adaptForCulture_counterexample :
  Sample.frameworks !! "constructor" = None
  ∧ Prototype.adaptForCulture Sample.frameworks (Some "constructor") default_weights
    = JS.Throw JS.TypeError
  ∧ Prototype.adaptForCulture Sample.frameworks (Some "constructor") default_weights
    ≠ JS.Ok default_weights.
Proof.
  assert (Prototype.adaptForCulture Sample.frameworks (Some "constructor") default_weights
          = JS.Throw JS.TypeError) as Hthrow by reflexivity.
  split; [reflexivity|]. split; [exact Hthrow|]. rewrite Hthrow. discriminate.
Qed.

(** C5 (amended). For a culture tag that is a plain key (none of the names
    inherited from [Object.prototype]) and that the modifier table does not
    list, the weights come back unchanged; for a listed tag with positive
    weights and positive modifiers the result is the elementwise product
    divided by its sum, and its four coefficients sum to exactly 1. *)
Theorem adaptForCulture_spec (culturalFrameworks : gmap string Weights)
    (culturalContext : option string) (baseWeights : Weights) :
  (culturalFrameworks !! JS.property_key culturalContext = None →
   Range.plain_key culturalContext →
   Prototype.adaptForCulture culturalFrameworks culturalContext baseWeights
   = JS.Ok baseWeights)
  ∧ (∀ modifiers : Weights,
       culturalFrameworks !! JS.property_key culturalContext = Some modifiers →
       Spec.positive baseWeights → Spec.positive modifiers →
       let total :=
         alpha baseWeights * alpha modifiers + beta baseWeights * beta modifiers
         + gamma baseWeights * gamma modifiers + delta baseWeights * delta modifiers in
       let adapted :=
         {| alpha := alpha baseWeights * alpha modifiers / total;
            beta := beta baseWeights * beta modifiers / total;
            gamma := gamma baseWeights * gamma modifiers / total;
            delta := delta baseWeights * delta modifiers / total |} in
       Prototype.adaptForCulture culturalFrameworks culturalContext baseWeights
       = JS.Ok adapted
       ∧ Spec.sum4 adapted = 1).
Proof.
  unfold Prototype.adaptForCulture, Prototype.index. split.
  - intros -> Hplain. by rewrite plain_key_own.
  - intros modifiers -> (Ha & Hb & Hc & Hd) (Ha' & Hb' & Hc' & Hd').
    cbn [Weights_values fold_left alpha beta gamma delta]. rewrite Rplus_0_l.
    split; [done|]. unfold Spec.sum4. cbn [alpha beta gamma delta].
    assert (0 < alpha baseWeights * alpha modifiers) by by apply Rmult_lt_0_compat.
    assert (0 < beta baseWeights * beta modifiers) by by apply Rmult_lt_0_compat.
    assert (0 < gamma baseWeights * gamma modifiers) by by apply Rmult_lt_0_compat.
    assert (0 < delta baseWeights * delta modifiers) by by apply Rmult_lt_0_compat.
    field. lra.
Qed.

Lemma adaptForCulture_spec_witness :
  Prototype.adaptForCulture Sample.frameworks (Some "nomadic") Fixture.skewed_weights
  = JS.Ok Fixture.skewed_weights
  ∧ Prototype.adaptForCulture Sample.frameworks (Some "collectivistic")
      Fixture.skewed_weights
    = JS.Ok {| alpha := 0.4 * 1.2 / 1.02; beta := 0.3 * 0.9 / 1.02;
               gamma := 0.2 * 0.8 / 1.02; delta := 0.1 * 1.1 / 1.02 |}
  ∧ 0.4 * 1.2 / 1.02 + 0.3 * 0.9 / 1.02 + 0.2 * 0.8 / 1.02 + 0.1 * 1.1 / 1.02 = 1.
Proof.
  split.
  - apply (proj1 (adaptForCulture_spec Sample.frameworks (Some "nomadic")
                    Fixture.skewed_weights)); [reflexivity | plain_name].
  - destruct (proj2 (adaptForCulture_spec Sample.frameworks (Some "collectivistic")
                       Fixture.skewed_weights)
                {| alpha := 1.2; beta := 0.9; gamma := 0.8; delta := 1.1 |})
      as [Hadapted Hsum].
    + reflexivity.
    + unfold Spec.positive, Fixture.skewed_weights. cbn [alpha beta gamma delta]. lra.
    + unfold Spec.positive. cbn [alpha beta gamma delta]. lra.
    + cbn [alpha beta gamma delta Fixture.skewed_weights] in Hadapted, Hsum.
      unfold Spec.sum4 in Hsum. cbn [alpha beta gamma delta] in Hsum.
      replace (0.4 * 1.2 + 0.3 * 0.9 + 0.2 * 0.8 + 0.1 * 1.1) with 1.02
        in Hadapted, Hsum by lra.
      split; [exact Hadapted | exact Hsum].
Defined.

(** ** When the calculator returns *)

Lemma calculateInternalCoherence_returns (broaData : BROA) :
  beliefs broaData ≠ Some [] → authenticity broaData ≠ None →
  ∃ ic, calculateInternalCoherence broaData = JS.Ok ic.
Proof.
  intros Hb Ha. unfold calculateInternalCoherence.
  destruct (authenticity broaData) as [auth|]; [|done].
  destruct (beliefs broaData) as [b|].
  - destruct (calculateBeliefConsistency_nonempty b) as (v & -> & _);
      [by intros -> |].
    js_bind. by eexists.
  - cbn [calculateBeliefConsistency]. js_bind. by eexists.
Qed.

Lemma calculateATCF_returns (this : ATCFCalculator) (agentData : AgentData) (now : R) :
  flat_map JS.Object_values (UEV_values (uev_data agentData)) ≠ [] →
  beliefs (broa_data agentData) ≠ Some [] →
  authenticity (broa_data agentData) ≠ None →
  ∃ result, calculateATCF this agentData now = JS.Ok result.
Proof.
  intros Hu Hb Ha.
  destruct (calculateInternalCoherence_returns _ Hb Ha) as [ic Hic].
  unfold calculateATCF.
  rewrite (calculatePresentIntegration_tcf _ _ ic) by done.
  js_bind. by eexists.
Qed.

Lemma set_weights_restore (this : ATCFCalculator) (w : Weights) :
  set_weights (set_weights this w) (weights this) = this.
Proof. by destruct this. Qed.

Lemma calculateCulturallyAdaptedATCF_returns (culturalFrameworks : gmap string Weights)
    (this : ATCFCalculator) (agentData : AgentData) (now : R) :
  flat_map JS.Object_values (UEV_values (uev_data agentData)) ≠ [] →
  beliefs (broa_data agentData) ≠ Some [] →
  authenticity (broa_data agentData) ≠ None →
  ∃ result,
    calculateCulturallyAdaptedATCF culturalFrameworks this agentData now
    = (JS.Ok result, this).
Proof.
  intros Hu Hb Ha. unfold calculateCulturallyAdaptedATCF.
  destruct (calculateATCF_returns
              (set_weights this (adaptForCulture culturalFrameworks
                                   (cultural_background agentData) (weights this)))
              agentData now Hu Hb Ha) as [r ->].
  rewrite set_weights_restore. by eexists.
Qed.

(** When [calculateATCF] throws, the adapted weights stay in the receiver. *)
Lemma calculateCulturallyAdaptedATCF_throws (culturalFrameworks : gmap string Weights)
    (this this' : ATCFCalculator) (agentData : AgentData) (now : R) (e : JS.exn) :
  calculateCulturallyAdaptedATCF culturalFrameworks this agentData now
  = (JS.Throw e, this') →
  weights this'
  = adaptForCulture culturalFrameworks (cultural_background agentData) (weights this).
Proof.
  unfold calculateCulturallyAdaptedATCF.
  destruct (calculateATCF _ _ _); [done|]. by intros [= _ <-].
Qed.

(** C9. When the culturally adapted scoring call returns, the calculator is
    as it was before the call, in particular its stored weight set, and a
    second call with the same agent data and timestamp returns the same
    result. *)
Theorem calculateCulturallyAdaptedATCF_frame (culturalFrameworks : gmap string Weights)
    (this this' : ATCFCalculator) (agentData : AgentData) (now : R)
    (result : ATCFResult) :
  calculateCulturallyAdaptedATCF culturalFrameworks this agentData now
  = (JS.Ok result, this') →
  weights this' = weights this
  ∧ this' = this
  ∧ calculateCulturallyAdaptedATCF culturalFrameworks this' agentData now
    = (JS.Ok result, this').
Proof.
  intros Hcall.
  assert (this' = this) as ->.
  { revert Hcall. unfold calculateCulturallyAdaptedATCF.
    destruct (calculateATCF _ _ _); [|done].
    intros [= _ <-]. apply set_weights_restore. }
  done.
Qed.

Lemma calculateCulturallyAdaptedATCF_frame_witness :
  ∃ result : ATCFResult,
    calculateCulturallyAdaptedATCF Sample.frameworks Sample.calculator
      (Fixture.member "collectivistic") 0
    = (JS.Ok result, Sample.calculator)
    ∧ alpha (result_weights result) = 0.3
    ∧ alpha (weights Sample.calculator) = 0.25
    ∧ calculateCulturallyAdaptedATCF Sample.frameworks Sample.calculator
        (Fixture.member "collectivistic") 0
      = (JS.Ok result, Sample.calculator).
Proof.
  destruct (calculateCulturallyAdaptedATCF_returns
              Sample.frameworks Sample.calculator (Fixture.member "collectivistic") 0)
    as [result Hcall]; [discriminate | discriminate | discriminate |].
  exists result.
  destruct (calculateCulturallyAdaptedATCF_frame
              Sample.frameworks Sample.calculator Sample.calculator
              (Fixture.member "collectivistic") 0 result Hcall)
    as (_ & _ & Hagain).
  split; [exact Hcall|]. split; [|split; [|exact Hagain]].
  - revert Hcall. unfold calculateCulturallyAdaptedATCF.
    destruct (calculateATCF _ _ _) as [r0|] eqn:E; [|discriminate].
    intros [= <-]. cbn [result_weights].
    revert E. unfold calculateATCF.
    destruct (calculatePresentIntegration _ _) as [pi|]; [|discriminate].
    intros [= <-]. cbn [result_weights weights set_weights cultural_background
                        Fixture.member].
    rewrite (adaptForCulture_known Sample.frameworks (Some "collectivistic")
               default_weights
               {| alpha := 1.2; beta := 0.9; gamma := 0.8; delta := 1.1 |} eq_refl).
    cbv [alpha beta gamma delta default_weights]. lra.
  - cbv [alpha default_weights weights Sample.calculator]. lra.
Defined.

(** ** A stated value of 0 *)

Lemma or_default_zero (d : R) : JS.or_default (Some 0) d = d.
Proof. unfold JS.or_default. by destruct (Req_dec_T 0 0). Qed.

Lemma or_default_absent (d : R) : JS.or_default None d = d.
Proof. done. Qed.

(** C10. A stated 0 is treated like an absent field: the
    coherence-maintenance score is 0.5; the explicit alignment is the
    computed goal/kernel overlap score, so the projection alignment is the
    average of that score with itself; and the internal coherence is
    computed with 0.75 as the authenticity alignment. *)
Theorem zero_is_absent :
  (∀ modData : SelfModification,
     coherence_maintenance_capacity modData = Some 0 →
     assessCoherenceMaintenance modData = 0.5)
  ∧ (∀ (projections : FutureProjections) (goalList identityKernel : list string),
       goals projections = Some goalList →
       alignment_with_identity projections = Some 0 →
       let alignmentScore :=
         INR (length (List.filter (goalMatchesKernel identityKernel) goalList))
         / Rmax (INR (length goalList)) 1 in
       calculateProjectionAlignment projections (Some identityKernel)
       = (alignmentScore + alignmentScore) / 2
       ∧ calculateProjectionAlignment projections (Some identityKernel)
         = calculateProjectionAlignment
             {| goals := goals projections;
                timeline := timeline projections;
                alignment_with_identity := None |}
             (Some identityKernel))
  ∧ (∀ (broaData : BROA) (auth : Authenticity),
       authenticity broaData = Some auth →
       value_alignment auth = Some 0 →
       calculateInternalCoherence broaData
       = (beliefConsistency ← calculateBeliefConsistency (beliefs broaData);
          mret ((beliefConsistency + calculateRuleCoherence (rules broaData)
                 + calculateOntologyAlignment (ontology broaData) + 0.75) / 4))).
Proof.
  split_and!.
  - intros modData H. unfold assessCoherenceMaintenance.
    by rewrite H, or_default_zero.
  - intros projections goalList identityKernel Hg Ha. cbv zeta.
    unfold calculateProjectionAlignment. cbn [goals alignment_with_identity].
    by rewrite Hg, Ha, or_default_zero, or_default_absent.
  - intros broaData auth Hauth Hva. unfold calculateInternalCoherence.
    by rewrite Hauth, Hva, or_default_zero.
Qed.

Lemma zero_is_absent_witness :
  assessCoherenceMaintenance
    {| modification_history := None; coherence_maintenance_capacity := Some 0 |} = 0.5
  ∧ calculateProjectionAlignment
      {| goals := Some ["learn_piano"]; timeline := None;
         alignment_with_identity := Some 0 |}
      (Some ["learn"])
    = (INR 1 / Rmax (INR 1) 1 + INR 1 / Rmax (INR 1) 1) / 2
  ∧ calculateInternalCoherence
      {| beliefs := None; rules := None; ontology := None;
         authenticity :=
           Some {| auth_identity_kernel := None; value_alignment := Some 0;
                   self_consistency := None |} |}
    = JS.Ok ((0.5 + 0.5 + 0.5 + 0.75) / 4).
Proof.
  destruct zero_is_absent as (H1 & H2 & H3).
  split_and!.
  - apply H1. reflexivity.
  - apply (H2 {| goals := Some ["learn_piano"]; timeline := None;
                 alignment_with_identity := Some 0 |} ["learn_piano"] ["learn"]);
      reflexivity.
  - apply (H3 {| beliefs := None; rules := None; ontology := None;
                 authenticity :=
                   Some {| auth_identity_kernel := None; value_alignment := Some 0;
                           self_consistency := None |} |}
              {| auth_identity_kernel := None; value_alignment := Some 0;
                 self_consistency := None |}); reflexivity.
Defined.

(** ** Intervention strategies *)










Lemma pushedStrategies_critical (cp prf : JS.num) (cap cult : R) :
  JS.lt cp (JS.Num 0.5) = true →
  Spec.with_priority "critical" (pushedStrategies cp prf cap cult)
  = [comprehensive_coordination]
  ∧ Forall (fun s => (Spec.rank s <= 4)%Z) (pushedStrategies cp prf cap cult).
Proof.
  intros Hcp. unfold pushedStrategies. rewrite Hcp.
  destruct (JS.lt prf _), (Rlt_dec cap _), (Rlt_dec cult _);
    (split; [reflexivity | repeat constructor; by vm_compute]).
Qed.



Lemma assessCrossAgentCoordination_result (culturalFrameworks : gmap string Weights)
    (this this' : CoordinationAssessment) (agent1Data agent2Data : AgentData)
    (now1 now2 : R) (r : CoordinationResult) :
  assessCrossAgentCoordination culturalFrameworks this agent1Data agent2Data now1 now2
  = (JS.Ok r, this') →
  ∃ (atcf1 atcf2 : ATCFResult) (calc1 calc2 : ATCFCalculator),
    calculateCulturallyAdaptedATCF culturalFrameworks (atcfCalculator this)
      agent1Data now1 = (JS.Ok atcf1, calc1)
    ∧ calculateCulturallyAdaptedATCF culturalFrameworks calc1 agent2Data now2
      = (JS.Ok atcf2, calc2)
    ∧ let prf := calculatePRFCompatibility (broa_data agent1Data) (broa_data agent2Data) in
      let cap := calculateCapabilityOverlap
                   (Some (default [] (capabilities agent1Data)))
                   (Some (default [] (capabilities agent2Data))) in
      let cult := calculateCulturalCoordination (cultural_background agent1Data)
                                                (cultural_background agent2Data) in
      let cp :=
        JS.add
          (JS.add
             (JS.add (JS.Num (0.3 * Rmin (total_score atcf1) (total_score atcf2)))
                     (JS.mul (JS.Num 0.25) prf))
             (JS.Num (0.25 * cap)))
          (JS.Num (0.2 * cult)) in
      coordination_potential r = JS.max (JS.Num 0) (JS.min (JS.Num 1) cp)
      ∧ individual_atcf r = (atcf1, atcf2)
      ∧ prf_compatibility r = prf
      ∧ capability_overlap r = cap
      ∧ cultural_coordination r = cult
      ∧ intervention_strategies r = identifyInterventionStrategies cp prf cap cult.
Proof.
  unfold assessCrossAgentCoordination.
  destruct (calculateCulturallyAdaptedATCF culturalFrameworks (atcfCalculator this)
              agent1Data now1) as [[atcf1|e1] calc1] eqn:E1; [|done].
  destruct (calculateCulturallyAdaptedATCF culturalFrameworks calc1
              agent2Data now2) as [[atcf2|e2] calc2] eqn:E2; [|done].
  intros [= <- _]. exists atcf1, atcf2, calc1, calc2. cbv zeta.
  split_and!; done.
Qed.


(** ** Ranges of the returned scores *)

Lemma clamp_unit (x : R) : Spec.unit_interval (clamp x).
Proof.
  unfold Spec.unit_interval, clamp, Rmax, Rmin. repeat destruct (Rle_dec _ _); lra.
Qed.

Lemma calculateATCF_result (this : ATCFCalculator) (agentData : AgentData) (now : R)
    (r : ATCFResult) :
  calculateATCF this agentData now = JS.Ok r →
  ∃ pi,
    calculatePresentIntegration (uev_data agentData) (broa_data agentData) = JS.Ok pi
    ∧ let hc := calculateHistoricalContinuity this (identity_history agentData) now in
      let pc := calculateProspectiveCoherence (future_projections agentData)
                                              (identity_kernel agentData) in
      let mcc := calculateMetaConstructorCapacity (self_modification_data agentData) in
      total_score r
      = clamp (alpha (weights this) * hc + beta (weights this) * pi
               + gamma (weights this) * pc + delta (weights this) * mcc)
      ∧ components r
        = {| HC := clamp hc; PI := clamp pi; PC := clamp pc; MCC := clamp mcc |}.
Proof.
  unfold calculateATCF.
  destruct (calculatePresentIntegration _ _) as [pi|e]; js_bind; [|done].
  intros [= <-]. exists pi. by split_and!.
Qed.

Lemma calculateATCF_unit (this : ATCFCalculator) (agentData : AgentData) (now : R)
    (r : ATCFResult) :
  calculateATCF this agentData now = JS.Ok r →
  Spec.unit_interval (total_score r)
  ∧ Spec.unit_interval (HC (components r))
  ∧ Spec.unit_interval (PI (components r))
  ∧ Spec.unit_interval (PC (components r))
  ∧ Spec.unit_interval (MCC (components r)).
Proof.
  intros (pi & _ & Ht & Hc)%calculateATCF_result. cbv zeta in *.
  rewrite Ht, Hc. cbn [HC PI PC MCC]. split_and!; apply clamp_unit.
Qed.

Lemma calculateCulturallyAdaptedATCF_unit (culturalFrameworks : gmap string Weights)
    (this this' : ATCFCalculator) (agentData : AgentData) (now : R) (r : ATCFResult) :
  calculateCulturallyAdaptedATCF culturalFrameworks this agentData now
  = (JS.Ok r, this') →
  Spec.unit_interval (total_score r).
Proof.
  unfold calculateCulturallyAdaptedATCF.
  destruct (calculateATCF _ _ _) as [r0|] eqn:E; [|done].
  intros [= <- _]. cbn [total_score]. by apply calculateATCF_unit in E as [? _].
Qed.

Lemma complementarity_jaccard (A B : gset string) :
  A ≠ ∅ → B ≠ ∅ → Spec.complementarity A B = 1 - Spec.jaccard A B.
Proof.
  intros HA HB. rewrite <- complementarity_spec. unfold Spec.jaccard.
  case_decide as H; [by destruct H|].
  assert (size (A ∪ B) ≠ 0%nat) as Hne.
  { intros Hz%size_empty_inv. apply HA. set_solver. }
  assert (0 < INR (size (A ∪ B))) by (apply lt_0_INR; lia).
  field. lra.
Qed.

Lemma calculateCapabilityOverlap_unit (c1 c2 : option (list string)) :
  Spec.unit_interval (calculateCapabilityOverlap c1 c2).
Proof.
  destruct c1 as [[|x1 c1]|], c2 as [[|x2 c2]|];
    try (unfold Spec.unit_interval; cbn; lra).
  rewrite calculateCapabilityOverlap_nonempty by done.
  rewrite complementarity_jaccard by (by rewrite tags_empty_iff).
  pose proof (jaccard_unit (Spec.tags (x1 :: c1)) (Spec.tags (x2 :: c2))) as [H0 H1].
  unfold Spec.unit_interval, Rmin. destruct (Rle_dec _ _); lra.
Qed.

Lemma get_Forall {V} (P : V → Prop) (o : JS.obj V) (k : string) (v : V) :
  Forall (fun kv => P kv.2) o → JS.get o k = Some v → P v.
Proof.
  induction 1 as [|[k' v'] o Hv Ho IH]; cbn [JS.get]; [done|].
  destruct (String.eqb k k'); [by intros [= <-] | done].
Qed.

Lemma get_of_key {V} (o : JS.obj V) (k : string) :
  k ∈ JS.Object_keys o → is_Some (JS.get o k).
Proof.
  unfold JS.Object_keys. induction o as [|[k' v'] o IH]; cbn [map JS.get fst].
  - by intros ?%elem_of_nil.
  - intros [->|Hin]%elem_of_cons.
    + rewrite String.eqb_refl. by eexists.
    + destruct (String.eqb k k'); [by eexists | by apply IH].
Qed.

Lemma Forall_values {V} (P : V → Prop) (o : JS.obj V) :
  Forall P (JS.Object_values o) → Forall (fun kv => P kv.2) o.
Proof. unfold JS.Object_values. by rewrite Forall_fmap. Qed.

Lemma or_default_unit (x : option R) (d : R) :
  (∀ v, x = Some v → Spec.unit_interval v) → Spec.unit_interval d →
  Spec.unit_interval (JS.or_default x d).
Proof.
  intros Hx Hd. unfold JS.or_default. destruct x as [v|]; [|done].
  destruct (Req_dec_T v 0); [done | by apply Hx].
Qed.

Lemma matrix_lookup_unit (M : JS.obj (JS.obj R)) (a b : option string) :
  Forall (fun row => Forall (fun kv => Spec.unit_interval kv.2) row.2) M →
  Spec.unit_interval (matrix_lookup M a b).
Proof.
  intros HM. unfold matrix_lookup.
  destruct (JS.get M (JS.property_key a)) as [row|] eqn:Hrow.
  - apply or_default_unit; [|unfold Spec.unit_interval; lra].
    intros v Hv. eapply (get_Forall Spec.unit_interval); [|exact Hv].
    by eapply (get_Forall (Forall (fun kv => Spec.unit_interval kv.2))).
  - unfold Spec.unit_interval; lra.
Qed.

Ltac unit_matrix :=
  apply matrix_lookup_unit;
  repeat (apply Forall_cons; split);
  try apply Forall_nil; unfold Spec.unit_interval; cbn [snd]; lra.

Lemma calculateRuleCompatibility_unit (rules1 rules2 : option (JS.obj string)) :
  Spec.unit_interval (calculateRuleCompatibility rules1 rules2).
Proof.
  unfold calculateRuleCompatibility.
  destruct rules1 as [r1|], rules2 as [r2|]; try (unfold Spec.unit_interval; lra).
  assert (Spec.unit_interval
            (assessDecisionCompatibility (JS.get r1 "decision_making")
                                         (JS.get r2 "decision_making")))
    as [? ?] by (unfold assessDecisionCompatibility; unit_matrix).
  assert (Spec.unit_interval
            (assessConflictCompatibility (JS.get r1 "conflict_resolution")
                                         (JS.get r2 "conflict_resolution")))
    as [? ?] by (unfold assessConflictCompatibility; unit_matrix).
  assert (Spec.unit_interval
            (assessGoalCompatibility (JS.get r1 "goal_setting")
                                     (JS.get r2 "goal_setting")))
    as [? ?] by (unfold assessGoalCompatibility; unit_matrix).
  unfold Spec.unit_interval. lra.
Qed.

Lemma calculateOntologyCompatibility_unit (ontology1 ontology2 : option (JS.obj string)) :
  Spec.unit_interval (calculateOntologyCompatibility ontology1 ontology2).
Proof.
  unfold calculateOntologyCompatibility.
  destruct ontology1 as [o1|], ontology2 as [o2|]; try (unfold Spec.unit_interval; lra).
  assert (Spec.unit_interval
            (assessAgencyCompatibility (JS.get o1 "agency_conception")
                                       (JS.get o2 "agency_conception")))
    as [? ?] by (unfold assessAgencyCompatibility; unit_matrix).
  assert (Spec.unit_interval
            (assessTimeCompatibility (JS.get o1 "time_orientation")
                                     (JS.get o2 "time_orientation")))
    as [? ?] by (unfold assessTimeCompatibility; unit_matrix).
  assert (Spec.unit_interval
            (assessRelationshipCompatibility (JS.get o1 "relationship_model")
                                             (JS.get o2 "relationship_model")))
    as [? ?] by (unfold assessRelationshipCompatibility; unit_matrix).
  unfold Spec.unit_interval. lra.
Qed.

Lemma calculateCulturalCoordination_unit (culture1 culture2 : option string) :
  Spec.unit_interval (calculateCulturalCoordination culture1 culture2).
Proof.
  unfold calculateCulturalCoordination.
  destruct (negb _ || negb _)%bool; [unfold Spec.unit_interval; lra|].
  case_bool_decide; [unfold Spec.unit_interval; lra|].
  unfold culturalCompatibilityMatrix. unit_matrix.
Qed.

Lemma calculateIdentityKernelOverlap_unit (kernel1 kernel2 : option (list string)) :
  Spec.unit_interval (calculateIdentityKernelOverlap kernel1 kernel2).
Proof.
  change (calculateIdentityKernelOverlap kernel1 kernel2)
    with (calculateIdentitySimilarity kernel1 kernel2).
  rewrite calculateIdentitySimilarity_jaccard. apply jaccard_unit.
Qed.

Lemma agreement_unit (x y : R) :
  Spec.unit_interval x → Spec.unit_interval y → Spec.unit_interval (1 - Rabs (x - y)).
Proof.
  unfold Spec.unit_interval, Rabs. intros [? ?] [? ?].
  destruct (Rcase_abs _); lra.
Qed.

Lemma belief_loop_unit (beliefs1 beliefs2 : JS.obj R) (keys : list string) (t : R) :
  Forall (fun kv => Spec.unit_interval kv.2) beliefs1 →
  Forall (fun kv => Spec.unit_interval kv.2) beliefs2 →
  Forall (fun k => is_Some (JS.get beliefs1 k) ∧ is_Some (JS.get beliefs2 k)) keys →
  ∃ t',
    fold_left (fun totalCompatibility belief =>
                 JS.add totalCompatibility
                   (JS.sub (JS.Num 1)
                      (JS.abs (JS.sub (JS.of_property (JS.get beliefs1 belief))
                                      (JS.of_property (JS.get beliefs2 belief))))))
              keys (JS.Num t)
    = JS.Num t'
    ∧ t <= t' <= t + INR (length keys).
Proof.
  intros H1 H2 Hkeys. revert t.
  induction Hkeys as [|k keys [[x Hx] [y Hy]] Hkeys IH]; intros t.
  - exists t. cbn [fold_left length INR]. split; [done | lra].
  - cbn [fold_left]. rewrite Hx, Hy.
    match goal with
    | |- context [fold_left _ keys ?acc] =>
        change acc with (JS.Num (t + (1 - Rabs (x - y))))
    end.
    destruct (IH (t + (1 - Rabs (x - y)))) as (t' & -> & Ht').
    exists t'. split; [done|].
    pose proof (agreement_unit x y
                  (get_Forall Spec.unit_interval _ _ _ H1 Hx)
                  (get_Forall Spec.unit_interval _ _ _ H2 Hy)) as [? ?].
    change (length (k :: keys)) with (S (length keys)). rewrite S_INR. lra.
Qed.

Lemma calculateBeliefCompatibility_unit (beliefs1 beliefs2 : option (JS.obj R)) :
  (∀ b, beliefs1 = Some b → Forall Spec.unit_interval (JS.Object_values b)) →
  (∀ b, beliefs2 = Some b → Forall Spec.unit_interval (JS.Object_values b)) →
  ∃ v, calculateBeliefCompatibility beliefs1 beliefs2 = JS.Num v ∧ Spec.unit_interval v.
Proof.
  intros H1 H2. unfold calculateBeliefCompatibility.
  destruct beliefs1 as [b1|], beliefs2 as [b2|];
    try (eexists; split; [done | unfold Spec.unit_interval; lra]).
  set (common := List.filter (fun key => JS.has_key key b2) (JS.Object_keys b1)).
  destruct (Nat.eqb (length common) 0) eqn:Hlen;
    [eexists; split; [done | unfold Spec.unit_interval; lra]|].
  apply Nat.eqb_neq in Hlen. cbv zeta.
  destruct (belief_loop_unit b1 b2 common 0) as (t & -> & Ht).
  - by apply Forall_values, H1.
  - by apply Forall_values, H2.
  - apply Forall_forall. intros k [Hk1 Hk2]%list_elem_of_In%filter_In.
    split; [by apply get_of_key, list_elem_of_In|].
    unfold JS.has_key in Hk2. by destruct (JS.get b2 k).
  - eexists. split; [done|].
    assert (0 < INR (length common)) by (apply lt_0_INR; lia).
    unfold Spec.unit_interval. split.
    + apply Rmult_le_pos; [lra|]. left. by apply Rinv_0_lt_compat.
    + apply (Rmult_le_reg_r (INR (length common))); [done|].
      unfold Rdiv. rewrite Rmult_assoc, Rinv_l by lra. lra.
Qed.

Lemma calculateAuthenticityCompatibility_unit (auth1 auth2 : option Authenticity) :
  (∀ a, auth1 = Some a →
     ∃ v s, value_alignment a = Some v ∧ self_consistency a = Some s
            ∧ Spec.unit_interval v ∧ Spec.unit_interval s) →
  (∀ a, auth2 = Some a →
     ∃ v s, value_alignment a = Some v ∧ self_consistency a = Some s
            ∧ Spec.unit_interval v ∧ Spec.unit_interval s) →
  ∃ x, calculateAuthenticityCompatibility auth1 auth2 = JS.Num x ∧ Spec.unit_interval x.
Proof.
  intros H1 H2. unfold calculateAuthenticityCompatibility.
  destruct auth1 as [a1|], auth2 as [a2|];
    try (eexists; split; [done | unfold Spec.unit_interval; lra]).
  destruct (H1 a1 eq_refl) as (v1 & s1 & -> & -> & Hv1 & Hs1).
  destruct (H2 a2 eq_refl) as (v2 & s2 & -> & -> & Hv2 & Hs2).
  cbn. eexists. split; [done|].
  pose proof (calculateIdentityKernelOverlap_unit
                (auth_identity_kernel a1) (auth_identity_kernel a2)) as [? ?].
  pose proof (agreement_unit v1 v2 Hv1 Hv2) as [? ?].
  pose proof (agreement_unit s1 s2 Hs1 Hs2) as [? ?].
  unfold Spec.unit_interval. lra.
Qed.

Lemma calculatePRFCompatibility_unit (agent1Data agent2Data : AgentData) :
  Spec.unit_beliefs agent1Data → Spec.unit_beliefs agent2Data →
  Spec.stated_authenticity agent1Data → Spec.stated_authenticity agent2Data →
  ∃ p, calculatePRFCompatibility (broa_data agent1Data) (broa_data agent2Data) = JS.Num p
       ∧ Spec.unit_interval p.
Proof.
  intros Hb1 Hb2 Ha1 Ha2. unfold calculatePRFCompatibility.
  destruct (calculateBeliefCompatibility_unit _ _ Hb1 Hb2) as (b & -> & [? ?]).
  destruct (calculateAuthenticityCompatibility_unit _ _ Ha1 Ha2) as (a & -> & [? ?]).
  pose proof (calculateRuleCompatibility_unit
                (rules (broa_data agent1Data)) (rules (broa_data agent2Data))) as [? ?].
  pose proof (calculateOntologyCompatibility_unit
                (ontology (broa_data agent1Data)) (ontology (broa_data agent2Data)))
    as [? ?].
  cbn. eexists. split; [done|]. unfold Spec.unit_interval. lra.
Qed.

Lemma clamped_unit (cp : JS.num) (x : R) :
  cp = JS.Num x →
  ∃ c, JS.max (JS.Num 0) (JS.min (JS.Num 1) cp) = JS.Num c ∧ Spec.unit_interval c.
Proof. intros ->. cbn. eexists. split; [done|]. apply clamp_unit. Qed.

Lemma assessCrossAgentCoordination_returns (culturalFrameworks : gmap string Weights)
    (this : CoordinationAssessment) (agent1Data agent2Data : AgentData) (now1 now2 : R) :
  flat_map JS.Object_values (UEV_values (uev_data agent1Data)) ≠ [] →
  beliefs (broa_data agent1Data) ≠ Some [] →
  authenticity (broa_data agent1Data) ≠ None →
  flat_map JS.Object_values (UEV_values (uev_data agent2Data)) ≠ [] →
  beliefs (broa_data agent2Data) ≠ Some [] →
  authenticity (broa_data agent2Data) ≠ None →
  ∃ r, assessCrossAgentCoordination culturalFrameworks this agent1Data agent2Data
         now1 now2 = (JS.Ok r, this).
Proof.
  intros Hu1 Hb1 Ha1 Hu2 Hb2 Ha2. unfold assessCrossAgentCoordination.
  destruct (calculateCulturallyAdaptedATCF_returns culturalFrameworks
              (atcfCalculator this) agent1Data now1 Hu1 Hb1 Ha1) as [atcf1 ->].
  destruct (calculateCulturallyAdaptedATCF_returns culturalFrameworks
              (atcfCalculator this) agent2Data now2 Hu2 Hb2 Ha2) as [atcf2 ->].
  destruct this. by eexists.
Qed.

Lemma sample_prf_negative :
  calculatePRFCompatibility (broa_data (Sample.believer 3))
                            (broa_data (Sample.believer 0))
  = JS.Num (- (1 / 12)).
Proof.
  unfold calculatePRFCompatibility, calculateBeliefCompatibility,
    calculateAuthenticityCompatibility. cbn.
  f_equal. unfold Rabs. repeat destruct (Rcase_abs _); lra.
Qed.

Lemma sample_prf_NaN :
  calculatePRFCompatibility (broa_data Sample.agent) (broa_data Sample.agent) = JS.NaN.
Proof. reflexivity. Qed.

(** Two assessments that return a score outside the unit interval: belief
    strengths 3 and 0 give the PRF compatibility -1/12, and an authenticity
    record without [value_alignment] gives NaN for the PRF compatibility and
    for the coordination potential. *)
Lemma coordination_scores_counterexample :
  (∃ r this',
     assessCrossAgentCoordination Sample.frameworks Sample.assessment
       (Sample.believer 3) (Sample.believer 0) 0 0 = (JS.Ok r, this')
     ∧ prf_compatibility r = JS.Num (- (1 / 12))
     ∧ ¬ Spec.unit_num (prf_compatibility r))
  ∧ (∃ r this',
       assessCrossAgentCoordination Sample.frameworks Sample.assessment
         Sample.agent Sample.agent 0 0 = (JS.Ok r, this')
       ∧ prf_compatibility r = JS.NaN
       ∧ coordination_potential r = JS.NaN
       ∧ ¬ Spec.unit_num (prf_compatibility r)
       ∧ ¬ Spec.unit_num (coordination_potential r)).
Proof.
  split.
  - destruct (assessCrossAgentCoordination_returns Sample.frameworks Sample.assessment
                (Sample.believer 3) (Sample.believer 0) 0 0) as [r Hr]; try discriminate.
    exists r, Sample.assessment. split; [done|].
    apply assessCrossAgentCoordination_result in Hr
      as (atcf1 & atcf2 & calc1 & calc2 & _ & _ & _ & _ & Hprf & _).
    rewrite Hprf, sample_prf_negative. split; [done|].
    unfold Spec.unit_num, Spec.unit_interval. lra.
  - destruct (assessCrossAgentCoordination_returns Sample.frameworks Sample.assessment
                Sample.agent Sample.agent 0 0) as [r Hr]; try discriminate.
    exists r, Sample.assessment. split; [done|].
    apply assessCrossAgentCoordination_result in Hr
      as (atcf1 & atcf2 & calc1 & calc2 & _ & _ & Hcp & _ & Hprf & _).
    rewrite Hcp, Hprf, sample_prf_NaN. by split_and!; [..| intros [] | intros []].
Qed.

(** C1 (amended). For agents whose tags are plain keys (none of the names
    inherited from [Object.prototype]): whenever [calculateATCF] returns,
    its total score and its four component scores lie in [0,1]. Whenever
    [assessCrossAgentCoordination] returns, with a modifier table that does
    not renormalise by zero, the capability overlap and the cultural
    coordination lie in [0,1]; the coordination potential lies in [0,1] as
    soon as the PRF compatibility is a number; and the PRF compatibility and
    the coordination potential lie in [0,1] when the belief values of both
    agents lie in [0,1] and both authenticity records state
    [value_alignment] and [self_consistency] in [0,1]. *)
Theorem scores_in_unit_interval :
  (∀ (this : ATCFCalculator) (agentData : AgentData) (now : R) (r : ATCFResult),
     Range.plain_key (timeline (future_projections agentData)) →
     calculateATCF this agentData now = JS.Ok r →
     Spec.unit_interval (total_score r)
     ∧ Spec.unit_interval (HC (components r))
     ∧ Spec.unit_interval (PI (components r))
     ∧ Spec.unit_interval (PC (components r))
     ∧ Spec.unit_interval (MCC (components r)))
  ∧ (∀ (culturalFrameworks : gmap string Weights)
       (this this' : CoordinationAssessment) (agent1Data agent2Data : AgentData)
       (now1 now2 : R) (r : CoordinationResult),
       Range.plain_tags agent1Data → Range.plain_tags agent2Data →
       Spec.renormalisable culturalFrameworks (weights (atcfCalculator this))
         (cultural_background agent1Data) →
       Spec.renormalisable culturalFrameworks (weights (atcfCalculator this))
         (cultural_background agent2Data) →
       assessCrossAgentCoordination culturalFrameworks this agent1Data agent2Data
         now1 now2 = (JS.Ok r, this') →
       Spec.unit_interval (capability_overlap r)
       ∧ Spec.unit_interval (cultural_coordination r)
       ∧ (∀ p, prf_compatibility r = JS.Num p → Spec.unit_num (coordination_potential r))
       ∧ (Spec.unit_beliefs agent1Data → Spec.unit_beliefs agent2Data →
          Spec.stated_authenticity agent1Data → Spec.stated_authenticity agent2Data →
          Spec.unit_num (prf_compatibility r)
          ∧ Spec.unit_num (coordination_potential r))).
Proof.
  split; [intros this agentData now r _; apply calculateATCF_unit|].
  intros culturalFrameworks this this' a1 a2 now1 now2 r _ _ _ _ Hcall.
  apply assessCrossAgentCoordination_result in Hcall
    as (atcf1 & atcf2 & calc1 & calc2 & _ & _ & Hcp & _ & Hprf & Hcap & Hcult & _).
  cbv zeta in Hcp.
  assert (∀ p, prf_compatibility r = JS.Num p →
               Spec.unit_num (coordination_potential r)) as Hnum.
  { intros p Hp. rewrite Hcp, <- Hprf, Hp. cbn. apply clamp_unit. }
  split_and!.
  - rewrite Hcap. apply calculateCapabilityOverlap_unit.
  - rewrite Hcult. apply calculateCulturalCoordination_unit.
  - exact Hnum.
  - intros Hb1 Hb2 Ha1 Ha2.
    destruct (calculatePRFCompatibility_unit a1 a2 Hb1 Hb2 Ha1 Ha2) as (p & Hp & Hunit).
    rewrite Hprf in Hnum |- *. rewrite Hp in Hnum |- *.
    split; [done | by eapply Hnum].
Qed.

(** ** The sample assessment *)

Lemma believer_unit_beliefs (s : R) :
  Spec.unit_interval s → Spec.unit_beliefs (Sample.believer s).
Proof.
  intros Hs b [= <-]. cbn. apply Forall_cons. split; [done|]. by apply Forall_nil.
Qed.

Lemma believer_stated_authenticity (s : R) :
  Spec.stated_authenticity (Sample.believer s).
Proof.
  intros auth [= <-]. exists 0.5, 0.5.
  split_and!; try done; unfold Spec.unit_interval; lra.
Qed.

Lemma sample_renormalisable (w : Weights) :
  Spec.renormalisable Sample.frameworks w None.
Proof. by intros m Hm. Qed.








Lemma scores_in_unit_interval_witness :
  (∃ r, calculateATCF Sample.calculator Sample.agent 0 = JS.Ok r
        ∧ Spec.unit_interval (total_score r)
        ∧ Spec.unit_interval (HC (components r)))
  ∧ (∃ r, assessCrossAgentCoordination Sample.frameworks Sample.assessment
            (Sample.believer 0) (Sample.believer 1) 0 0 = (JS.Ok r, Sample.assessment)
          ∧ Spec.unit_interval (capability_overlap r)
          ∧ Spec.unit_interval (cultural_coordination r)
          ∧ Spec.unit_num (prf_compatibility r)
          ∧ Spec.unit_num (coordination_potential r)).
Proof.
  destruct scores_in_unit_interval as [Hatcf Hassess]. split.
  - destruct (calculateATCF_returns Sample.calculator Sample.agent 0) as [r Hr];
      [discriminate | discriminate | discriminate |].
    exists r.
    destruct (Hatcf Sample.calculator Sample.agent 0 r undefined_plain Hr)
      as (Ht & Hhc & _).
    split; [exact Hr | split; [exact Ht | exact Hhc]].
  - destruct (assessCrossAgentCoordination_returns Sample.frameworks Sample.assessment
                (Sample.believer 0) (Sample.believer 1) 0 0) as [r Hr];
      [discriminate | discriminate | discriminate
       | discriminate | discriminate | discriminate |].
    exists r.
    destruct (Hassess Sample.frameworks Sample.assessment Sample.assessment
                (Sample.believer 0) (Sample.believer 1) 0 0 r
                (believer_plain_tags 0) (believer_plain_tags 1)
                (sample_renormalisable _) (sample_renormalisable _) Hr)
      as (Hcap & Hcult & _ & Hprf).
    destruct Hprf as [Hp Hc].
    + apply believer_unit_beliefs. unfold Spec.unit_interval. lra.
    + apply believer_unit_beliefs. unfold Spec.unit_interval. lra.
    + apply believer_stated_authenticity.
    + apply believer_stated_authenticity.
    + split; [exact Hr | split; [exact Hcap | split; [exact Hcult | split; assumption]]].
Defined.


(** * Further properties of the two classes *)

(** ** Set similarity *)

Lemma elem_of_tags (l : list string) (x : string) : x ∈ Spec.tags l ↔ x ∈ l.
Proof. unfold Spec.tags. apply elem_of_list_to_set. Qed.

Lemma jaccard_one (A B : gset string) : Spec.jaccard A B = 1 ↔ A ≠ ∅ ∧ A = B.
Proof.
  unfold Spec.jaccard. case_decide as Hempty.
  - split; [lra|]. intros [HA ->]. by destruct Hempty.
  - assert (size (A ∪ B) ≠ 0%nat) as Hne.
    { intros Hz%size_empty_inv. apply Hempty. left. set_solver. }
    assert (0 < INR (size (A ∪ B))) as Hpos by (apply lt_0_INR; lia).
    split.
    + intros Hone. split; [tauto|].
      assert (INR (size (A ∩ B)) = INR (size (A ∪ B))) as Heq.
      { apply (Rmult_eq_compat_r (INR (size (A ∪ B)))) in Hone.
        unfold Rdiv in Hone. rewrite Rmult_assoc, Rinv_l in Hone by lra. lra. }
      apply INR_eq in Heq.
      assert (A ∩ B ≡ A ∪ B) as Hsame
        by (apply set_subseteq_size_equiv; [set_solver | lia]).
      apply set_eq. intros x. set_solver.
    + intros [_ <-]. replace (A ∩ A) with A by set_solver.
      replace (A ∪ A) with A in * by set_solver. field. lra.
Qed.

Lemma jaccard_zero (A B : gset string) : Spec.jaccard A B = 0 ↔ A ∩ B = ∅.
Proof.
  unfold Spec.jaccard. case_decide as Hempty.
  - split; [|done]. intros _. destruct Hempty as [-> | ->]; set_solver.
  - assert (size (A ∪ B) ≠ 0%nat) as Hne.
    { intros Hz%size_empty_inv. apply Hempty. left. set_solver. }
    assert (0 < INR (size (A ∪ B))) as Hpos by (apply lt_0_INR; lia).
    split.
    + intros Hzero.
      assert (INR (size (A ∩ B)) = 0) as Heq.
      { apply (Rmult_eq_compat_r (INR (size (A ∪ B)))) in Hzero.
        unfold Rdiv in Hzero. rewrite Rmult_assoc, Rinv_l in Hzero by lra. lra. }
      change 0 with (INR 0) in Heq. apply INR_eq in Heq.
      apply leibniz_equiv. by apply size_empty_inv.
    + intros ->. rewrite size_empty. cbn. lra.
Qed.

Lemma jaccard_sym (A B : gset string) : Spec.jaccard A B = Spec.jaccard B A.
Proof.
  unfold Spec.jaccard.
  replace (B ∩ A) with (A ∩ B) by set_solver.
  replace (B ∪ A) with (A ∪ B) by set_solver.
  repeat case_decide; try done; tauto.
Qed.

Lemma identity_similarity_extremes_holds (kernel1 kernel2 : list string) :
  (calculateIdentitySimilarity (Some kernel1) (Some kernel2) = 1
   ↔ kernel1 ≠ [] ∧ ∀ x, x ∈ kernel1 ↔ x ∈ kernel2)
  ∧ (calculateIdentitySimilarity (Some kernel1) (Some kernel2) = 0
     ↔ ∀ x, x ∈ kernel1 → x ∉ kernel2).
Proof.
  rewrite calculateIdentitySimilarity_jaccard. cbn [from_option Datatypes.id].
  rewrite jaccard_one, jaccard_zero. split.
  - split.
    + intros [Hne Heq]. split; [by intros ?%tags_empty_iff|].
      intros x. by rewrite <- !elem_of_tags, Heq.
    + intros [Hne Hsame]. split; [by intros ?%tags_empty_iff|].
      apply set_eq. intros x. by rewrite !elem_of_tags.
  - split.
    + intros Hdisj x H1 H2.
      assert (x ∈ Spec.tags kernel1 ∩ Spec.tags kernel2) as Hx
        by (apply elem_of_intersection; by rewrite !elem_of_tags).
      rewrite Hdisj in Hx. set_solver.
    + intros Hdisj. apply set_eq. intros x.
      rewrite elem_of_intersection, !elem_of_tags. split; [|set_solver].
      intros [H1 H2]. by destruct (Hdisj x H1).
Qed.

(** X1. The identity-kernel similarity is 1 exactly when the first kernel is
    non-empty and both kernels hold the same tags (order and repetitions do
    not count), and 0 exactly when the kernels share no tag. *)
Theorem calculateIdentitySimilarity_extremes (kernel1 kernel2 : list string) :
  (calculateIdentitySimilarity (Some kernel1) (Some kernel2) = 1
   ↔ kernel1 ≠ [] ∧ ∀ x, x ∈ kernel1 ↔ x ∈ kernel2)
  ∧ (calculateIdentitySimilarity (Some kernel1) (Some kernel2) = 0
     ↔ ∀ x, x ∈ kernel1 → x ∉ kernel2).
Proof. intros. by eapply identity_similarity_extremes_holds. Qed.

(** X2. The identity-kernel similarity does not depend on the order of its
    two arguments and always lies in [0,1], absent kernels included. *)
Theorem calculateIdentitySimilarity_symmetric (kernel1 kernel2 : option (list string)) :
  calculateIdentitySimilarity kernel1 kernel2
  = calculateIdentitySimilarity kernel2 kernel1
  ∧ 0 <= calculateIdentitySimilarity kernel1 kernel2 <= 1.
Proof.
  rewrite !calculateIdentitySimilarity_jaccard. split; [apply jaccard_sym|].
  apply jaccard_unit.
Qed.

(** ** Capability overlap and cultural coordination *)

Lemma capability_formula (c1 c2 : list string) :
  c1 ≠ [] → c2 ≠ [] →
  let J := Spec.jaccard (Spec.tags c1) (Spec.tags c2) in
  calculateCapabilityOverlap (Some c1) (Some c2) = 0.4 * J + 0.6 * Rmin 1 (2 * (1 - J)).
Proof.
  intros H1 H2. cbv zeta. rewrite calculateCapabilityOverlap_nonempty by done.
  by rewrite complementarity_jaccard by (by rewrite tags_empty_iff).
Qed.

(** X3. For two non-empty capability arrays the overlap score lies in
    [0.4, 0.8] (above the default 0.3 of an empty array), does not depend on
    the order of the two agents, is 0.4 when both hold the same capabilities
    and 0.6 when they share none. *)
Theorem calculateCapabilityOverlap_profile (c1 c2 : list string) :
  c1 ≠ [] → c2 ≠ [] →
  0.4 <= calculateCapabilityOverlap (Some c1) (Some c2) <= 0.8
  ∧ calculateCapabilityOverlap (Some c1) (Some c2)
    = calculateCapabilityOverlap (Some c2) (Some c1)
  ∧ ((∀ x, x ∈ c1 ↔ x ∈ c2) → calculateCapabilityOverlap (Some c1) (Some c2) = 0.4)
  ∧ ((∀ x, x ∈ c1 → x ∉ c2) → calculateCapabilityOverlap (Some c1) (Some c2) = 0.6).
Proof.
  intros H1 H2.
  pose proof (identity_similarity_extremes_holds c1 c2) as [Hone Hzero].
  rewrite calculateIdentitySimilarity_jaccard in Hone, Hzero.
  cbn [from_option Datatypes.id] in Hone, Hzero.
  rewrite (capability_formula c1 c2), (capability_formula c2 c1) by done. cbv zeta.
  rewrite (jaccard_sym (Spec.tags c2)).
  pose proof (jaccard_unit (Spec.tags c1) (Spec.tags c2)) as [H0 H1'].
  split_and!; try done.
  - unfold Rmin. destruct (Rle_dec _ _); lra.
  - unfold Rmin. destruct (Rle_dec _ _); lra.
  - intros Hsame. rewrite (proj2 Hone) by done.
    unfold Rmin. destruct (Rle_dec _ _); lra.
  - intros Hdisj. rewrite (proj2 Hzero) by done.
    unfold Rmin. destruct (Rle_dec _ _); lra.
Qed.

Lemma calculateCapabilityOverlap_profile_witness :
  0.4 <= calculateCapabilityOverlap (Some ["plan"; "build"]) (Some ["build"; "test"]) <= 0.8
  ∧ calculateCapabilityOverlap (Some ["plan"; "build"]) (Some ["build"; "test"])
    = calculateCapabilityOverlap (Some ["build"; "test"]) (Some ["plan"; "build"]).
Proof.
  destruct (calculateCapabilityOverlap_profile ["plan"; "build"] ["build"; "test"])
    as (Hrange & Hsym & _); [discriminate | discriminate |].
  split; [exact Hrange | exact Hsym].
Defined.

Lemma or_default_nonzero (v d : R) : v ≠ 0 → JS.or_default (Some v) d = v.
Proof. intros Hv. unfold JS.or_default. by destruct (Req_dec_T v 0). Qed.

Ltac culture_cases :=
  repeat match goal with
         | |- context [String.eqb ?a ?b] =>
             destruct (String.eqb_spec a b); subst; cbn
         end.

Ltac table_value :=
  unfold JS.or_default; repeat destruct (Req_dec_T _ _); cbn; try lra.

Lemma matrix_lookup_cultural_sym (a b : option string) :
  matrix_lookup culturalCompatibilityMatrix a b
  = matrix_lookup culturalCompatibilityMatrix b a.
Proof.
  unfold matrix_lookup, culturalCompatibilityMatrix.
  generalize (JS.property_key a) (JS.property_key b). intros s1 s2. cbn.
  culture_cases; try discriminate; try congruence; table_value.
Qed.

Lemma matrix_lookup_cultural_range (a b : option string) :
  0.4 <= matrix_lookup culturalCompatibilityMatrix a b <= 0.8.
Proof.
  unfold matrix_lookup, culturalCompatibilityMatrix.
  generalize (JS.property_key a) (JS.property_key b). intros s1 s2. cbn.
  culture_cases; try discriminate; table_value.
Qed.

(** X4. For culture tags that are plain keys, the cultural-coordination
    score does not depend on the order of the two cultures, always lies in
    [0.4, 0.8], and is 0.8 for two identical non-empty culture tags, known
    to the table or not. *)
Theorem calculateCulturalCoordination_profile (culture1 culture2 : option string) :
  Range.plain_key culture1 → Range.plain_key culture2 →
  calculateCulturalCoordination culture1 culture2
  = calculateCulturalCoordination culture2 culture1
  ∧ 0.4 <= calculateCulturalCoordination culture1 culture2 <= 0.8
  ∧ (JS.truthy_string culture1 = true →
     calculateCulturalCoordination culture1 culture1 = 0.8).
Proof.
  intros _ _. unfold calculateCulturalCoordination. split; [|split].
  - rewrite (orb_comm (negb (JS.truthy_string culture2))).
    destruct (negb _ || negb _)%bool; [done|].
    repeat case_bool_decide; try done; try congruence.
    apply matrix_lookup_cultural_sym.
  - destruct (negb _ || negb _)%bool eqn:E; [lra|].
    case_bool_decide; [lra|].
    apply matrix_lookup_cultural_range.
  - intros ->. cbn. by rewrite bool_decide_eq_true_2.
Qed.

Lemma calculateCulturalCoordination_profile_witness :
  calculateCulturalCoordination (Some "indigenous") (Some "traditional")
  = calculateCulturalCoordination (Some "traditional") (Some "indigenous")
  ∧ calculateCulturalCoordination (Some "nomadic") (Some "nomadic") = 0.8.
Proof.
  destruct (calculateCulturalCoordination_profile (Some "indigenous")
              (Some "traditional")) as (Hsym & _ & _); [plain_name | plain_name |].
  destruct (calculateCulturalCoordination_profile (Some "nomadic") (Some "nomadic"))
    as (_ & _ & Hsame); [plain_name | plain_name |].
  split; [exact Hsym | apply Hsame; reflexivity].
Defined.

(** ** Historical continuity *)

Lemma weighted_sums (now : R) (reference : gset string) (history : list HistoryPoint) :
  0 <= Spec.sum (zip_with Rmult
                   (map (Spec.decay now) history)
                   (map (fun p => Spec.jaccard reference
                                    (Spec.tags (default [] (snapshot_kernel p))))
                        history))
    <= Spec.sum (map (Spec.decay now) history).
Proof.
  induction history as [|p history IH]; cbn [map zip_with Spec.sum foldr].
  - unfold Spec.sum. cbn. lra.
  - fold (Spec.sum (map (Spec.decay now) history)).
    fold (Spec.sum (zip_with Rmult
                      (map (Spec.decay now) history)
                      (map (fun p => Spec.jaccard reference
                                       (Spec.tags (default [] (snapshot_kernel p))))
                           history))).
    pose proof (jaccard_unit reference (Spec.tags (default [] (snapshot_kernel p))))
      as [? ?].
    assert (0 < Spec.decay now p) by apply exp_pos.
    split; [apply Rplus_le_le_0_compat; [by apply Rmult_le_pos; lra | tauto]|].
    apply Rplus_le_compat; [|tauto].
    rewrite <- (Rmult_1_r (Spec.decay now p)) at 2.
    apply Rmult_le_compat_l; lra.
Qed.

Lemma weighted_constant (now c : R) (reference : gset string)
    (history : list HistoryPoint) :
  Forall (fun p => Spec.jaccard reference (Spec.tags (default [] (snapshot_kernel p))) = c)
         history →
  Spec.sum (zip_with Rmult
              (map (Spec.decay now) history)
              (map (fun p => Spec.jaccard reference
                               (Spec.tags (default [] (snapshot_kernel p))))
                   history))
  = c * Spec.sum (map (Spec.decay now) history).
Proof.
  induction 1 as [|p history Hp Hall IH]; cbn [map zip_with].
  - unfold Spec.sum. cbn. lra.
  - unfold Spec.sum in *. cbn [foldr]. rewrite IH, Hp. lra.
Qed.

Lemma historicalContinuity_unit (this : ATCFCalculator)
    (identityHistory : option (list HistoryPoint)) (now : R) :
  temporalDecayConstant this = 30 →
  0 <= calculateHistoricalContinuity this identityHistory now <= 1.
Proof.
  intros Htdc. destruct identityHistory as [[|first rest]|]; try (cbn; lra).
  rewrite calculateHistoricalContinuity_first by done.
  unfold Spec.continuityAgainst, Spec.weightedAverage.
  pose proof (decay_sum_pos now (first :: rest) ltac:(done)) as Hpos.
  pose proof (weighted_sums now (Spec.tags (default [] (snapshot_kernel first)))
                (first :: rest)) as [H0 H1].
  split.
  - apply Rmult_le_pos; [done|]. left. by apply Rinv_0_lt_compat.
  - apply (Rmult_le_reg_r (Spec.sum (map (Spec.decay now) (first :: rest)))); [done|].
    unfold Rdiv. rewrite Rmult_assoc, Rinv_l by lra. lra.
Qed.

(** X5. For a constructed calculator the historical-continuity score lies in
    [0,1] for every history and time, so the clamp applied to it by
    [calculateATCF] never changes it. *)
Theorem calculateHistoricalContinuity_range (w : Weights) (this : ATCFCalculator)
    (identityHistory : option (list HistoryPoint)) (now : R) :
  constructor w = JS.Ok this →
  0 <= calculateHistoricalContinuity this identityHistory now <= 1
  ∧ clamp (calculateHistoricalContinuity this identityHistory now)
    = calculateHistoricalContinuity this identityHistory now.
Proof.
  intros [_ Htdc]%constructor_fields.
  pose proof (historicalContinuity_unit this identityHistory now Htdc) as Hrange.
  split; [done|]. unfold clamp, Rmax, Rmin. repeat destruct (Rle_dec _ _); lra.
Qed.

Lemma calculateHistoricalContinuity_range_witness :
  0 <= calculateHistoricalContinuity Sample.calculator
         (identity_history Sample.agent) Sample.day <= 1.
Proof.
  exact (proj1 (calculateHistoricalContinuity_range default_weights Sample.calculator
                  (identity_history Sample.agent) Sample.day constructor_default)).
Defined.

(** X6. For a constructed calculator and a history whose weights can be
    averaged at the current time (no snapshot dated more than 700 decay
    constants after it, at least one no older than 700 decay constants):
    when the first snapshot has a non-empty kernel and every snapshot holds
    the same tags as the first, the score is 1; and when the first snapshot
    has no kernel or an empty one, the score is 0 whatever the other
    snapshots hold. *)
Theorem calculateHistoricalContinuity_constant (w : Weights) (this : ATCFCalculator)
    (first : HistoryPoint) (rest : list HistoryPoint) (now : R) :
  constructor w = JS.Ok this →
  Range.weighable this (first :: rest) now →
  (default [] (snapshot_kernel first) ≠ [] →
   Forall (fun p => ∀ x, x ∈ default [] (snapshot_kernel first)
                         ↔ x ∈ default [] (snapshot_kernel p)) rest →
   calculateHistoricalContinuity this (Some (first :: rest)) now = 1)
  ∧ (default [] (snapshot_kernel first) = [] →
     calculateHistoricalContinuity this (Some (first :: rest)) now = 0).
Proof.
  intros [_ Htdc]%constructor_fields _.
  rewrite calculateHistoricalContinuity_first by done.
  unfold Spec.continuityAgainst, Spec.weightedAverage.
  pose proof (decay_sum_pos now (first :: rest) ltac:(done)) as Hpos.
  split.
  - intros Hne Hsame. rewrite (weighted_constant now 1).
    + field. lra.
    + apply Forall_cons. split.
      * apply jaccard_one. split; [by rewrite tags_empty_iff | done].
      * eapply Forall_impl; [exact Hsame|]. intros p Hp. cbn beta in Hp.
        apply jaccard_one. split; [by rewrite tags_empty_iff|].
        apply set_eq. intros x. by rewrite !elem_of_tags.
  - intros Hempty. rewrite (weighted_constant now 0).
    + field. lra.
    + rewrite Hempty. apply Forall_forall. intros p _. apply jaccard_empty_l.
Qed.

Lemma calculateHistoricalContinuity_constant_witness :
  calculateHistoricalContinuity Sample.calculator
    (Some [{| timestamp := 0; snapshot_kernel := Some ["a"; "b"] |};
           {| timestamp := Sample.day; snapshot_kernel := Some ["b"; "a"; "a"] |}])
    Sample.day = 1
  ∧ calculateHistoricalContinuity Sample.calculator
      (Some [{| timestamp := 0; snapshot_kernel := None |};
             {| timestamp := Sample.day; snapshot_kernel := Some ["a"] |}])
      Sample.day = 0.
Proof.
  assert (∀ k1 k2,
            Range.weighable Sample.calculator
              [{| timestamp := 0; snapshot_kernel := k1 |};
               {| timestamp := Sample.day; snapshot_kernel := k2 |}] Sample.day)
    as Hweighable.
  { intros k1 k2. unfold Range.weighable, Range.age, Sample.day.
    cbn [temporalDecayConstant Sample.calculator]. split.
    - repeat (apply Forall_cons_2; [cbn [timestamp]; lra|]). apply Forall_nil_2.
    - apply Exists_cons_hd. cbn [timestamp]. lra. }
  split.
  - apply (proj1 (calculateHistoricalContinuity_constant default_weights
                    Sample.calculator
                    {| timestamp := 0; snapshot_kernel := Some ["a"; "b"] |}
                    [{| timestamp := Sample.day; snapshot_kernel := Some ["b"; "a"; "a"] |}]
                    Sample.day constructor_default (Hweighable _ _))).
    + discriminate.
    + apply Forall_cons. split; [|apply Forall_nil; exact I].
      intros x. cbn. rewrite !elem_of_cons, !elem_of_nil. tauto.
  - apply (proj2 (calculateHistoricalContinuity_constant default_weights
                    Sample.calculator
                    {| timestamp := 0; snapshot_kernel := None |}
                    [{| timestamp := Sample.day; snapshot_kernel := Some ["a"] |}]
                    Sample.day constructor_default (Hweighable _ _))).
    reflexivity.
Defined.

(** ** Correlation and the present-state bundle *)

Lemma discriminant_bound (A B C : R) :
  0 <= A → (∀ t, 0 <= A * t * t + 2 * B * t + C) → B * B <= A * C.
Proof.
  intros HA Hall. destruct (Req_dec_T A 0) as [->|HnA].
  - destruct (Req_dec_T B 0) as [->|HnB]; [lra|]. exfalso.
    specialize (Hall (- (C + 1) / (2 * B))).
    replace (2 * B * (- (C + 1) / (2 * B))) with (- (C + 1)) in Hall by (field; lra).
    lra.
  - assert (0 < A) as Hpos by lra.
    specialize (Hall (- B / A)).
    assert (A * (- B / A) = - B) as Ht by (field; lra).
    rewrite Ht in Hall.
    assert (0 <= A * (- B * (- B / A) + 2 * B * (- B / A) + C)) as Hscaled
      by (apply Rmult_le_pos; lra).
    replace (A * (- B * (- B / A) + 2 * B * (- B / A) + C))
      with (A * C - B * B) in Hscaled by (field; lra).
    lra.
Qed.

Lemma squares_nonneg (m : R) (xs : list R) :
  0 <= Spec.sum (zip_with (fun x y => (x - m) * (y - m)) xs xs).
Proof.
  induction xs as [|x xs IH]; unfold Spec.sum in *; cbn [zip_with foldr]; [lra|].
  pose proof (Rle_0_sqr (x - m)) as Hsq. unfold Rsqr in Hsq. lra.
Qed.

Lemma quadratic_expansion (m1 m2 t : R) (xs ys : list R) :
  length xs = length ys →
  0 <= Spec.sum (zip_with (fun x y => (x - m1) * (y - m1)) xs xs) * t * t
       + 2 * Spec.sum (zip_with (fun x y => (x - m1) * (y - m2)) xs ys) * t
       + Spec.sum (zip_with (fun x y => (x - m2) * (y - m2)) ys ys).
Proof.
  revert ys. induction xs as [|x xs IH]; intros [|y ys] Hlen; try done.
  - unfold Spec.sum. cbn. lra.
  - injection Hlen as Hlen. specialize (IH ys Hlen).
    unfold Spec.sum in *. cbn [zip_with foldr].
    pose proof (Rle_0_sqr ((x - m1) * t + (y - m2))) as Hsq. unfold Rsqr in Hsq.
    lra.
Qed.

Lemma cauchy_schwarz (m1 m2 : R) (xs ys : list R) :
  length xs = length ys →
  Spec.sum (zip_with (fun x y => (x - m1) * (y - m2)) xs ys)
  * Spec.sum (zip_with (fun x y => (x - m1) * (y - m2)) xs ys)
  <= Spec.sum (zip_with (fun x y => (x - m1) * (y - m1)) xs xs)
     * Spec.sum (zip_with (fun x y => (x - m2) * (y - m2)) ys ys).
Proof.
  intros Hlen. apply discriminant_bound; [apply squares_nonneg|].
  intros t. by apply quadratic_expansion.
Qed.

Lemma pearson_range (xs ys : list R) : -1 <= Spec.pearson xs ys <= 1.
Proof.
  unfold Spec.pearson. case_decide as Hlen; [|lra]. destruct Hlen as [Hlen _].
  cbv zeta. destruct (Req_dec_T _ _) as [|Hd]; [lra|].
  unfold Spec.covariation in *.
  set (A := Spec.sum (zip_with (fun x y => (x - Spec.mean xs) * (y - Spec.mean xs)) xs xs))
    in *.
  set (C := Spec.sum (zip_with (fun x y => (x - Spec.mean ys) * (y - Spec.mean ys)) ys ys))
    in *.
  set (B := Spec.sum (zip_with (fun x y => (x - Spec.mean xs) * (y - Spec.mean ys)) xs ys)).
  assert (B * B <= A * C) as Hcs by by apply cauchy_schwarz.
  assert (0 <= A * C) as HAC.
  { apply Rmult_le_pos; apply squares_nonneg. }
  pose proof (sqrt_pos (A * C)) as Hd0.
  assert (0 < sqrt (A * C)) as Hdpos by lra.
  assert (Rabs B <= sqrt (A * C)) as Habs.
  { rewrite <- sqrt_Rsqr_abs. apply sqrt_le_1_alt. by unfold Rsqr. }
  assert (- sqrt (A * C) <= B <= sqrt (A * C)) as Hb.
  { revert Habs. unfold Rabs. destruct (Rcase_abs B); lra. }
  clear Habs. split.
  - apply (Rmult_le_reg_r (sqrt (A * C))); [done|].
    unfold Rdiv. rewrite Rmult_assoc, Rinv_l by lra. lra.
  - apply (Rmult_le_reg_r (sqrt (A * C))); [done|].
    unfold Rdiv. rewrite Rmult_assoc, Rinv_l by lra. lra.
Qed.

Lemma zip_with_flip (f g : R → R → R) (xs ys : list R) :
  (∀ x y, f x y = g y x) →
  Spec.sum (zip_with f xs ys) = Spec.sum (zip_with g ys xs).
Proof.
  intros Hfg. revert ys.
  induction xs as [|x xs IH]; intros [|y ys]; unfold Spec.sum in *; cbn; try done.
  by rewrite IH, Hfg.
Qed.

Lemma pearson_sym (xs ys : list R) : Spec.pearson xs ys = Spec.pearson ys xs.
Proof.
  unfold Spec.pearson.
  assert (Spec.covariation xs ys = Spec.covariation ys xs) as Hcov.
  { unfold Spec.covariation. apply zip_with_flip. intros x y. lra. }
  rewrite Hcov, (Rmult_comm (Spec.covariation xs xs)).
  repeat case_decide; try done; exfalso; lia.
Qed.

Lemma sum_constant (c : R) (xs : list R) :
  Forall (fun x => x = c) xs → Spec.sum xs = INR (length xs) * c.
Proof.
  induction 1 as [|x xs -> _ IH]; unfold Spec.sum in *.
  - cbn. lra.
  - change (length (c :: xs)) with (S (length xs)). rewrite S_INR.
    cbn [foldr]. rewrite IH. lra.
Qed.

Lemma deviations_constant (c m : R) (xs : list R) :
  Forall (fun x => x = c) xs → m = c →
  Spec.sum (zip_with (fun x y => (x - m) * (y - m)) xs xs) = 0.
Proof.
  intros Hall ->. induction Hall as [|x xs -> _ IH]; unfold Spec.sum in *; cbn; [done|].
  rewrite IH. lra.
Qed.

Lemma pearson_constant (c : R) (xs ys : list R) :
  Forall (fun x => x = c) xs → Spec.pearson xs ys = 0.
Proof.
  intros Hall. unfold Spec.pearson. case_decide as Hlen; [|done].
  destruct Hlen as [_ Hne]. cbv zeta.
  destruct (Req_dec_T _ _) as [|Hd]; [done|]. exfalso. apply Hd.
  assert (Spec.mean xs = c) as Hmean.
  { unfold Spec.mean. rewrite (sum_constant c) by done.
    assert (0 < INR (length xs)) by (apply lt_0_INR; lia). field. lra. }
  unfold Spec.covariation at 1. rewrite (deviations_constant c) by done.
  rewrite Rmult_0_l. apply sqrt_0.
Qed.

(** X7. [calculateCorrelation] never throws; its result lies in [-1,1], is
    the same when the two vectors are swapped, and is 0 when the vectors
    differ in length or hold at most one value (the guards of the first
    line, and a single value being its own mean). *)
Theorem calculateCorrelation_profile (arr1 arr2 : list R) :
  ∃ r,
    calculateCorrelation arr1 arr2 = JS.Ok r
    ∧ calculateCorrelation arr2 arr1 = JS.Ok r
    ∧ -1 <= r <= 1
    ∧ (length arr1 ≠ length arr2 ∨ (length arr1 <= 1)%nat → r = 0).
Proof.
  exists (Spec.pearson arr1 arr2). split_and!.
  - apply calculateCorrelation_pearson.
  - rewrite pearson_sym. apply calculateCorrelation_pearson.
  - apply pearson_range.
  - apply pearson_range.
  - intros [Hlen | Hshort].
    + unfold Spec.pearson. by rewrite decide_False by tauto.
    + destruct arr1 as [|a [|b arr1]]; [| |cbn in Hshort; lia].
      * apply (pearson_constant 0 [] arr2), Forall_nil_2.
      * apply (pearson_constant a [a] arr2), Forall_cons_2; [done | apply Forall_nil_2].
Qed.

Lemma compatibility_loop (pairs : list (JS.obj R * JS.obj R)) (t : R) (n : nat) :
  ∃ t',
    foldl (fun acc '(ci, cj) =>
             '(totalCompatibility, comparisons) ← acc;
             correlation ← calculateCorrelation (JS.Object_values ci) (JS.Object_values cj);
             mret (totalCompatibility + Rabs correlation, S comparisons))
          (JS.Ok (t, n)) pairs
    = JS.Ok (t', (n + length pairs)%nat)
    ∧ t <= t' <= t + INR (length pairs).
Proof.
  revert t n. induction pairs as [|[ci cj] pairs IH]; intros t n.
  - exists t. cbn. split; [do 2 f_equal; lia | lra].
  - match goal with |- context [foldl ?f _ _] => set (step := f) in * end.
    change (foldl step (JS.Ok (t, n)) ((ci, cj) :: pairs))
      with (foldl step (step (JS.Ok (t, n)) (ci, cj)) pairs).
    assert (step (JS.Ok (t, n)) (ci, cj)
            = JS.Ok (t + Rabs (Spec.pearson (JS.Object_values ci) (JS.Object_values cj)),
                     S n)) as ->.
    { unfold step. js_bind. rewrite calculateCorrelation_pearson. by js_bind. }
    destruct (IH (t + Rabs (Spec.pearson (JS.Object_values ci) (JS.Object_values cj)))
                 (S n)) as (t' & -> & Ht').
    exists t'. split; [do 2 f_equal; cbn; lia|].
    pose proof (pearson_range (JS.Object_values ci) (JS.Object_values cj)) as Hp.
    assert (0 <= Rabs (Spec.pearson (JS.Object_values ci) (JS.Object_values cj)) <= 1)
      as Habs by (unfold Rabs; destruct (Rcase_abs _); lra).
    change (length ((ci, cj) :: pairs)) with (S (length pairs)). rewrite S_INR. lra.
Qed.

Lemma component_compatibility_bounded (components : list (JS.obj R)) :
  ∃ v,
    checkComponentCompatibility components = JS.Ok v
    ∧ 0 <= v <= 1
    ∧ ((length components < 2)%nat → v = 0.5).
Proof.
  unfold checkComponentCompatibility.
  change (mret (0, 0%nat)) with (JS.Ok (0, 0%nat)).
  destruct (compatibility_loop (loop_pairs components) 0 0) as (t & -> & Ht).
  js_bind. eexists. split; [done|]. cbn [Nat.add].
  destruct (loop_pairs components) as [|p pairs] eqn:Hpairs.
  - cbn. split; [lra|]. done.
  - change (Nat.ltb 0 (length (p :: pairs))) with true. cbv iota.
    assert (0 < INR (length (p :: pairs))) as Hpos by (apply lt_0_INR; cbn; lia).
    split.
    + split.
      * apply Rmult_le_pos; [lra|]. left. by apply Rinv_0_lt_compat.
      * apply (Rmult_le_reg_r (INR (length (p :: pairs)))); [done|].
        unfold Rdiv. rewrite Rmult_assoc, Rinv_l by lra. lra.
    + intros Hshort. destruct components as [|c1 [|c2 rest]]; cbn in *; try done; lia.
Qed.

(** X8. [checkComponentCompatibility] never throws, whatever the number and
    the sizes of the components; its result lies in [0,1], and it is the
    default 0.5 when there are fewer than two components to compare. *)
Theorem checkComponentCompatibility_range (components : list (JS.obj R)) :
  ∃ v,
    checkComponentCompatibility components = JS.Ok v
    ∧ 0 <= v <= 1
    ∧ ((length components < 2)%nat → v = 0.5).
Proof. intros. by eapply component_compatibility_bounded. Qed.

Lemma variance_nonneg (l : list R) : l ≠ [] → 0 <= Spec.variance l.
Proof.
  intros Hne. unfold Spec.variance.
  assert (0 < INR (length l)) by (apply lt_0_INR; destruct l; cbn; [done|lia]).
  apply Rmult_le_pos; [|left; by apply Rinv_0_lt_compat].
  generalize (Spec.mean l). intros m. clear.
  induction l as [|x l IH]; unfold Spec.sum in *; cbn [map foldr]; [lra|].
  pose proof (pow2_ge_0 (x - m)). lra.
Qed.

Lemma variance_constant (c : R) (l : list R) :
  l ≠ [] → Forall (fun x => x = c) l → Spec.variance l = 0.
Proof.
  intros Hne Hall. unfold Spec.variance.
  assert (0 < INR (length l)) as Hpos
    by (apply lt_0_INR; destruct l; cbn; [done|lia]).
  assert (Spec.mean l = c) as ->.
  { unfold Spec.mean. rewrite (sum_constant c) by done. field. lra. }
  assert (Spec.sum (map (fun x => (x - c) ^ 2) l) = 0) as ->.
  { clear Hne Hpos. induction Hall as [|x l -> _ IH]; unfold Spec.sum in *;
      cbn [map foldr]; [done|]. rewrite IH. lra. }
  field. lra.
Qed.

Lemma tcf_cases (uevData : UEV) :
  let allValues := flat_map JS.Object_values (UEV_values uevData) in
  (allValues = [] →
   checkTemporalContinuity uevData = JS.Throw JS.TypeError
   ∧ calculateTCF uevData = JS.Throw JS.TypeError)
  ∧ (allValues ≠ [] →
     ∃ tc v,
       checkTemporalContinuity uevData = JS.Ok tc
       ∧ calculateTCF uevData = JS.Ok v
       ∧ 0 <= tc <= 1 ∧ 0 <= v <= 1
       ∧ (∀ c, Forall (fun x => x = c) allValues → tc = 1)).
Proof.
  cbv zeta. split.
  - intros Hempty. split; [by apply checkTemporalContinuity_empty|].
    unfold calculateTCF.
    change [global_feeling_tone uevData; emotional_motivation uevData;
            rational_deliberation uevData; action_readiness uevData]
      with (UEV_values uevData).
    rewrite checkComponentCompatibility_spec, checkTemporalContinuity_empty by done.
    by js_bind.
  - intros Hne. exists (Spec.temporalContinuity uevData). eexists.
    split; [by apply checkTemporalContinuity_spec|].
    split; [by apply calculateTCF_spec|].
    pose proof (variance_nonneg _ Hne) as Hvar.
    assert (0 <= Spec.temporalContinuity uevData <= 1) as Htc.
    { unfold Spec.temporalContinuity, Rmax. destruct (Rle_dec _ _); lra. }
    destruct (component_compatibility_bounded (UEV_values uevData))
      as (v & Hv & Hrange & _).
    rewrite checkComponentCompatibility_spec in Hv. injection Hv as <-.
    split_and!; try lra.
    intros c Hall. unfold Spec.temporalContinuity.
    rewrite (variance_constant c) by done.
    unfold Rmax. destruct (Rle_dec _ _); lra.
Qed.

(** X9. [calculateTCF] throws a TypeError exactly when none of the four
    present-state components holds a value (the unguarded [reduce] of
    [checkTemporalContinuity]); otherwise it returns a score in [0,1], and
    the temporal continuity it uses lies in [0,1] and is 1 when all values
    are equal. *)
Theorem calculateTCF_outcome (uevData : UEV) :
  let allValues := flat_map JS.Object_values (UEV_values uevData) in
  (allValues = [] →
   checkTemporalContinuity uevData = JS.Throw JS.TypeError
   ∧ calculateTCF uevData = JS.Throw JS.TypeError)
  ∧ (allValues ≠ [] →
     ∃ tc v,
       checkTemporalContinuity uevData = JS.Ok tc
       ∧ calculateTCF uevData = JS.Ok v
       ∧ 0 <= tc <= 1 ∧ 0 <= v <= 1
       ∧ (∀ c, Forall (fun x => x = c) allValues → tc = 1)).
Proof. intros. by eapply tcf_cases. Qed.

Lemma calculateTCF_outcome_witness :
  (∃ tc v,
     checkTemporalContinuity Sample.uev = JS.Ok tc
     ∧ calculateTCF Sample.uev = JS.Ok v
     ∧ 0 <= tc <= 1 ∧ 0 <= v <= 1)
  ∧ calculateTCF {| global_feeling_tone := []; emotional_motivation := [];
                    rational_deliberation := []; action_readiness := [] |}
    = JS.Throw JS.TypeError.
Proof.
  split.
  - destruct (proj2 (calculateTCF_outcome Sample.uev)) as (tc & v & H1 & H2 & H3 & H4 & _);
      [discriminate|].
    exists tc, v. split; [exact H1 | split; [exact H2 | split; [exact H3 | exact H4]]].
  - apply (proj1 (calculateTCF_outcome
                    {| global_feeling_tone := []; emotional_motivation := [];
                       rational_deliberation := []; action_readiness := [] |})).
    reflexivity.
Defined.

(** ** Internal coherence *)

Lemma calculateBeliefConsistency_variance (b : JS.obj R) :
  b ≠ [] →
  calculateBeliefConsistency (Some b)
  = JS.Ok (clamp (1 - Rabs (Spec.variance (JS.Object_values b) - 0.1))).
Proof.
  intros Hne. unfold calculateBeliefConsistency.
  rewrite reduce_sum_nonempty by (by destruct b).
  js_bind. by rewrite squares_loop, Rplus_0_l.
Qed.

(** X10. For a non-empty beliefs object the belief consistency is
    max(0, min(1, 1 - |variance - 0.1|)) of the population variance of the
    belief strengths; it lies in [0,1], is exactly 0.9 when all strengths are
    equal, and is 1 exactly when the variance is 0.1. *)
Theorem calculateBeliefConsistency_profile (b : JS.obj R) :
  b ≠ [] →
  ∃ v,
    calculateBeliefConsistency (Some b) = JS.Ok v
    ∧ v = clamp (1 - Rabs (Spec.variance (JS.Object_values b) - 0.1))
    ∧ 0 <= v <= 1
    ∧ (∀ c, Forall (fun x => x = c) (JS.Object_values b) → v = 0.9)
    ∧ (v = 1 ↔ Spec.variance (JS.Object_values b) = 0.1).
Proof.
  intros Hne. eexists. split; [by apply calculateBeliefConsistency_variance|].
  split; [done|].
  assert (JS.Object_values b ≠ []) as Hvalues by (by destruct b).
  pose proof (variance_nonneg _ Hvalues) as Hvar.
  split; [apply clamp_unit|]. split.
  - intros c Hall. rewrite (variance_constant c) by done.
    unfold clamp, Rmax, Rmin, Rabs.
    destruct (Rcase_abs _); repeat destruct (Rle_dec _ _); lra.
  - unfold clamp, Rmax, Rmin, Rabs.
    destruct (Rcase_abs _); repeat destruct (Rle_dec _ _); split; lra.
Qed.

Lemma calculateBeliefConsistency_profile_witness :
  ∃ v,
    calculateBeliefConsistency (Some [("trust", 0.4); ("fairness", 0.4)]) = JS.Ok v
    ∧ v = 0.9.
Proof.
  destruct (calculateBeliefConsistency_profile [("trust", 0.4); ("fairness", 0.4)])
    as (v & Hv & _ & _ & Hconst & _); [discriminate|].
  exists v. split; [exact Hv|].
  apply (Hconst 0.4). apply Forall_cons. split; [reflexivity|].
  apply Forall_cons. split; [reflexivity | apply Forall_nil; exact I].
Defined.

Lemma calculateRuleCoherence_unit (r : option (JS.obj string)) :
  0 <= calculateRuleCoherence r <= 1.
Proof.
  unfold calculateRuleCoherence. destruct r as [r|]; [|lra].
  pose proof (pos_INR (length (JS.Object_keys r))).
  unfold Rmin. destruct (Rle_dec _ _); lra.
Qed.

Lemma calculateOntologyAlignment_unit (o : option (JS.obj string)) :
  0 <= calculateOntologyAlignment o <= 1.
Proof.
  unfold calculateOntologyAlignment. destruct o as [o|]; [|lra].
  set (present := List.filter _ _).
  assert (length present <= 3)%nat as Hle by apply List.filter_length_le.
  pose proof (pos_INR (length present)). apply le_INR in Hle. cbn in *. lra.
Qed.

(** X11. The rule coherence is the number of rules over 5, capped at 1: it
    reaches 1 exactly from five rules on, and an empty rules object scores
    0, below the 0.5 given to an absent one. *)
Theorem calculateRuleCoherence_profile (r : JS.obj string) :
  calculateRuleCoherence (Some r) = Rmin 1 (INR (length r) / 5)
  ∧ 0 <= calculateRuleCoherence (Some r) <= 1
  ∧ (calculateRuleCoherence (Some r) = 1 ↔ (5 <= length r)%nat)
  ∧ calculateRuleCoherence (Some []) = 0
  ∧ calculateRuleCoherence None = 0.5.
Proof.
  split; [|split; [apply calculateRuleCoherence_unit|]].
  - unfold calculateRuleCoherence, JS.Object_keys. by rewrite length_map.
  - split; [|split; [unfold calculateRuleCoherence, Rmin; cbn;
                      destruct (Rle_dec _ _); lra | done]].
    unfold calculateRuleCoherence, JS.Object_keys. rewrite length_map.
    pose proof (pos_INR (length r)) as Hpos. split.
    + intros Hone. apply INR_le. change (INR 5) with (1 + 1 + 1 + 1 + 1).
      revert Hone. unfold Rmin. destruct (Rle_dec _ _); lra.
    + intros Hfive%le_INR. change (INR 5) with (1 + 1 + 1 + 1 + 1) in Hfive.
      unfold Rmin. destruct (Rle_dec _ _); lra.
Qed.

Lemma calculateInternalCoherence_throws (broaData : BROA) :
  beliefs broaData = Some [] ∨ authenticity broaData = None →
  calculateInternalCoherence broaData = JS.Throw JS.TypeError.
Proof.
  unfold calculateInternalCoherence. intros [Hb | Ha].
  - by rewrite Hb.
  - rewrite Ha. by destruct (beliefs broaData) as [[|kv b]|].
Qed.

Lemma scorable_dec (agent : AgentData) :
  Range.scorable agent
  ∨ flat_map JS.Object_values (UEV_values (uev_data agent)) = []
  ∨ beliefs (broa_data agent) = Some []
  ∨ authenticity (broa_data agent) = None.
Proof.
  unfold Range.scorable.
  destruct (flat_map JS.Object_values (UEV_values (uev_data agent))) as [|x l];
    [by right; left|].
  destruct (beliefs (broa_data agent)) as [[|kv b]|];
    destruct (authenticity (broa_data agent)) as [auth|]; try (by left);
    right; right; tauto.
Qed.

Lemma calculateATCF_throws (this : ATCFCalculator) (agentData : AgentData) (now : R) :
  flat_map JS.Object_values (UEV_values (uev_data agentData)) = []
  ∨ beliefs (broa_data agentData) = Some []
  ∨ authenticity (broa_data agentData) = None →
  calculateATCF this agentData now = JS.Throw JS.TypeError.
Proof.
  intros Hbad. unfold calculateATCF, calculatePresentIntegration.
  destruct (flat_map JS.Object_values (UEV_values (uev_data agentData))) as [|x l] eqn:Hv.
  - rewrite (proj2 (proj1 (tcf_cases (uev_data agentData)) Hv)). by js_bind.
  - rewrite calculateTCF_spec by (by rewrite Hv). js_bind.
    rewrite calculateInternalCoherence_throws; [by js_bind|].
    destruct Hbad as [? | [? | ?]]; [done | by left | by right].
Qed.

(** X12. For agent data that has the objects the code reads without a
    guard ([uev_data] with its four components, [broa_data],
    [future_projections] and [self_modification_data], as the type
    [AgentData] has them): [calculateATCF] returns a result exactly when
    the present-state bundle holds at least one value, the beliefs object is
    absent or non-empty and the authenticity record is present; otherwise it
    throws a TypeError. The optional fields (history, kernel, goals,
    timeline, modification history, rules, ontology) may be absent, and the
    weights are arbitrary. *)
Theorem calculateATCF_outcome (this : ATCFCalculator) (agentData : AgentData) (now : R) :
  (Range.scorable agentData → ∃ r, calculateATCF this agentData now = JS.Ok r)
  ∧ (¬ Range.scorable agentData →
     calculateATCF this agentData now = JS.Throw JS.TypeError).
Proof.
  split.
  - intros (Hu & Hb & Ha). by apply calculateATCF_returns.
  - intros Hn. apply calculateATCF_throws.
    destruct (scorable_dec agentData) as [Hs | Hbad]; [done | exact Hbad].
Qed.

Lemma calculateATCF_outcome_witness :
  (∃ r, calculateATCF Sample.calculator Sample.agent 0 = JS.Ok r)
  ∧ calculateATCF Sample.calculator
      {| cultural_background := None;
         identity_history := None;
         identity_kernel := None;
         uev_data := Sample.uev;
         broa_data := {| beliefs := None; rules := None; ontology := None;
                         authenticity := None |};
         future_projections := Sample.no_projections;
         self_modification_data := Sample.no_modifications;
         capabilities := None |} 0
    = JS.Throw JS.TypeError.
Proof.
  split.
  - apply (proj1 (calculateATCF_outcome Sample.calculator Sample.agent 0)).
    split; [discriminate | split; discriminate].
  - apply (proj2 (calculateATCF_outcome Sample.calculator _ 0)).
    intros (_ & _ & Ha). apply Ha. reflexivity.
Defined.

(** ** Sub-score ranges and the clamp *)

Lemma or_default_stated (x : option R) (d : R) :
  Range.stated_unit x → 0 <= d <= 1 → 0 <= JS.or_default x d <= 1.
Proof. intros Hx Hd. by apply or_default_unit. Qed.

Lemma calculateInternalCoherence_range (broaData : BROA) (ic : R) :
  (∀ auth, authenticity broaData = Some auth → Range.stated_unit (value_alignment auth)) →
  calculateInternalCoherence broaData = JS.Ok ic → 0 <= ic <= 1.
Proof.
  intros Hva. unfold calculateInternalCoherence.
  destruct (authenticity broaData) as [auth|] eqn:Ha;
    [|by destruct (calculateBeliefConsistency _)].
  assert (∃ bc, calculateBeliefConsistency (beliefs broaData) = JS.Ok bc ∧ 0 <= bc <= 1
          ∨ calculateBeliefConsistency (beliefs broaData) = JS.Throw JS.TypeError)
    as (bc & [[-> Hbc] | ->]).
  { destruct (beliefs broaData) as [[|kv b]|].
    - exists 0. by right.
    - destruct (calculateBeliefConsistency_nonempty (kv :: b)) as (v & Hv & Hu); [done|].
      exists v. by left.
    - exists 0.5. left. split; [done | lra]. }
  - js_bind. intros [= <-].
    pose proof (calculateRuleCoherence_unit (rules broaData)).
    pose proof (calculateOntologyAlignment_unit (ontology broaData)).
    pose proof (or_default_stated (value_alignment auth) 0.75 (Hva auth eq_refl)
                  ltac:(lra)).
    lra.
  - by js_bind.
Qed.

Lemma calculateProjectionAlignment_range (projections : FutureProjections)
    (identityKernel : option (list string)) :
  Range.stated_unit (alignment_with_identity projections) →
  0 <= calculateProjectionAlignment projections identityKernel <= 1.
Proof.
  intros Hstated. unfold calculateProjectionAlignment.
  destruct (goals projections) as [g|], identityKernel as [k|]; try lra.
  set (count := length (List.filter (goalMatchesKernel k) g)).
  assert (count <= length g)%nat as Hle by apply List.filter_length_le.
  apply le_INR in Hle. pose proof (pos_INR count) as Hpos.
  assert (0 <= INR count / Rmax (INR (length g)) 1 <= 1) as Hscore.
  { assert (1 <= Rmax (INR (length g)) 1) by apply Rmax_r.
    assert (INR (length g) <= Rmax (INR (length g)) 1) by apply Rmax_l.
    split.
    - apply Rmult_le_pos; [done|]. left. apply Rinv_0_lt_compat. lra.
    - apply (Rmult_le_reg_r (Rmax (INR (length g)) 1)); [lra|].
      unfold Rdiv. rewrite Rmult_assoc, Rinv_l by lra. lra. }
  pose proof (or_default_stated _ _ Hstated Hscore). lra.
Qed.

Lemma calculateGoalDiversity_range (g : option (list string)) :
  0 <= calculateGoalDiversity g <= 1.
Proof.
  unfold calculateGoalDiversity. destruct g as [[|x g]|]; try lra.
  unfold JS.Set_size. pose proof (pos_INR (length (JS.new_Set (map JS.split_first (x :: g))))).
  unfold Rmin. destruct (Rle_dec _ _); lra.
Qed.

Lemma assessTimelineRealism_range (timeline : option string) :
  0.5 <= assessTimelineRealism timeline <= 0.9.
Proof.
  unfold assessTimelineRealism, timelineMap.
  generalize (JS.property_key timeline). intros s. cbn.
  culture_cases; table_value.
Qed.

Lemma calculateProspectiveCoherence_range (projections : FutureProjections)
    (identityKernel : option (list string)) :
  Range.stated_unit (alignment_with_identity projections) →
  0 <= calculateProspectiveCoherence projections identityKernel <= 1.
Proof.
  intros Hstated. unfold calculateProspectiveCoherence, calculateAdaptiveCapacity.
  pose proof (calculateProjectionAlignment_range projections identityKernel Hstated).
  pose proof (calculateGoalDiversity_range (goals projections)).
  pose proof (assessTimelineRealism_range (timeline projections)).
  lra.
Qed.

Lemma assessModificationAbility_range (modData : SelfModification) :
  0 <= assessModificationAbility modData <= 1.
Proof.
  unfold assessModificationAbility.
  destruct (modification_history modData) as [h|]; [|lra].
  unfold JS.Set_size.
  pose proof (pos_INR (length h)).
  pose proof (pos_INR (length (JS.new_Set (map JS.split_first h)))).
  unfold Rmin. destruct (Rle_dec _ _); lra.
Qed.

Lemma calculateMetaConstructorCapacity_range (modData : SelfModification) :
  Range.stated_unit (coherence_maintenance_capacity modData) →
  0 <= calculateMetaConstructorCapacity modData <= 1.
Proof.
  intros Hstated. unfold calculateMetaConstructorCapacity, assessCoherenceMaintenance.
  pose proof (assessModificationAbility_range modData).
  pose proof (or_default_stated _ 0.5 Hstated ltac:(lra)). lra.
Qed.

Lemma clamp_id (x : R) : 0 <= x <= 1 → clamp x = x.
Proof. intros [? ?]. unfold clamp, Rmax, Rmin. repeat destruct (Rle_dec _ _); lra. Qed.

(** X13. When the decay constant is the constructor's 30, the weights are
    non-negative with sum at most 1, the agent's stated self-assessments
    lie in [0,1] and its timeline is a plain key, no clamp of
    [calculateATCF] changes anything: the four returned components are the
    four sub-scores and the total score is their weighted sum. *)
Theorem calculateATCF_unclamped (this : ATCFCalculator) (agentData : AgentData)
    (now : R) (r : ATCFResult) :
  temporalDecayConstant this = 30 →
  Range.subconvex (weights this) →
  Range.self_assessments_unit agentData →
  Range.plain_key (timeline (future_projections agentData)) →
  calculateATCF this agentData now = JS.Ok r →
  ∃ pi,
    calculatePresentIntegration (uev_data agentData) (broa_data agentData) = JS.Ok pi
    ∧ HC (components r)
      = calculateHistoricalContinuity this (identity_history agentData) now
    ∧ PI (components r) = pi
    ∧ PC (components r)
      = calculateProspectiveCoherence (future_projections agentData)
                                      (identity_kernel agentData)
    ∧ MCC (components r)
      = calculateMetaConstructorCapacity (self_modification_data agentData)
    ∧ total_score r
      = alpha (weights this) * HC (components r) + beta (weights this) * PI (components r)
        + gamma (weights this) * PC (components r)
        + delta (weights this) * MCC (components r).
Proof.
  intros Htdc (Ha & Hb & Hc & Hd & Hsum) (Hva & Hali & Hcap) _ Hcall.
  apply calculateATCF_result in Hcall as (pi & Hpi & Ht & Hcomp). cbv zeta in *.
  exists pi. split; [done|].
  assert (0 <= calculateHistoricalContinuity this (identity_history agentData) now <= 1)
    as Hhc by by apply historicalContinuity_unit.
  assert (0 <= pi <= 1) as Hpirange.
  { revert Hpi. unfold calculatePresentIntegration.
    destruct (flat_map JS.Object_values (UEV_values (uev_data agentData))) as [|x l] eqn:Hv.
    - rewrite (proj2 (proj1 (tcf_cases (uev_data agentData)) Hv)). by js_bind.
    - destruct (proj2 (tcf_cases (uev_data agentData)))
        as (tc & v & _ & Hv' & _ & Hvr & _); [by rewrite Hv|].
      rewrite Hv'. js_bind.
      destruct (calculateInternalCoherence (broa_data agentData)) as [ic|] eqn:Hic;
        [|done].
      intros [= <-].
      pose proof (calculateInternalCoherence_range _ _ Hva Hic). lra. }
  pose proof (calculateProspectiveCoherence_range
                (future_projections agentData) (identity_kernel agentData) Hali) as Hpc.
  pose proof (calculateMetaConstructorCapacity_range
                (self_modification_data agentData) Hcap) as Hmcc.
  rewrite Hcomp. cbn [HC PI PC MCC]. rewrite !clamp_id by done.
  split_and!; try done.
  rewrite Ht. apply clamp_id. unfold Spec.sum4 in Hsum. nra.
Qed.

Lemma calculateATCF_unclamped_witness :
  ∃ r,
    calculateATCF Sample.calculator (Sample.believer 0) 0 = JS.Ok r
    ∧ total_score r
      = 0.25 * HC (components r) + 0.25 * PI (components r)
        + 0.25 * PC (components r) + 0.25 * MCC (components r).
Proof.
  destruct (calculateATCF_returns Sample.calculator (Sample.believer 0) 0)
    as [r Hr]; [discriminate | discriminate | discriminate |].
  exists r. split; [exact Hr|].
  destruct (calculateATCF_unclamped Sample.calculator (Sample.believer 0) 0 r)
    as (pi & _ & _ & _ & _ & _ & Htotal).
  - reflexivity.
  - unfold Range.subconvex, Spec.sum4. cbn. lra.
  - split; [|split].
    + intros auth [= <-] v [= <-]. lra.
    + intros v Hv. discriminate Hv.
    + intros v Hv. discriminate Hv.
  - plain_name.
  - exact Hr.
  - exact Htotal.
Defined.

Lemma interpretATCFScore_clamp (x : R) :
  interpretATCFScore (clamp x) = interpretATCFScore x.
Proof.
  unfold interpretATCFScore, clamp, Rmax, Rmin.
  repeat destruct (Rle_dec _ _); repeat destruct (Rge_dec _ _); try done; lra.
Qed.

(** X14. For an agent whose timeline is a plain key, the interpretation
    attached to a result is the band of the returned (clamped) total score,
    although the code computes it from the unclamped sum; in particular the
    level is "excellent" exactly when the returned total score is at least
    0.8 and "very_low" exactly when it is below 0.3. *)
Theorem calculateATCF_interpretation (this : ATCFCalculator) (agentData : AgentData)
    (now : R) (r : ATCFResult) :
  Range.plain_key (timeline (future_projections agentData)) →
  calculateATCF this agentData now = JS.Ok r →
  interpretation r = interpretATCFScore (total_score r)
  ∧ (Interpretation.level (interpretation r) = "excellent" ↔ total_score r >= 0.8)
  ∧ (Interpretation.level (interpretation r) = "very_low" ↔ total_score r < 0.3).
Proof.
  intros _ Hcall.
  assert (interpretation r = interpretATCFScore (total_score r)) as ->.
  { apply calculateATCF_result in Hcall as Hres. destruct Hres as (pi & Hpi & Ht & _).
    cbv zeta in Ht. rewrite Ht, interpretATCFScore_clamp.
    revert Hcall. unfold calculateATCF. rewrite Hpi. js_bind. by intros [= <-]. }
  split; [done|]. unfold interpretATCFScore.
  repeat destruct (Rge_dec _ _); cbn; split; split; intros; try done; lra.
Qed.

Lemma calculateATCF_interpretation_witness :
  ∃ r,
    calculateATCF Sample.calculator Sample.agent 0 = JS.Ok r
    ∧ interpretation r = interpretATCFScore (total_score r).
Proof.
  destruct (calculateATCF_returns Sample.calculator Sample.agent 0)
    as [r Hr]; [discriminate | discriminate | discriminate |].
  exists r. split; [exact Hr|].
  apply (calculateATCF_interpretation Sample.calculator Sample.agent 0 r);
    [plain_name | exact Hr].
Defined.

(** ** Cultural adaptation *)

(** X15. For a known culture with positive weights and positive modifiers,
    the adapted weights are positive and are accepted by the constructor's
    validation; and when the four modifiers are equal, weights that sum to 1
    come back unchanged. *)
Theorem adaptForCulture_valid (culturalFrameworks : gmap string Weights)
    (culturalContext : option string) (w m : Weights) :
  culturalFrameworks !! JS.property_key culturalContext = Some m →
  Spec.positive w → Spec.positive m →
  let adapted := adaptForCulture culturalFrameworks culturalContext w in
  Spec.positive adapted
  ∧ constructor adapted = JS.Ok {| weights := adapted; temporalDecayConstant := 30 |}
  ∧ (alpha m = beta m → beta m = gamma m → gamma m = delta m → Spec.sum4 w = 1 →
     adapted = w).
Proof.
  intros Hm (Ha & Hb & Hc & Hd) (Ha' & Hb' & Hc' & Hd'). cbv zeta.
  rewrite (adaptForCulture_known _ _ _ _ Hm). cbv zeta.
  assert (0 < alpha w * alpha m) as Pa by by apply Rmult_lt_0_compat.
  assert (0 < beta w * beta m) as Pb by by apply Rmult_lt_0_compat.
  assert (0 < gamma w * gamma m) as Pc by by apply Rmult_lt_0_compat.
  assert (0 < delta w * delta m) as Pd by by apply Rmult_lt_0_compat.
  set (total := alpha w * alpha m + beta w * beta m + gamma w * gamma m
                + delta w * delta m).
  assert (0 < total) as Htotal by (unfold total; lra).
  split; [|split].
  - unfold Spec.positive. cbn [alpha beta gamma delta].
    split_and!; by apply Rdiv_lt_0_compat.
  - unfold constructor, validateWeights. rewrite validateWeights_sum.
    unfold Spec.sum4. cbn [alpha beta gamma delta].
    assert (alpha w * alpha m / total + beta w * beta m / total
            + gamma w * gamma m / total + delta w * delta m / total = 1) as Hone.
    { unfold Rdiv. rewrite <- !Rmult_plus_distr_r. fold total. field. lra. }
    destruct (Rgt_dec _ _) as [Hgt|_]; [|done].
    rewrite Hone in Hgt. replace (1 - 1.0) with 0 in Hgt by lra.
    rewrite Rabs_R0 in Hgt. lra.
  - intros E1 E2 E3 Hsum. unfold Spec.sum4 in Hsum.
    assert (total = delta m) as Ht.
    { unfold total. rewrite E1, E2, E3.
      replace (alpha w * delta m + beta w * delta m + gamma w * delta m
               + delta w * delta m)
        with ((alpha w + beta w + gamma w + delta w) * delta m) by lra.
      rewrite Hsum. lra. }
    rewrite Ht, E1, E2, E3. destruct w as [wa wb wc wd]. cbn [alpha beta gamma delta].
    f_equal; field; lra.
Qed.

Lemma adaptForCulture_valid_witness :
  adaptForCulture Sample.frameworks (Some "collectivistic") Fixture.skewed_weights
  = {| alpha := 0.4 * 1.2 / 1.02; beta := 0.3 * 0.9 / 1.02;
       gamma := 0.2 * 0.8 / 1.02; delta := 0.1 * 1.1 / 1.02 |}
  ∧ Spec.positive
      (adaptForCulture Sample.frameworks (Some "collectivistic") Fixture.skewed_weights)
  ∧ constructor
      (adaptForCulture Sample.frameworks (Some "collectivistic") Fixture.skewed_weights)
    = JS.Ok {| weights := adaptForCulture Sample.frameworks (Some "collectivistic")
                            Fixture.skewed_weights;
               temporalDecayConstant := 30 |}
  ∧ constructor {| alpha := 0.4 * 1.2; beta := 0.3 * 0.9;
                   gamma := 0.2 * 0.8; delta := 0.1 * 1.1 |}
    = JS.Throw (JS.Error "ATCF weights must sum to 1.0").
Proof.
  destruct (adaptForCulture_valid Sample.frameworks (Some "collectivistic")
              Fixture.skewed_weights
              {| alpha := 1.2; beta := 0.9; gamma := 0.8; delta := 1.1 |})
    as (Hpos & Hok & _).
  - reflexivity.
  - unfold Spec.positive, Fixture.skewed_weights. cbn [alpha beta gamma delta]. lra.
  - unfold Spec.positive. cbn [alpha beta gamma delta]. lra.
  - split; [|split; [exact Hpos | split; [exact Hok |]]].
    + rewrite (adaptForCulture_known Sample.frameworks (Some "collectivistic")
                 Fixture.skewed_weights
                 {| alpha := 1.2; beta := 0.9; gamma := 0.8; delta := 1.1 |} eq_refl).
      cbn [alpha beta gamma delta Fixture.skewed_weights].
      by replace (0.4 * 1.2 + 0.3 * 0.9 + 0.2 * 0.8 + 0.1 * 1.1) with 1.02 by lra.
    + unfold constructor, validateWeights. rewrite validateWeights_sum.
      unfold Spec.sum4. cbn [alpha beta gamma delta].
      destruct (Rgt_dec _ _) as [_|Hn]; [done|]. exfalso. apply Hn.
      replace (0.4 * 1.2 + 0.3 * 0.9 + 0.2 * 0.8 + 0.1 * 1.1 - 1.0) with 0.02 by lra.
      unfold Rabs. destruct (Rcase_abs _); lra.
Defined.

(** X16. For a culture tag that is a plain key and that the modifier table
    does not list (an absent tag included), the culturally adapted scoring
    returns what [calculateATCF] returns, with the adaptation record added;
    the record and the result name the calculator's own weights. *)
Theorem calculateCulturallyAdaptedATCF_unknown (culturalFrameworks : gmap string Weights)
    (this : ATCFCalculator) (agentData : AgentData) (now : R) (r0 : ATCFResult) :
  Range.plain_key (cultural_background agentData) →
  culturalFrameworks !! JS.property_key (cultural_background agentData) = None →
  calculateATCF this agentData now = JS.Ok r0 →
  ∃ r,
    calculateCulturallyAdaptedATCF culturalFrameworks this agentData now
    = (JS.Ok r, this)
    ∧ total_score r = total_score r0
    ∧ components r = components r0
    ∧ interpretation r = interpretation r0
    ∧ result_weights r = weights this
    ∧ cultural_adaptation r
      = Some {| original_weights := weights this;
                adapted_weights := weights this;
                cultural_context := cultural_background agentData |}.
Proof.
  intros _ Hunknown Hcall. unfold calculateCulturallyAdaptedATCF, adaptForCulture.
  rewrite Hunknown.
  assert (set_weights this (weights this) = this) as Hid by by destruct this.
  rewrite Hid, Hcall, Hid. eexists. split; [done|]. cbn.
  split_and!; try done.
  revert Hcall. unfold calculateATCF.
  destruct (calculatePresentIntegration _ _); js_bind; [|done]. by intros [= <-].
Qed.

Lemma calculateCulturallyAdaptedATCF_unknown_witness :
  ∃ r0 r,
    calculateATCF Sample.calculator Sample.agent 0 = JS.Ok r0
    ∧ calculateCulturallyAdaptedATCF Sample.frameworks Sample.calculator Sample.agent 0
      = (JS.Ok r, Sample.calculator)
    ∧ total_score r = total_score r0.
Proof.
  destruct (calculateATCF_returns Sample.calculator Sample.agent 0)
    as [r0 Hr0]; [discriminate | discriminate | discriminate |].
  destruct (calculateCulturallyAdaptedATCF_unknown Sample.frameworks Sample.calculator
              Sample.agent 0 r0) as (r & Hr & Ht & _).
  - plain_name.
  - reflexivity.
  - exact Hr0.
  - exists r0, r. split; [exact Hr0 | split; [exact Hr | exact Ht]].
Defined.

(** X17. For a culture tag that is a plain key and whose modifiers can be
    renormalised: when the culturally adapted scoring throws, the exception
    is a TypeError caused by the agent's data, and the calculator is left
    with the adapted weights instead of its own: the restoring assignment
    is skipped. *)
Theorem calculateCulturallyAdaptedATCF_failure (culturalFrameworks : gmap string Weights)
    (this this' : ATCFCalculator) (agentData : AgentData) (now : R) (e : JS.exn) :
  Range.plain_key (cultural_background agentData) →
  Spec.renormalisable culturalFrameworks (weights this) (cultural_background agentData) →
  calculateCulturallyAdaptedATCF culturalFrameworks this agentData now
  = (JS.Throw e, this') →
  e = JS.TypeError
  ∧ ¬ Range.scorable agentData
  ∧ weights this'
    = adaptForCulture culturalFrameworks (cultural_background agentData) (weights this)
  ∧ temporalDecayConstant this' = temporalDecayConstant this.
Proof.
  intros _ _. unfold calculateCulturallyAdaptedATCF.
  set (this1 := set_weights this _).
  destruct (scorable_dec agentData) as [(Hu & Hb & Ha) | Hbad].
  - destruct (calculateATCF_returns this1 agentData now Hu Hb Ha) as [r ->]. done.
  - rewrite (calculateATCF_throws this1 agentData now Hbad).
    intros [= <- <-]. split_and!; try done.
    intros (Hu & Hb & Ha). by destruct Hbad as [? | [? | ?]].
Qed.

Lemma calculateCulturallyAdaptedATCF_failure_witness :
  ∃ this',
    calculateCulturallyAdaptedATCF Sample.frameworks Sample.calculator
      Fixture.unscorable 0 = (JS.Throw JS.TypeError, this')
    ∧ weights this'
      = adaptForCulture Sample.frameworks (Some "collectivistic") default_weights
    ∧ alpha (weights this') = 0.3.
Proof.
  destruct (calculateCulturallyAdaptedATCF Sample.frameworks Sample.calculator
              Fixture.unscorable 0) as [[r|e] this'] eqn:Hcall.
  - exfalso. revert Hcall. unfold calculateCulturallyAdaptedATCF.
    rewrite calculateATCF_throws; [discriminate|]. right. left. reflexivity.
  - destruct (calculateCulturallyAdaptedATCF_failure Sample.frameworks Sample.calculator
                this' Fixture.unscorable 0 e) as (-> & _ & Hw & _).
    { plain_name. }
    { intros m Hm.
      change (Some {| alpha := 1.2; beta := 0.9; gamma := 0.8; delta := 1.1 |} = Some m)
        in Hm.
      injection Hm as <-.
      cbv [alpha beta gamma delta default_weights weights Sample.calculator]. lra. }
    { exact Hcall. }
    exists this'. split; [reflexivity | split; [exact Hw|]].
    rewrite Hw.
    rewrite (adaptForCulture_known Sample.frameworks
               (cultural_background Fixture.unscorable) (weights Sample.calculator)
               {| alpha := 1.2; beta := 0.9; gamma := 0.8; delta := 1.1 |} eq_refl).
    cbv [alpha beta gamma delta default_weights weights Sample.calculator]. lra.
Defined.

(** ** The assessment as a whole *)

(** X18. For agents whose culture tags are plain keys,
    [assessCrossAgentCoordination] returns exactly when both agents have
    the data [calculateATCF] needs; it then leaves the assessment object as
    it was, so that repeating the call with the same clock readings gives
    the same result. Otherwise it throws a TypeError. *)
Theorem assessCrossAgentCoordination_outcome (culturalFrameworks : gmap string Weights)
    (this : CoordinationAssessment) (agent1Data agent2Data : AgentData) (now1 now2 : R) :
  Range.plain_key (cultural_background agent1Data) →
  Range.plain_key (cultural_background agent2Data) →
  (Range.scorable agent1Data ∧ Range.scorable agent2Data →
   ∃ r,
     assessCrossAgentCoordination culturalFrameworks this agent1Data agent2Data
       now1 now2 = (JS.Ok r, this))
  ∧ (¬ (Range.scorable agent1Data ∧ Range.scorable agent2Data) →
     ∃ this',
       assessCrossAgentCoordination culturalFrameworks this agent1Data agent2Data
         now1 now2 = (JS.Throw JS.TypeError, this')).
Proof.
  intros _ _. split.
  - intros [(Hu1 & Hb1 & Ha1) (Hu2 & Hb2 & Ha2)].
    by apply assessCrossAgentCoordination_returns.
  - intros Hn. unfold assessCrossAgentCoordination.
    destruct (scorable_dec agent1Data) as [(Hu1 & Hb1 & Ha1) | Hbad1].
    + destruct (calculateCulturallyAdaptedATCF_returns culturalFrameworks
                  (atcfCalculator this) agent1Data now1 Hu1 Hb1 Ha1) as [atcf1 ->].
      destruct (scorable_dec agent2Data) as [Hs2 | Hbad2];
        [exfalso; apply Hn; by split|].
      unfold calculateCulturallyAdaptedATCF.
      rewrite (calculateATCF_throws _ agent2Data now2 Hbad2). by eexists.
    + unfold calculateCulturallyAdaptedATCF at 1.
      rewrite (calculateATCF_throws _ agent1Data now1 Hbad1). by eexists.
Qed.

Lemma assessCrossAgentCoordination_outcome_witness :
  (∃ r,
     assessCrossAgentCoordination Sample.frameworks Sample.assessment
       (Sample.believer 0) (Sample.believer 1) 0 0 = (JS.Ok r, Sample.assessment))
  ∧ (∃ this',
       assessCrossAgentCoordination Sample.frameworks Sample.assessment
         (Sample.believer 0) Fixture.unscorable 0 0 = (JS.Throw JS.TypeError, this')).
Proof.
  split.
  - apply (assessCrossAgentCoordination_outcome Sample.frameworks
             Sample.assessment (Sample.believer 0) (Sample.believer 1) 0 0);
      [plain_name | plain_name |].
    split; (split; [discriminate | split; discriminate]).
  - apply (assessCrossAgentCoordination_outcome Sample.frameworks
             Sample.assessment (Sample.believer 0) Fixture.unscorable 0 0);
      [plain_name | plain_name |].
    intros [_ (_ & Hb & _)]. apply Hb. reflexivity.
Defined.

Lemma generateCoordinationRecommendation_clamp (cp : JS.num) :
  generateCoordinationRecommendation (JS.max (JS.Num 0) (JS.min (JS.Num 1) cp))
  = generateCoordinationRecommendation cp.
Proof.
  destruct cp as [x|]; [|done].
  unfold generateCoordinationRecommendation. cbn. unfold Rmax, Rmin.
  repeat destruct (Rle_dec _ _); repeat destruct (Rge_dec _ _); try done; lra.
Qed.

Lemma recommendation_of_result
    (culturalFrameworks : gmap string Weights)
    (this this' : CoordinationAssessment) (agent1Data agent2Data : AgentData)
    (now1 now2 : R) (r : CoordinationResult) :
  assessCrossAgentCoordination culturalFrameworks this agent1Data agent2Data
    now1 now2 = (JS.Ok r, this') →
  recommendation r = generateCoordinationRecommendation (coordination_potential r)
  ∧ (coordination_potential r = JS.NaN →
     Recommendation.level (recommendation r) = "very_low"
     ∧ Recommendation.confidence (recommendation r) = "low").
Proof.
  intros Hcall.
  assert (recommendation r = generateCoordinationRecommendation (coordination_potential r))
    as Hrec.
  { apply assessCrossAgentCoordination_result in Hcall as Hres.
    destruct Hres as (atcf1 & atcf2 & calc1 & calc2 & E1 & E2 & Hcp & _).
    cbv zeta in Hcp. rewrite Hcp, generateCoordinationRecommendation_clamp.
    revert Hcall. unfold assessCrossAgentCoordination. rewrite E1, E2.
    by intros [= <- _]. }
  split; [done|]. intros HNaN. by rewrite Hrec, HNaN.
Qed.

(** X19. The recommendation of an assessment is the band of the returned
    (clamped) coordination potential, although the code computes it from the
    unclamped sum; and a potential that is NaN is reported as "very_low"
    with confidence "low". *)
Theorem assessCrossAgentCoordination_recommendation
    (culturalFrameworks : gmap string Weights)
    (this this' : CoordinationAssessment) (agent1Data agent2Data : AgentData)
    (now1 now2 : R) (r : CoordinationResult) :
  assessCrossAgentCoordination culturalFrameworks this agent1Data agent2Data
    now1 now2 = (JS.Ok r, this') →
  recommendation r = generateCoordinationRecommendation (coordination_potential r)
  ∧ (coordination_potential r = JS.NaN →
     Recommendation.level (recommendation r) = "very_low"
     ∧ Recommendation.confidence (recommendation r) = "low").
Proof. intros. by eapply recommendation_of_result. Qed.

Lemma assessCrossAgentCoordination_recommendation_witness :
  ∃ r,
    assessCrossAgentCoordination Sample.frameworks Sample.assessment
      Sample.agent Sample.agent 0 0 = (JS.Ok r, Sample.assessment)
    ∧ recommendation r = generateCoordinationRecommendation (coordination_potential r).
Proof.
  destruct (assessCrossAgentCoordination_returns Sample.frameworks Sample.assessment
              Sample.agent Sample.agent 0 0) as [r Hr];
    [discriminate | discriminate | discriminate
     | discriminate | discriminate | discriminate |].
  exists r. split; [exact Hr|].
  exact (proj1 (assessCrossAgentCoordination_recommendation Sample.frameworks
                  Sample.assessment Sample.assessment Sample.agent Sample.agent
                  0 0 r Hr)).
Defined.

Lemma strategies_in_order (cp prf : JS.num) (cap cult : R) :
  identifyInterventionStrategies cp prf cap cult
  = ((if JS.lt cp (JS.Num 0.5) then [comprehensive_coordination] else [])
     ++ (if JS.lt prf (JS.Num 0.6) then [prf_alignment] else [])
     ++ (if Rlt_dec cult 0.6 then [cultural_bridging] else [])
     ++ (if Rlt_dec cap 0.5 then [capability_development] else []))%list.
Proof.
  unfold identifyInterventionStrategies, pushedStrategies.
  destruct (JS.lt cp _), (JS.lt prf _), (Rlt_dec cult _), (Rlt_dec cap _); reflexivity.
Qed.

(** X20. The returned strategies are exactly, in this order: the
    comprehensive programme when the composite is below 0.5, the PRF
    alignment when the PRF compatibility is below 0.6, the cultural bridging
    when the cultural coordination is below 0.6, and the capability
    development when the capability overlap is below 0.5 (a comparison with
    NaN being false). *)
Theorem identifyInterventionStrategies_order (cp prf : JS.num) (cap cult : R) :
  identifyInterventionStrategies cp prf cap cult
  = ((if JS.lt cp (JS.Num 0.5) then [comprehensive_coordination] else [])
     ++ (if JS.lt prf (JS.Num 0.6) then [prf_alignment] else [])
     ++ (if Rlt_dec cult 0.6 then [cultural_bridging] else [])
     ++ (if Rlt_dec cap 0.5 then [capability_development] else []))%list.
Proof. intros. by eapply strategies_in_order. Qed.

Lemma calculateAuthenticityCompatibility_NaN (auth1 auth2 : Authenticity) :
  value_alignment auth1 = None ∨ value_alignment auth2 = None
  ∨ self_consistency auth1 = None ∨ self_consistency auth2 = None →
  calculateAuthenticityCompatibility (Some auth1) (Some auth2) = JS.NaN.
Proof.
  unfold calculateAuthenticityCompatibility.
  destruct (value_alignment auth1), (value_alignment auth2),
    (self_consistency auth1), (self_consistency auth2); cbn; try done.
  by intros [? | [? | [? | ?]]].
Qed.

Lemma add_NaN_r (a : JS.num) : JS.add a JS.NaN = JS.NaN.
Proof. by destruct a. Qed.

(** X21. For agents whose tags are plain keys: when one of the two
    authenticity records lacks [value_alignment] or [self_consistency]
    (fields for which only the calculator has a default), an assessment that
    returns has NaN as PRF compatibility and as coordination potential, its
    recommendation is "very_low", and neither the PRF alignment nor the
    comprehensive programme is among the strategies. *)
Theorem assessCrossAgentCoordination_incomplete
    (culturalFrameworks : gmap string Weights)
    (this this' : CoordinationAssessment) (agent1Data agent2Data : AgentData)
    (now1 now2 : R) (r : CoordinationResult) (auth1 auth2 : Authenticity) :
  Range.plain_tags agent1Data → Range.plain_tags agent2Data →
  assessCrossAgentCoordination culturalFrameworks this agent1Data agent2Data
    now1 now2 = (JS.Ok r, this') →
  authenticity (broa_data agent1Data) = Some auth1 →
  authenticity (broa_data agent2Data) = Some auth2 →
  value_alignment auth1 = None ∨ value_alignment auth2 = None
  ∨ self_consistency auth1 = None ∨ self_consistency auth2 = None →
  prf_compatibility r = JS.NaN
  ∧ coordination_potential r = JS.NaN
  ∧ Recommendation.level (recommendation r) = "very_low"
  ∧ intervention_strategies r
    = ((if Rlt_dec (cultural_coordination r) 0.6 then [cultural_bridging] else [])
       ++ (if Rlt_dec (capability_overlap r) 0.5 then [capability_development] else [])
      )%list.
Proof.
  intros _ _ Hcall Ha1 Ha2 Hmissing.
  pose proof (recommendation_of_result _ _ _ _ _ _ _ _ Hcall)
    as [_ Hrec].
  apply assessCrossAgentCoordination_result in Hcall
    as (atcf1 & atcf2 & calc1 & calc2 & _ & _ & Hcp & _ & Hprf & Hcap & Hcult & Hs).
  cbv zeta in *.
  assert (calculatePRFCompatibility (broa_data agent1Data) (broa_data agent2Data)
          = JS.NaN) as HNaN.
  { unfold calculatePRFCompatibility.
    rewrite Ha1, Ha2, calculateAuthenticityCompatibility_NaN by done.
    by rewrite add_NaN_r. }
  rewrite HNaN in *.
  assert (coordination_potential r = JS.NaN) as HcpNaN by by rewrite Hcp.
  split_and!; try done.
  - by apply Hrec.
  - rewrite Hs, strategies_in_order, Hcap, Hcult. done.
Qed.

Lemma assessCrossAgentCoordination_incomplete_witness :
  ∃ r,
    assessCrossAgentCoordination Sample.frameworks Sample.assessment
      Sample.agent Sample.agent 0 0 = (JS.Ok r, Sample.assessment)
    ∧ coordination_potential r = JS.NaN
    ∧ Recommendation.level (recommendation r) = "very_low".
Proof.
  destruct (assessCrossAgentCoordination_returns Sample.frameworks Sample.assessment
              Sample.agent Sample.agent 0 0) as [r Hr];
    [discriminate | discriminate | discriminate
     | discriminate | discriminate | discriminate |].
  exists r. split; [exact Hr|].
  destruct (assessCrossAgentCoordination_incomplete Sample.frameworks
              Sample.assessment Sample.assessment Sample.agent Sample.agent 0 0 r
              Sample.bare_authenticity Sample.bare_authenticity)
    as (_ & Hcp & Hlevel & _).
  - apply agent_plain_tags.
  - apply agent_plain_tags.
  - exact Hr.
  - reflexivity.
  - reflexivity.
  - left. reflexivity.
  - split; [exact Hcp | exact Hlevel].
Defined.

(** ** Belief and rule compatibility *)

Lemma self_agreement_loop (b : JS.obj R) (keys : list string) (t : R) :
  Forall (fun k => is_Some (JS.get b k)) keys →
  fold_left (fun totalCompatibility belief =>
               JS.add totalCompatibility
                 (JS.sub (JS.Num 1)
                    (JS.abs (JS.sub (JS.of_property (JS.get b belief))
                                    (JS.of_property (JS.get b belief))))))
            keys (JS.Num t)
  = JS.Num (t + INR (length keys)).
Proof.
  intros Hkeys. revert t. induction Hkeys as [|k keys [x Hx] _ IH]; intros t.
  - cbn. f_equal. lra.
  - cbn [fold_left]. rewrite Hx.
    match goal with
    | |- context [fold_left _ keys ?acc] => change acc with (JS.Num (t + (1 - Rabs (x - x))))
    end.
    rewrite IH. f_equal. change (length (k :: keys)) with (S (length keys)).
    rewrite S_INR. replace (x - x) with 0 by lra. rewrite Rabs_R0. lra.
Qed.

Lemma common_keys_self (b : JS.obj R) :
  List.filter (fun key => JS.has_key key b) (JS.Object_keys b) = JS.Object_keys b.
Proof.
  apply forallb_filter_id. apply forallb_forall. intros k Hk%list_elem_of_In.
  unfold JS.has_key. by destruct (get_of_key b k Hk) as [v ->].
Qed.

Lemma filter_all_false {A} (f : A → bool) (l : list A) :
  (∀ x, x ∈ l → f x = false) → List.filter f l = [].
Proof.
  induction l as [|x l IH]; intros Hall; [done|]. cbn.
  rewrite (Hall x) by set_solver. apply IH. intros y Hy. apply Hall. set_solver.
Qed.

(** X22. Every non-empty beliefs object is fully compatible with itself
    (score 1); two beliefs objects without a common key score 0.3, provided
    the keys of the first are plain keys; and when one of them is absent the
    score is 0.5. *)
Theorem calculateBeliefCompatibility_profile (beliefs1 beliefs2 : JS.obj R) :
  (beliefs1 ≠ [] → calculateBeliefCompatibility (Some beliefs1) (Some beliefs1) = JS.Num 1)
  ∧ (Range.plain_beliefs (Some beliefs1) →
     (∀ k, k ∈ JS.Object_keys beliefs1 → k ∉ JS.Object_keys beliefs2) →
     calculateBeliefCompatibility (Some beliefs1) (Some beliefs2) = JS.Num 0.3)
  ∧ calculateBeliefCompatibility None (Some beliefs2) = JS.Num 0.5
  ∧ calculateBeliefCompatibility (Some beliefs1) None = JS.Num 0.5.
Proof.
  split_and!; try done.
  - intros Hne. unfold calculateBeliefCompatibility. rewrite common_keys_self.
    assert (length (JS.Object_keys beliefs1) ≠ 0%nat) as Hlen
      by (destruct beliefs1; cbn; [done | lia]).
    pose proof Hlen as Hlenb. apply Nat.eqb_neq in Hlenb. rewrite Hlenb. cbv zeta.
    rewrite self_agreement_loop
      by (apply Forall_forall; intros k Hk; by apply get_of_key).
    cbn. f_equal.
    assert (0 < INR (length (JS.Object_keys beliefs1))) by (apply lt_0_INR; lia).
    field. lra.
  - intros _ Hdisjoint. unfold calculateBeliefCompatibility.
    assert (List.filter (fun key => JS.has_key key beliefs2) (JS.Object_keys beliefs1) = [])
      as ->; [|done].
    apply filter_all_false. intros k Hk.
    unfold JS.has_key. destruct (JS.get beliefs2 k) as [v|] eqn:Hget; [|done].
    exfalso. apply (Hdisjoint k Hk). clear -Hget.
    unfold JS.Object_keys. induction beliefs2 as [|[k' v'] b IH]; [done|].
    cbn in *. destruct (String.eqb_spec k k') as [->|Hne]; [left | right; by apply IH].
Qed.

Lemma calculateBeliefCompatibility_profile_witness :
  calculateBeliefCompatibility (Some [("trust", 0.2); ("fairness", 0.9)])
                               (Some [("trust", 0.2); ("fairness", 0.9)])
  = JS.Num 1
  ∧ calculateBeliefCompatibility (Some [("trust", 0.2)]) (Some [("fairness", 0.9)])
    = JS.Num 0.3.
Proof.
  split.
  - apply (proj1 (calculateBeliefCompatibility_profile
                    [("trust", 0.2); ("fairness", 0.9)] [])).
    discriminate.
  - apply (proj1 (proj2 (calculateBeliefCompatibility_profile
                           [("trust", 0.2)] [("fairness", 0.9)]))).
    { intros ? [= <-]. unfold JS.Object_keys; cbn [map fst].
      apply Forall_cons_2; [plain_name | apply Forall_nil_2]. }
    intros k Hk Hk'. cbn in Hk, Hk'.
    apply list_elem_of_singleton in Hk, Hk'. subst k. discriminate Hk'.
Defined.

Lemma eqb_false (a b : string) : a ≠ b → String.eqb a b = false.
Proof. intros H. by apply String.eqb_neq. Qed.

(** X23. Each rule-compatibility table lists only two styles as first
    argument: when none of the first agent's three styles is one of them
    (the styles being plain keys), the rule compatibility is 0.5 whatever
    the second agent's rules are. The
    score therefore depends on the order of the agents: "hierarchical"
    against "individual_focused" gives 0.5, the reverse 13/30. *)
Theorem calculateRuleCompatibility_unlisted :
  (∀ rules1 rules2 : JS.obj string,
     let decision := JS.property_key (JS.get rules1 "decision_making") in
     let conflict := JS.property_key (JS.get rules1 "conflict_resolution") in
     let goal := JS.property_key (JS.get rules1 "goal_setting") in
     Range.plain_styles (Some rules1)
       ["decision_making"; "conflict_resolution"; "goal_setting"] →
     decision ≠ "individual_focused" → decision ≠ "consensus_based" →
     conflict ≠ "direct_communication" → conflict ≠ "harmony_preservation" →
     goal ≠ "personal_achievement" → goal ≠ "collective_benefit" →
     calculateRuleCompatibility (Some rules1) (Some rules2) = 0.5)
  ∧ calculateRuleCompatibility (Some [("decision_making", "hierarchical")])
                               (Some [("decision_making", "individual_focused")])
    = 0.5
  ∧ calculateRuleCompatibility (Some [("decision_making", "individual_focused")])
                               (Some [("decision_making", "hierarchical")])
    = 13 / 30.
Proof.
  split; [|split].
  - intros rules1 rules2 decision conflict goal _ Hd1 Hd2 Hc1 Hc2 Hg1 Hg2.
    unfold calculateRuleCompatibility, assessDecisionCompatibility,
      assessConflictCompatibility, assessGoalCompatibility, matrix_lookup.
    fold decision conflict goal. cbn [JS.get].
    rewrite !eqb_false by done. lra.
  - unfold calculateRuleCompatibility, assessDecisionCompatibility,
      assessConflictCompatibility, assessGoalCompatibility, matrix_lookup.
    cbn. lra.
  - unfold calculateRuleCompatibility, assessDecisionCompatibility,
      assessConflictCompatibility, assessGoalCompatibility, matrix_lookup.
    cbn. table_value.
Qed.

Lemma calculateRuleCompatibility_unlisted_witness :
  calculateRuleCompatibility (Some [("decision_making", "collaborative")])
                             (Some [("decision_making", "consensus_based")])
  = 0.5.
Proof.
  apply (proj1 calculateRuleCompatibility_unlisted
           [("decision_making", "collaborative")]
           [("decision_making", "consensus_based")]); try discriminate.
  intros styles [= <-]. repeat (apply Forall_cons_2; [plain_name|]).
  apply Forall_nil_2.
Defined.

(** ** Goals, timelines and modifications *)

Lemma includes_empty (s : string) : JS.includes s "" = true.
Proof. by destruct s. Qed.

Lemma lower_ascii_idem (c : ascii) : JS.lower_ascii (JS.lower_ascii c) = JS.lower_ascii c.
Proof. destruct c as [[] [] [] [] [] [] [] []]; reflexivity. Qed.

Lemma toLowerCase_idem (s : string) : JS.toLowerCase (JS.toLowerCase s) = JS.toLowerCase s.
Proof. induction s as [|c s IH]; cbn; [done|]. by rewrite lower_ascii_idem, IH. Qed.

Lemma goalMatchesKernel_lower (kernel : list string) (goal : string) :
  goalMatchesKernel (map JS.toLowerCase kernel) (JS.toLowerCase goal)
  = goalMatchesKernel kernel goal.
Proof.
  unfold goalMatchesKernel. induction kernel as [|k kernel IH]; cbn; [done|].
  by rewrite IH, !toLowerCase_idem.
Qed.

Lemma filter_lower_length (kernel goals : list string) :
  length (List.filter (goalMatchesKernel (map JS.toLowerCase kernel))
                      (map JS.toLowerCase goals))
  = length (List.filter (goalMatchesKernel kernel) goals).
Proof.
  induction goals as [|g goals IH]; cbn; [done|].
  rewrite goalMatchesKernel_lower. destruct (goalMatchesKernel kernel g); cbn; lia.
Qed.

(** X24. Goal matching ignores the case of ASCII letters: lower-casing every
    goal and every kernel element leaves the projection alignment
    unchanged. And because every string includes the empty string, a kernel
    that holds an empty tag matches every goal, which gives a non-empty goal
    list without stated alignment the full score 1. *)
Theorem calculateProjectionAlignment_matching (projections : FutureProjections)
    (goalList kernel : list string) :
  goals projections = Some goalList →
  calculateProjectionAlignment
    {| goals := Some (map JS.toLowerCase goalList);
       timeline := timeline projections;
       alignment_with_identity := alignment_with_identity projections |}
    (Some (map JS.toLowerCase kernel))
  = calculateProjectionAlignment projections (Some kernel)
  ∧ ("" ∈ kernel → goalList ≠ [] → alignment_with_identity projections = None →
     calculateProjectionAlignment projections (Some kernel) = 1).
Proof.
  intros Hgoals. unfold calculateProjectionAlignment.
  cbn [goals alignment_with_identity]. rewrite Hgoals. split.
  - by rewrite filter_lower_length, length_map.
  - intros Hempty Hne Hnone. rewrite Hnone. cbn [JS.or_default].
    assert (List.filter (goalMatchesKernel kernel) goalList = goalList) as ->.
    { apply forallb_filter_id. apply forallb_forall. intros g _.
      unfold goalMatchesKernel. apply existsb_exists. exists "".
      split; [by apply list_elem_of_In|]. cbn. by rewrite includes_empty. }
    assert (1 <= INR (length goalList)) as Hlen.
    { destruct goalList as [|g l]; [done|].
      change (length (g :: l)) with (S (length l)). rewrite S_INR.
      pose proof (pos_INR (length l)). lra. }
    rewrite Rmax_left by done. field. lra.
Qed.

Lemma calculateProjectionAlignment_matching_witness :
  calculateProjectionAlignment
    {| goals := Some (map JS.toLowerCase ["Learn_Piano"]); timeline := None;
       alignment_with_identity := None |}
    (Some (map JS.toLowerCase ["LEARN"]))
  = calculateProjectionAlignment
      {| goals := Some ["Learn_Piano"]; timeline := None;
         alignment_with_identity := None |}
      (Some ["LEARN"])
  ∧ calculateProjectionAlignment
      {| goals := Some ["travel"]; timeline := None; alignment_with_identity := None |}
      (Some [""]) = 1.
Proof.
  split.
  - exact (proj1 (calculateProjectionAlignment_matching
                    {| goals := Some ["Learn_Piano"]; timeline := None;
                       alignment_with_identity := None |}
                    ["Learn_Piano"] ["LEARN"] eq_refl)).
  - apply (proj2 (calculateProjectionAlignment_matching
                    {| goals := Some ["travel"]; timeline := None;
                       alignment_with_identity := None |}
                    ["travel"] [""] eq_refl)).
    + apply list_elem_of_singleton. reflexivity.
    + discriminate.
    + reflexivity.
Defined.

Lemma new_Set_nonempty (l : list string) : l ≠ [] → (1 <= length (JS.new_Set l))%nat.
Proof.
  destruct l as [|x l]; [done|]. intros _.
  assert (x ∈ JS.new_Set (x :: l)) as Hx by (apply new_Set_spec; set_solver).
  destruct (JS.new_Set (x :: l)); [by apply elem_of_nil in Hx | cbn; lia].
Qed.

Lemma new_Set_length_le (l : list string) : (length (JS.new_Set l) <= length l)%nat.
Proof.
  unfold JS.new_Set.
  assert (∀ acc, length (fold_left JS.Set_add l acc) <= length acc + length l)%nat as H.
  { induction l as [|x l IH]; intros acc; cbn [fold_left length]; [lia|].
    specialize (IH (JS.Set_add acc x)).
    assert (length (JS.Set_add acc x) <= S (length acc))%nat.
    { unfold JS.Set_add. destruct (JS.Set_has acc x); [lia|].
      rewrite length_app. cbn. lia. }
    lia. }
  apply (H []).
Qed.

(** X25. Every non-empty modification history scores between 0.3 and 1,
    0.3 being also the value that an absent history gets by default; five
    entries or more score 1; and an empty history scores 0, below the
    default. *)
Theorem assessModificationAbility_profile (history : list string)
    (capacity : option R) :
  let modData h :=
    {| modification_history := h; coherence_maintenance_capacity := capacity |} in
  (history ≠ [] → 0.3 <= assessModificationAbility (modData (Some history)) <= 1)
  ∧ ((5 <= length history)%nat → assessModificationAbility (modData (Some history)) = 1)
  ∧ assessModificationAbility (modData (Some [])) = 0
  ∧ assessModificationAbility (modData None) = 0.3.
Proof.
  cbv zeta. unfold assessModificationAbility. cbn [modification_history].
  unfold JS.Set_size.
  pose proof (pos_INR (length (JS.new_Set (map JS.split_first history)))) as Hd0.
  pose proof (pos_INR (length history)) as Hl0.
  split_and!; try done.
  - intros Hne.
    assert (1 <= INR (length history)) as Hlen.
    { destruct history as [|g l]; [done|].
      change (length (g :: l)) with (S (length l)). rewrite S_INR.
      pose proof (pos_INR (length l)). lra. }
    assert (1 <= INR (length (JS.new_Set (map JS.split_first history)))) as Hdist.
    { change 1 with (INR 1). apply le_INR, new_Set_nonempty. by destruct history. }
    unfold Rmin. destruct (Rle_dec _ _); lra.
  - intros Hfive%le_INR. change (INR 5) with (1 + 1 + 1 + 1 + 1) in Hfive.
    unfold Rmin. destruct (Rle_dec _ _); lra.
  - cbn. unfold Rmin. destruct (Rle_dec _ _); lra.
Qed.

Lemma assessModificationAbility_profile_witness :
  0.3 <= assessModificationAbility
           {| modification_history := Some ["habit_change"];
              coherence_maintenance_capacity := None |} <= 1
  ∧ assessModificationAbility
      {| modification_history :=
           Some ["habit_a"; "habit_b"; "habit_c"; "habit_d"; "habit_e"];
         coherence_maintenance_capacity := None |} = 1.
Proof.
  destruct (assessModificationAbility_profile ["habit_change"] None) as (H1 & _).
  destruct (assessModificationAbility_profile
              ["habit_a"; "habit_b"; "habit_c"; "habit_d"; "habit_e"] None)
    as (_ & H2 & _).
  split.
  - apply H1. discriminate.
  - apply H2. cbn. lia.
Defined.

(** X26. The timeline realism lies in [0.5, 0.9] for every timeline that is
    a plain key, and is the fallback 0.5 for every such timeline other than
    the five listed ones, an absent timeline included. *)
Theorem assessTimelineRealism_profile (timeline : option string) :
  Range.plain_key timeline →
  0.5 <= assessTimelineRealism timeline <= 0.9
  ∧ (timeline ≠ Some "1_year" → timeline ≠ Some "3_years" → timeline ≠ Some "5_years" →
     timeline ≠ Some "10_years" → timeline ≠ Some "20_years" →
     assessTimelineRealism timeline = 0.5).
Proof.
  intros _. split; [apply assessTimelineRealism_range|].
  intros H1 H3 H5 H10 H20. unfold assessTimelineRealism, timelineMap.
  destruct timeline as [s|]; [|done]. cbn.
  rewrite !eqb_false by congruence. done.
Qed.

Lemma assessTimelineRealism_profile_witness :
  assessTimelineRealism (Some "7_years") = 0.5.
Proof.
  apply (assessTimelineRealism_profile (Some "7_years")); [plain_name | discriminate ..].
Defined.

(** X27. The ontology alignment of a present ontology is one of 0, 1/3, 2/3
    and 1, and it is 1 exactly when the three expected categories
    (agency_conception, time_orientation, relationship_model) all carry a
    non-empty value. *)
Theorem calculateOntologyAlignment_profile (o : JS.obj string) :
  let stated cat := JS.truthy_string (JS.get o cat) in
  (calculateOntologyAlignment (Some o) = 0
   ∨ calculateOntologyAlignment (Some o) = 1 / 3
   ∨ calculateOntologyAlignment (Some o) = 2 / 3
   ∨ calculateOntologyAlignment (Some o) = 1)
  ∧ (calculateOntologyAlignment (Some o) = 1
     ↔ stated "agency_conception" = true ∧ stated "time_orientation" = true
       ∧ stated "relationship_model" = true).
Proof.
  cbv zeta. unfold calculateOntologyAlignment. cbn [List.filter].
  destruct (JS.truthy_string (JS.get o "agency_conception")),
    (JS.truthy_string (JS.get o "time_orientation")),
    (JS.truthy_string (JS.get o "relationship_model")); cbn;
    (split; [lra | split; [intros; try lra; done | intros (? & ? & ?); try done; lra]]).
Qed.

(** X28. For a non-empty goal list the goal diversity is a fifth of the
    number of distinct goal types, capped at 1, the type of a goal being its
    text before the first underscore: goals that share their type count
    once, so a list of goals of one type scores 0.2, and five distinct types
    or more score 1. *)
Theorem calculateGoalDiversity_profile (goalList : list string) :
  goalList ≠ [] →
  let types := Spec.tags (map JS.split_first goalList) in
  calculateGoalDiversity (Some goalList) = Rmin 1 (INR (size types) / 5)
  ∧ 0.2 <= calculateGoalDiversity (Some goalList) <= 1
  ∧ (∀ p, Forall (fun g => JS.split_first g = p) goalList →
          calculateGoalDiversity (Some goalList) = 0.2)
  ∧ ((5 <= size types)%nat → calculateGoalDiversity (Some goalList) = 1).
Proof.
  intros Hne. cbv zeta.
  assert (calculateGoalDiversity (Some goalList)
          = Rmin 1 (INR (size (Spec.tags (map JS.split_first goalList))) / 5)) as ->.
  { unfold calculateGoalDiversity. destruct goalList as [|g l]; [done|].
    by rewrite Set_size_tags. }
  set (n := size (Spec.tags (map JS.split_first goalList))).
  assert (1 <= n)%nat as Hn.
  { unfold n. destruct goalList as [|g l]; [done|].
    assert (size (Spec.tags (map JS.split_first (g :: l))) ≠ 0%nat); [|lia].
    intros Hz%size_empty_inv.
    assert (JS.split_first g ∈ Spec.tags (map JS.split_first (g :: l))) as Hin
      by (apply elem_of_tags; cbn; set_solver).
    set_solver. }
  apply le_INR in Hn as Hn'. change (INR 1) with 1 in Hn'.
  split; [done|]. split; [unfold Rmin; destruct (Rle_dec _ _); lra|]. split.
  - intros p Hall.
    assert (n = 1%nat) as ->.
    { unfold n.
      assert (Spec.tags (map JS.split_first goalList) = {[ p ]}) as ->;
        [|apply size_singleton].
      apply set_eq. intros x. rewrite elem_of_tags, elem_of_singleton.
      rewrite list_elem_of_fmap. split.
      - intros (g & -> & Hg). rewrite Forall_forall in Hall. by apply Hall.
      - intros ->. destruct goalList as [|g l]; [done|].
        exists g. apply Forall_cons in Hall as [Hg _]. split; [done | set_solver]. }
    cbn. unfold Rmin. destruct (Rle_dec _ _); lra.
  - intros Hfive%le_INR. change (INR 5) with (1 + 1 + 1 + 1 + 1) in Hfive.
    unfold Rmin. destruct (Rle_dec _ _); lra.
Qed.

Lemma calculateGoalDiversity_profile_witness :
  calculateGoalDiversity (Some ["career_growth"; "career_change"; "career_pause"]) = 0.2.
Proof.
  destruct (calculateGoalDiversity_profile
              ["career_growth"; "career_change"; "career_pause"])
    as (_ & _ & Hconst & _); [discriminate|].
  apply (Hconst "career").
  apply Forall_cons. split; [reflexivity|].
  apply Forall_cons. split; [reflexivity|].
  apply Forall_cons. split; [reflexivity | apply Forall_nil; exact I].
Defined.

Lemma calculateCapabilityOverlap_bounds (c1 c2 : option (list string)) :
  0.3 <= calculateCapabilityOverlap c1 c2 <= 0.8.
Proof.
  destruct c1 as [[|x1 c1]|], c2 as [[|x2 c2]|]; try (cbn; lra).
  rewrite capability_formula by done. cbv zeta.
  pose proof (jaccard_unit (Spec.tags (x1 :: c1)) (Spec.tags (x2 :: c2))) as [H0 H1].
  unfold Rmin. destruct (Rle_dec _ _); lra.
Qed.

Lemma cultural_bounds (culture1 culture2 : option string) :
  0.4 <= calculateCulturalCoordination culture1 culture2 <= 0.8.
Proof.
  unfold calculateCulturalCoordination.
  destruct (negb _ || negb _)%bool; [lra|]. case_bool_decide; [lra|].
  apply matrix_lookup_cultural_range.
Qed.

(** X29. For an assessment that returns on agents whose tags are plain
    keys, whose cultures have modifiers that can be renormalised, whose
    belief strengths lie in [0,1] and whose authenticity records state both
    numeric fields in [0,1], the coordination potential is a number between 0.155 and 0.91 and
    is the unclamped weighted sum
    0.3 * min(total scores) + 0.25 * PRF + 0.25 * capability + 0.2 * cultural:
    the clamp never acts, and no pair of agents exceeds 0.91. *)
Theorem coordination_potential_bounds (culturalFrameworks : gmap string Weights)
    (this this' : CoordinationAssessment) (agent1Data agent2Data : AgentData)
    (now1 now2 : R) (r : CoordinationResult) :
  assessCrossAgentCoordination culturalFrameworks this agent1Data agent2Data
    now1 now2 = (JS.Ok r, this') →
  Range.plain_tags agent1Data → Range.plain_tags agent2Data →
  Spec.renormalisable culturalFrameworks (weights (atcfCalculator this))
    (cultural_background agent1Data) →
  Spec.renormalisable culturalFrameworks (weights (atcfCalculator this))
    (cultural_background agent2Data) →
  Spec.unit_beliefs agent1Data → Spec.unit_beliefs agent2Data →
  Spec.stated_authenticity agent1Data → Spec.stated_authenticity agent2Data →
  ∃ p c,
    prf_compatibility r = JS.Num p
    ∧ coordination_potential r = JS.Num c
    ∧ c = 0.3 * Rmin (total_score (individual_atcf r).1) (total_score (individual_atcf r).2)
          + 0.25 * p + 0.25 * capability_overlap r + 0.2 * cultural_coordination r
    ∧ 0.155 <= c <= 0.91.
Proof.
  intros Hcall _ _ _ _ Hb1 Hb2 Ha1 Ha2.
  apply assessCrossAgentCoordination_result in Hcall
    as (atcf1 & atcf2 & calc1 & calc2 & E1 & E2 & Hcp & Hatcf & Hprf & Hcap & Hcult & _).
  cbv zeta in *.
  destruct (calculatePRFCompatibility_unit agent1Data agent2Data Hb1 Hb2 Ha1 Ha2)
    as (p & Hp & [Hp0 Hp1]).
  apply calculateCulturallyAdaptedATCF_unit in E1 as [Ht10 Ht11].
  apply calculateCulturallyAdaptedATCF_unit in E2 as [Ht20 Ht21].
  pose proof (calculateCapabilityOverlap_bounds
                (Some (default [] (capabilities agent1Data)))
                (Some (default [] (capabilities agent2Data)))) as Hcapb.
  pose proof (cultural_bounds (cultural_background agent1Data)
                (cultural_background agent2Data)) as Hcultb.
  rewrite Hp in Hcp, Hprf.
  unfold JS.max, JS.min, JS.add, JS.mul in Hcp. cbn [JS.lift2] in Hcp.
  assert (0 <= Rmin (total_score atcf1) (total_score atcf2) <= 1) as Hmin
    by (unfold Rmin; destruct (Rle_dec _ _); lra).
  exists p. eexists. split; [done|]. split; [exact Hcp|].
  rewrite Hatcf, Hcap, Hcult. cbn [fst snd].
  set (raw := 0.3 * Rmin (total_score atcf1) (total_score atcf2) + 0.25 * p
              + 0.25 * calculateCapabilityOverlap
                         (Some (default [] (capabilities agent1Data)))
                         (Some (default [] (capabilities agent2Data)))
              + 0.2 * calculateCulturalCoordination (cultural_background agent1Data)
                        (cultural_background agent2Data)).
  assert (0.155 <= raw <= 0.91) as Hraw by (unfold raw; lra).
  split; [|unfold Rmax, Rmin; repeat destruct (Rle_dec _ _); lra].
  unfold Rmax, Rmin. repeat destruct (Rle_dec _ _); lra.
Qed.

Lemma coordination_potential_bounds_witness :
  ∃ r p c,
    assessCrossAgentCoordination Sample.frameworks Sample.assessment
      (Sample.believer 0) (Sample.believer 1) 0 0 = (JS.Ok r, Sample.assessment)
    ∧ prf_compatibility r = JS.Num p
    ∧ coordination_potential r = JS.Num c
    ∧ 0.155 <= c <= 0.91.
Proof.
  destruct (assessCrossAgentCoordination_returns Sample.frameworks Sample.assessment
              (Sample.believer 0) (Sample.believer 1) 0 0) as [r Hr];
    [discriminate | discriminate | discriminate
     | discriminate | discriminate | discriminate |].
  destruct (coordination_potential_bounds Sample.frameworks Sample.assessment
              Sample.assessment (Sample.believer 0) (Sample.believer 1) 0 0 r Hr)
    as (p & c & Hp & Hc & _ & Hrange).
  - apply believer_plain_tags.
  - apply believer_plain_tags.
  - intros m Hm. discriminate Hm.
  - intros m Hm. discriminate Hm.
  - apply believer_unit_beliefs. unfold Spec.unit_interval. lra.
  - apply believer_unit_beliefs. unfold Spec.unit_interval. lra.
  - apply believer_stated_authenticity.
  - apply believer_stated_authenticity.
  - exists r, p, c. split; [exact Hr | split; [exact Hp | split; [exact Hc | exact Hrange]]].
Defined.

(** ** The demo's interpretation line *)

(** X30. The demo's [updateATCFInterpretation] uses the calculator's five
    bands: for every numeric score the text it writes begins with the
    description [interpretATCFScore] gives for that score. It changes no
    element other than "interpretation", and nothing at all when that
    element is missing. *)
Theorem updateATCFInterpretation_agrees (document : gmap string Element.t) (score : R) :
  (∀ element, document !! "interpretation" = Some element →
     ∃ written,
       updateATCFInterpretation document (JS.Num score) !! "interpretation" = Some written
       ∧ String.prefix (Interpretation.description (interpretATCFScore score))
                       (Element.textContent written) = true)
  ∧ (∀ id, id ≠ "interpretation" →
       updateATCFInterpretation document (JS.Num score) !! id = document !! id)
  ∧ (document !! "interpretation" = None →
     updateATCFInterpretation document (JS.Num score) = document).
Proof.
  unfold updateATCFInterpretation. split; [|split].
  - intros element ->. unfold interpretATCFScore. cbn [JS.ge].
    repeat destruct (Rge_dec _ _); rewrite lookup_insert_eq; eexists;
      (split; [reflexivity | reflexivity]).
  - intros id Hid. destruct (document !! "interpretation"); [|done].
    destruct (JS.ge _ _); [by rewrite lookup_insert_ne|].
    destruct (JS.ge _ _); [by rewrite lookup_insert_ne|].
    destruct (JS.ge _ _); [by rewrite lookup_insert_ne|].
    destruct (JS.ge _ _); by rewrite lookup_insert_ne.
  - by intros ->.
Qed.

Lemma updateATCFInterpretation_agrees_witness :
  ∃ written,
    updateATCFInterpretation
      {[ "interpretation" := {| Element.textContent := ""; Element.color := "" |} ]}
      (JS.Num 0.4) !! "interpretation" = Some written
    ∧ String.prefix (Interpretation.description (interpretATCFScore 0.4))
                    (Element.textContent written) = true.
Proof.
  apply (proj1 (updateATCFInterpretation_agrees
                  {[ "interpretation" :=
                       {| Element.textContent := ""; Element.color := "" |} ]} 0.4)
           {| Element.textContent := ""; Element.color := "" |}).
  reflexivity.
Defined.
